(** * miniwdl: source archives ([WDL/Zip.py]) and runtime values ([WDL/Value.py])

    A shallow embedding of the two modules and the properties their
    specification states about them.

    Layout: Python's [str] and [posixpath] helpers the code calls, the
    runtime values of [WDL/Value.py], the interpreter state (heap of list
    objects, file system, log) with its state-and-exception monad, the
    functions of [WDL/Zip.py], and then the theorems. *)

From Stdlib Require Import ZArith String Ascii List Bool Lia.
From Stdlib Require Import SpecFloat.
From stdpp Require Import gmap strings list pretty.

Import ListNotations.
Local Set Warnings "-register-all".
Local Open Scope string_scope.
Local Open Scope Z_scope.

(** ** Python exceptions raised by the modelled code *)

Inductive exn : Type :=
| AssertionError
| IndexError
| KeyError (key : string)
| ValueError (msg : string)
| TypeError (msg : string)
| OverflowError (msg : string)
| OSError (msg : string)
| InputError (msg : string)
| DanglingReference.
(* [DanglingReference] is an artefact of the heap model (a reference to an
   object that was never allocated); Python cannot produce it. *)

(** The outcome of a call: a value, an exception, or no outcome within the
    steps allowed (the model of a loop that is still running). *)
Inductive result (A : Type) : Type :=
| Ok (a : A)
| Raise (e : exn)
| OutOfFuel.
Arguments Ok {A} a.
Arguments Raise {A} e.
Arguments OutOfFuel {A}.

(** ** Python [str] operations *)

Module PyStr.

Definition slash : ascii := "/"%char.
Definition dquote : ascii := "034"%char.

(** [len(s)] *)
Definition len (s : string) : nat := String.length s.

(** [s.startswith(pre)] *)
Fixpoint startswith (s pre : string) : bool :=
  match pre, s with
  | EmptyString, _ => true
  | String _ _, EmptyString => false
  | String a pre', String b s' => Ascii.eqb a b && startswith s' pre'
  end.

(** [s[n:]] *)
Fixpoint drop (n : nat) (s : string) : string :=
  match n, s with
  | O, _ => s
  | S _, EmptyString => EmptyString
  | S n', String _ s' => drop n' s'
  end.

(** [s[:n]] *)
Fixpoint take (n : nat) (s : string) : string :=
  match n, s with
  | O, _ => EmptyString
  | S _, EmptyString => EmptyString
  | S n', String c s' => String c (take n' s')
  end.

(** [s.endswith(suf)] *)
Definition endswith (s suf : string) : bool :=
  (len suf <=? len s)%nat && String.eqb (drop (len s - len suf) s) suf.

(** [pat in s] *)
Fixpoint contains (pat s : string) : bool :=
  match s with
  | EmptyString => startswith s pat
  | String _ s' => startswith s pat || contains pat s'
  end.

(** [s.replace(old, new)] for a non-empty [old]: occurrences are replaced
    left to right and do not overlap; [skip] counts the characters of a
    matched occurrence still to be passed over. *)
Fixpoint replace_from (skip : nat) (old new s : string) : string :=
  match s with
  | EmptyString => EmptyString
  | String c s' =>
      match skip with
      | S k => replace_from k old new s'
      | O =>
          if startswith s old
          then new ++ replace_from (len old - 1) old new s'
          else String c (replace_from O old new s')
      end
  end.

(** With an empty [old] Python puts [new] before every character and at
    the end. *)
Fixpoint intersperse (new s : string) : string :=
  match s with
  | EmptyString => new
  | String c s' => new ++ String c (intersperse new s')
  end.

Definition replace (s old new : string) : string :=
  match old with
  | EmptyString => intersperse new s
  | String _ _ => replace_from O old new s
  end.

(** [s.rstrip(c)] for a one-character set *)
Fixpoint rstrip (c : ascii) (s : string) : string :=
  match s with
  | EmptyString => EmptyString
  | String a s' =>
      match rstrip c s' with
      | EmptyString => if Ascii.eqb a c then EmptyString else String a EmptyString
      | r => String a r
      end
  end.

(** [s.split(c)] for a one-character separator *)
Fixpoint split (c : ascii) (s : string) : list string :=
  match s with
  | EmptyString => [EmptyString]
  | String a s' =>
      if Ascii.eqb a c then EmptyString :: split c s'
      else match split c s' with
           | [] => [String a EmptyString]
           | w :: ws => String a w :: ws
           end
  end.

(** [sep.join(l)] *)
Fixpoint join (sep : string) (l : list string) : string :=
  match l with
  | [] => EmptyString
  | [w] => w
  | w :: ws => w ++ sep ++ join sep ws
  end.

(** [c * n] *)
Fixpoint repeat (c : ascii) (n : nat) : string :=
  match n with
  | O => EmptyString
  | S n' => String c (repeat c n')
  end.

(** the f-string ["{s}"] with literal double quotes around [s] *)
Definition quoted (s : string) : string :=
  String dquote (s ++ String dquote EmptyString).

End PyStr.

(** ** Python's [posixpath] *)

Module PosixPath.
Import PyStr.

Definition sep : string := "/".
Definition curdir : string := ".".
Definition pardir : string := "..".

Definition has_sep (p : string) : bool := contains sep p.

(** [p[:p.rfind('/') + 1]] *)
Fixpoint head (p : string) : string :=
  match p with
  | EmptyString => EmptyString
  | String c p' =>
      if Ascii.eqb c slash || has_sep p' then String c (head p')
      else EmptyString
  end.

(** [basename(p)]: [p[p.rfind('/') + 1:]] *)
Fixpoint basename (p : string) : string :=
  match p with
  | EmptyString => EmptyString
  | String c p' =>
      if has_sep p' then basename p'
      else if Ascii.eqb c slash then p' else p
  end.

(** [dirname(p)] *)
Definition dirname (p : string) : string :=
  let h := head p in
  if negb (String.eqb h EmptyString) && negb (String.eqb h (repeat slash (len h)))
  then rstrip slash h
  else h.

Definition isabs (p : string) : bool := startswith p sep.

(** [join(a, b)] *)
Definition join (a b : string) : string :=
  if startswith b sep then b
  else if String.eqb a EmptyString || endswith a sep then a ++ b
  else a ++ sep ++ b.

(** [join(a, *ps)] *)
Definition join_all (a : string) (ps : list string) : string :=
  fold_left join ps a.

(** the loop of [normpath] over the components; [new_comps] grows at its
    end *)
Fixpoint normpath_comps (initial_slashes : nat) (comps new_comps : list string)
  : list string :=
  match comps with
  | [] => new_comps
  | comp :: rest =>
      if String.eqb comp EmptyString || String.eqb comp curdir
      then normpath_comps initial_slashes rest new_comps
      else if negb (String.eqb comp pardir)
              || (Nat.eqb initial_slashes 0 && Nat.eqb (length new_comps) 0)
              || (negb (Nat.eqb (length new_comps) 0)
                  && String.eqb (List.last new_comps EmptyString) pardir)
      then normpath_comps initial_slashes rest (new_comps ++ [comp])%list
      else normpath_comps initial_slashes rest (removelast new_comps)
  end.

(** the local variable [initial_slashes] of [normpath]: POSIX allows one
    or two initial slashes, three or more count as one *)
Definition initial_slashes (path : string) : nat :=
  if startswith path sep
  then if startswith path (sep ++ sep) && negb (startswith path (sep ++ sep ++ sep))
       then 2%nat else 1%nat
  else 0%nat.

(** [normpath(path)] *)
Definition normpath (path : string) : string :=
  if String.eqb path EmptyString then curdir
  else
    let comps :=
      normpath_comps (initial_slashes path) (split slash path) [] in
    let path := repeat slash (initial_slashes path) ++ PyStr.join sep comps in
    if String.eqb path EmptyString then curdir else path.

(** [abspath(path)], with the working directory of the process *)
Definition abspath (cwd path : string) : string :=
  normpath (if isabs path then path else join cwd path).

(** [commonprefix([a, b])] on strings: character by character *)
Fixpoint commonprefix (a b : string) : string :=
  match a, b with
  | String x a', String y b' =>
      if Ascii.eqb x y then String x (commonprefix a' b') else EmptyString
  | _, _ => EmptyString
  end.

(** [len(commonprefix([l1, l2]))] on lists of components *)
Fixpoint common_length (l1 l2 : list string) : nat :=
  match l1, l2 with
  | x :: l1', y :: l2' => if String.eqb x y then S (common_length l1' l2') else O
  | _, _ => O
  end.

Definition nonempty (x : string) : bool := negb (String.eqb x EmptyString).

(** [relpath(path, start)] *)
Definition relpath (cwd path start : string) : result string :=
  if String.eqb path EmptyString then Raise (ValueError "no path specified")
  else
    let start_list := List.filter nonempty (split slash (abspath cwd start)) in
    let path_list := List.filter nonempty (split slash (abspath cwd path)) in
    let i := common_length start_list path_list in
    let rel_list :=
      (List.repeat pardir (length start_list - i) ++ List.skipn i path_list)%list in
    match rel_list with
    | [] => Ok curdir
    | r :: rs => Ok (join_all r rs)
    end.

End PosixPath.

(** ** [WDL/Value.py] *)

(** Modelled from the spec: [WDL.Type] is not among the sources.  The
    types of the scalar and array runtime values, compared structurally. *)
Module T.

Inductive Base : Type :=
| Boolean
| Float
| Int
| String
| Array (item_type : Base).

Fixpoint eqb (a b : Base) : bool :=
  match a, b with
  | Boolean, Boolean | Float, Float | Int, Int | String, String => true
  | Array x, Array y => eqb x y
  | _, _ => false
  end.

(** [isinstance(t, T.Float)] *)
Definition is_Float (t : Base) : bool :=
  match t with Float => true | _ => false end.

End T.

Module Value.

(** Python's [float] is an IEEE 754 binary64. *)
Definition prec : Z := 53.
Definition emax : Z := 1024.
Definition float64 : Type := spec_float.

(** [float(i)] for an [int]: the nearest binary64 (ties to even);
    [OverflowError] when the integer is beyond the finite range. *)
Definition py_float (i : Z) : result float64 :=
  match binary_normalize prec emax i 0 false with
  | S754_infinity _ => Raise (OverflowError "int too large to convert to float")
  | S754_nan => Raise (OverflowError "int too large to convert to float")
  | f => Ok f
  end.

(** An instance of a subclass of [WDL.Value.Base]: the constructor is the
    class, which fixes the [type] field except for [Array]. *)
Inductive Base : Type :=
| Boolean (value : bool)
| Float (value : float64)
| Int (value : Z)
| String (value : string)
| Array (type : T.Base) (value : list Base).

(** the [type] attribute *)
Definition type (self : Base) : T.Base :=
  match self with
  | Boolean _ => T.Boolean
  | Float _ => T.Float
  | Int _ => T.Int
  | String _ => T.String
  | Array t _ => t
  end.

(** [Base.coerce] *)
Definition Base_coerce (self : Base) (desired_type : option T.Base) : result Base :=
  if match desired_type with
     | None => true
     | Some d => T.eqb (type self) d
     end
  then Ok self
  else Raise AssertionError.

(** [Int.coerce] *)
Definition Int_coerce (self : Base) (value : Z) (desired_type : option T.Base)
  : result Base :=
  match desired_type with
  | Some d =>
      if T.is_Float d
      then match py_float value with
           | Ok f => Ok (Float f)
           | Raise e => Raise e
           | OutOfFuel => OutOfFuel
           end
      else Base_coerce self desired_type
  | None => Base_coerce self desired_type
  end.

(** [v.coerce(desired_type)], dispatched on the class of [v] *)
Definition coerce (self : Base) (desired_type : option T.Base) : result Base :=
  match self with
  | Int value => Int_coerce self value desired_type
  | _ => Base_coerce self desired_type
  end.

(** [Base.expect] *)
Definition expect (self : Base) (desired_type : option T.Base) : result Base :=
  coerce self desired_type.

End Value.

(** ** Interpreter state

    The code of [WDL/Zip.py] reads [Document] objects, copies and updates
    Python lists, writes a log and works on the file system.  All of it is
    explicit state here. *)

(** JSON values as [json.load] returns them and [json.dump] takes them; an
    object is the list of its items, keys distinct. *)
Inductive json : Type :=
| JNull
| JBool (b : bool)
| JInt (i : Z)
| JFloat (literal : string)
| JString (s : string)
| JArray (items : list json)
| JObject (items : list (string * json)).

(** What a regular file holds.  Files are typed rather than byte strings:
    [json.dump] followed by [json.load] gives the value back, and an archive
    is the list of its members (the codec itself is the archive library's
    business). *)
Inductive content : Type :=
| Text (s : string)
| Json (v : json)
| Packed (format : string) (members : list (string * content)).

Inductive node : Type :=
| File (c : content)
| Dir.

(** Modelled from the spec: [WDL.Error.SourcePosition] is not among the
    sources.  Line numbers are one-based; only the fields [Zip.py] reads. *)
Module SourcePosition.
Record t : Type := mk {
  abspath : string;
  line : positive;
  end_line : positive
}.
End SourcePosition.

(** Modelled from the spec: [WDL.Tree.DocImport] is not among the sources.
    [doc] is a reference to the imported [Document] object. *)
Module DocImport.
Record t : Type := mk {
  pos : SourcePosition.t;
  uri : string;
  doc : nat
}.
End DocImport.

(** Modelled from the spec: [WDL.Tree.Document] is not among the sources.
    [source_lines] is a reference to a Python list of strings. *)
Module Document.
Record t : Type := mk {
  pos : SourcePosition.t;
  source_lines : nat;
  imports : list DocImport.t
}.
End Document.

Inductive level : Type := DEBUG | INFO | WARNING.

Record State : Type := mkState {
  docs : gmap nat Document.t;        (* the Document objects *)
  heap : gmap nat (list string);     (* the list objects *)
  fs : gmap string node;             (* keyed by normalised absolute path *)
  cwd : string;                      (* [os.getcwd()] *)
  tmp_names : list string;           (* names [tempfile] will hand out *)
  faults : list bool;                (* which of the next OS calls fail *)
  exit_stack : list string;          (* temporary directories to remove *)
  log : list (level * string)
}.

Definition set_heap (h : gmap nat (list string)) (st : State) : State :=
  mkState (docs st) h (fs st) (cwd st) (tmp_names st) (faults st)
          (exit_stack st) (log st).
Definition set_fs (f : gmap string node) (st : State) : State :=
  mkState (docs st) (heap st) f (cwd st) (tmp_names st) (faults st)
          (exit_stack st) (log st).
Definition set_tmp_names (l : list string) (st : State) : State :=
  mkState (docs st) (heap st) (fs st) (cwd st) l (faults st)
          (exit_stack st) (log st).
Definition set_faults (l : list bool) (st : State) : State :=
  mkState (docs st) (heap st) (fs st) (cwd st) (tmp_names st) l
          (exit_stack st) (log st).
Definition set_exit_stack (l : list string) (st : State) : State :=
  mkState (docs st) (heap st) (fs st) (cwd st) (tmp_names st) (faults st)
          l (log st).
Definition set_log (l : list (level * string)) (st : State) : State :=
  mkState (docs st) (heap st) (fs st) (cwd st) (tmp_names st) (faults st)
          (exit_stack st) l.

(** ** The state-and-exception monad *)

Definition M (A : Type) : Type := State -> result A * State.

Definition ret {A} (a : A) : M A := fun st => (Ok a, st).
Definition raise {A} (e : exn) : M A := fun st => (Raise e, st).
Definition out_of_fuel {A} : M A := fun st => (OutOfFuel, st).

Definition bind {A B} (m : M A) (k : A -> M B) : M B :=
  fun st =>
    match m st with
    | (Ok a, st') => k a st'
    | (Raise e, st') => (Raise e, st')
    | (OutOfFuel, st') => (OutOfFuel, st')
    end.

Declare Scope py_scope.
Delimit Scope py_scope with py.
Notation "x <- m ;; k" := (bind m (fun x => k))
  (at level 100, m at next level, right associativity) : py_scope.
Notation "m ;;; k" := (bind m (fun _ => k))
  (at level 100, right associativity) : py_scope.
Local Open Scope py_scope.

Definition get : M State := fun st => (Ok st, st).
Definition modify (f : State -> State) : M unit := fun st => (Ok tt, f st).

Definition lift {A} (r : result A) : M A := fun st => (r, st).

(** [assert b] *)
Definition assert (b : bool) : M unit :=
  if b then ret tt else raise AssertionError.

(** [try: m  except: handler] (a bare [except] catches every exception) *)
Definition try_except {A} (m : M A) (handler : exn -> M A) : M A :=
  fun st =>
    match m st with
    | (Raise e, st') => handler e st'
    | r => r
    end.

(** [for x in l: body x] *)
Fixpoint for_each {A} (l : list A) (body : A -> M unit) : M unit :=
  match l with
  | [] => ret tt
  | x :: l' => body x ;;; for_each l' body
  end.

(** a [for] loop that updates a local variable [acc] *)
Fixpoint for_fold {A B} (l : list A) (acc : B) (body : B -> A -> M B) : M B :=
  match l with
  | [] => ret acc
  | x :: l' => acc' <- body acc x ;; for_fold l' acc' body
  end.

(** [range(lo, hi)] *)
Definition range (lo hi : Z) : list Z :=
  List.map (fun k => lo + Z.of_nat k) (List.seq 0 (Z.to_nat (hi - lo))).

(** [logger.debug], [logger.info], [logger.warning] *)
Definition logger (lv : level) (msg : string) : M unit :=
  modify (fun st => set_log (log st ++ [(lv, msg)])%list st).

(** ** Python objects: dictionaries and lists *)

(** A [dict] with string keys, in insertion order. *)
Module Dict.
Definition t (V : Type) : Type := list (string * V).

Fixpoint get {V} (d : t V) (k : string) : option V :=
  match d with
  | [] => None
  | (k', v) :: d' => if String.eqb k' k then Some v else get d' k
  end.

(** [d[k] = v] *)
Fixpoint set {V} (d : t V) (k : string) (v : V) : t V :=
  match d with
  | [] => [(k, v)]
  | (k', v') :: d' =>
      if String.eqb k' k then (k', v) :: d' else (k', v') :: set d' k v
  end.

Definition keys {V} (d : t V) : list string := List.map fst d.
Definition values {V} (d : t V) : list V := List.map snd d.

(** [d[k]] *)
Definition getitem {V} (d : t V) (k : string) : M V :=
  match get d k with
  | Some v => ret v
  | None => raise (KeyError k)
  end.
End Dict.

(** [sorted(l)] on strings *)
Fixpoint insert_sorted (x : string) (l : list string) : list string :=
  match l with
  | [] => [x]
  | y :: l' => if String.leb x y then x :: l else y :: insert_sorted x l'
  end.

Definition sorted (l : list string) : list string :=
  List.fold_right insert_sorted [] l.

Definition list_string_eqb (a b : list string) : bool :=
  bool_decide (a = b).

(** the object a [Document] reference points to *)
Definition deref (r : nat) : M Document.t :=
  st <- get ;;
  match docs st !! r with
  | Some d => ret d
  | None => raise DanglingReference
  end.

(** the current value of a list object *)
Definition list_read (l : nat) : M (list string) :=
  st <- get ;;
  match heap st !! l with
  | Some v => ret v
  | None => raise DanglingReference
  end.

(** [l.copy()]: a new list object with the same items *)
Definition list_copy (l : nat) : M nat :=
  v <- list_read l ;;
  st <- get ;;
  let l' := fresh (dom (heap st)) in
  modify (set_heap (<[l' := v]> (heap st))) ;;;
  ret l'.

(** the position an index denotes, negative indices counting from the end *)
Definition index_of (n : nat) (i : Z) : option nat :=
  let i' := if i <? 0 then i + Z.of_nat n else i in
  if (0 <=? i') && (i' <? Z.of_nat n) then Some (Z.to_nat i') else None.

(** [l[i]] *)
Definition list_getitem (l : nat) (i : Z) : M string :=
  v <- list_read l ;;
  match index_of (length v) i with
  | Some k =>
      match v !! k with
      | Some x => ret x
      | None => raise IndexError
      end
  | None => raise IndexError
  end.

(** [l[i] = x] *)
Definition list_setitem (l : nat) (i : Z) (x : string) : M unit :=
  v <- list_read l ;;
  match index_of (length v) i with
  | Some k => modify (fun st => set_heap (<[l := <[k := x]> v]> (heap st)) st)
  | None => raise IndexError
  end.

(** ** The file system

    Paths are resolved lexically ([abspath]); there are no symbolic links.
    Every operation that can fail in the operating system first consults the
    fault schedule of the state, so that a failure can be placed at any
    call. *)

Definition fs_key (st : State) (p : string) : string :=
  PosixPath.abspath (cwd st) p.

(** [k] is [d] or lies below it *)
Definition under (d k : string) : bool :=
  String.eqb k d
  || PyStr.startswith k (if PyStr.endswith d "/" then d else d ++ "/").

Definition is_dir (f : gmap string node) (k : string) : bool :=
  String.eqb k "/"
  || match f !! k with Some Dir => true | _ => false end.

(** the regular file at a key, if any *)
Definition file_at (f : gmap string node) (k : string) : option content :=
  match f !! k with Some (File c) => Some c | _ => None end.

(** [os.path.isdir], [os.path.isfile] *)
Definition isdir (p : string) : M bool :=
  st <- get ;; ret (is_dir (fs st) (fs_key st p)).
Definition isfile (p : string) : M bool :=
  st <- get ;;
  ret (match file_at (fs st) (fs_key st p) with Some _ => true | None => false end).

(** the next entry of the fault schedule *)
Definition os_call (what : string) : M unit :=
  st <- get ;;
  match faults st with
  | true :: rest => modify (set_faults rest) ;;; raise (OSError what)
  | false :: rest => modify (set_faults rest)
  | [] => ret tt
  end.

(** the directories down to [k], outermost first *)
Definition ancestors (k : string) : list string :=
  let comps := List.filter PosixPath.nonempty (PyStr.split PyStr.slash k) in
  List.map (fun i => "/" ++ PyStr.join "/" (List.firstn i comps))
           (List.seq 1 (length comps)).

(** [os.makedirs(p, exist_ok=True)] *)
Definition makedirs (p : string) : M unit :=
  os_call "makedirs" ;;;
  if String.eqb p EmptyString then raise (OSError "makedirs")
  else
    st <- get ;;
    for_each (ancestors (fs_key st p)) (fun a =>
      st <- get ;;
      match fs st !! a with
      | Some Dir => ret tt
      | Some (File _) => raise (OSError "makedirs")
      | None => modify (set_fs (<[a := Dir]> (fs st)))
      end).

(** [open(p, "w")] and writing [c] *)
Definition write_file (p : string) (c : content) : M unit :=
  os_call "open" ;;;
  st <- get ;;
  let k := fs_key st p in
  if is_dir (fs st) k || negb (is_dir (fs st) (PosixPath.dirname k))
  then raise (OSError "open")
  else modify (set_fs (<[k := File c]> (fs st))).

(** [shutil.rmtree(d)]; removing a temporary directory does not fail *)
Definition rmtree (d : string) : M unit :=
  modify (fun st =>
    set_fs (filter (fun kv => under (fs_key st d) kv.1 = false) (fs st)) st).

(** [tempfile.TemporaryDirectory(prefix=...)]: a directory that did not
    exist, under the next name of the supply *)
Definition mkdtemp (prefix : string) : M string :=
  os_call "mkdtemp" ;;;
  st <- get ;;
  match tmp_names st with
  | [] => raise (OSError "mkdtemp")
  | d :: rest =>
      modify (set_tmp_names rest) ;;;
      match fs st !! fs_key st d with
      | Some _ => raise (OSError "mkdtemp")
      | None =>
          modify (fun st => set_fs (<[fs_key st d := Dir]> (fs st)) st) ;;;
          ret d
      end
  end.

(** [cleanup.enter_context(tempfile.TemporaryDirectory(prefix=...))] *)
Definition enter_temporary_directory (prefix : string) : M string :=
  d <- mkdtemp prefix ;;
  modify (fun st => set_exit_stack (d :: exit_stack st) st) ;;;
  ret d.

(** [with contextlib.ExitStack() as cleanup: body]: whatever the outcome of
    [body], the directories entered are removed, last one first. *)
Definition with_exit_stack {A} (body : M A) : M A :=
  fun st =>
    let outer := exit_stack st in
    match body (set_exit_stack [] st) with
    | (OutOfFuel, st') => (OutOfFuel, st')
    | (r, st') =>
        match for_each (exit_stack st') rmtree st' with
        | (_, st'') => (r, set_exit_stack outer st'')
        end
    end.

(** ** [WDL/Zip.py]: collecting, placing and rewriting the documents *)

Definition abspath_of (d : Document.t) : string :=
  SourcePosition.abspath (Document.pos d).

(** The branch of the loop of [build_zip_paths] that computes the path of
    one document inside the archive. *)
Definition zip_path (cwd main_dir abspath : string) : result string :=
  if PyStr.startswith abspath main_dir
  then PosixPath.relpath cwd abspath main_dir
  else
    let abspath2 := PyStr.replace abspath "://" "_" in
    let prefix :=
      PosixPath.commonprefix abspath2 (PyStr.replace main_dir "://" "_") in
    if PyStr.startswith abspath2 prefix && PyStr.endswith prefix "/"
    then Ok ("__outside_wdl/" ++ PyStr.drop (PyStr.len prefix) abspath2)
    else Raise AssertionError.

Definition outside_warning : string :=
  "One or more source files are imported from outside the top-level WDL's directory."
  ++ " The source archive will store them under __outside_wdl/"
  ++ " and WDL import statements will be rewritten to match.".

(** [build_zip_paths(main_dir, wdls, logger)] *)
Definition build_zip_paths (main_dir : string) (wdls : Dict.t nat)
  : M (Dict.t string) :=
  r <- for_fold (Dict.keys wdls) ([], false)
         (fun '(ans, outside_warn) abspath =>
            st <- get ;;
            p <- lift (zip_path (cwd st) main_dir abspath) ;;
            let ans := Dict.set ans abspath p in
            let outside_warn :=
              if PyStr.startswith abspath main_dir then outside_warn else true in
            logger INFO (p ++ " <= " ++ abspath) ;;;
            ret (ans, outside_warn)) ;;
  (if snd r then logger WARNING outside_warning else ret tt) ;;;
  ret (fst r).

(** the body of the inner loop of [rewrite_imports], for one line of the
    span of [imp]; [found] is the local variable of that name *)
Definition rewrite_line (doc : Document.t) (zip_paths : Dict.t string)
    (source_lines : nat) (imp : DocImport.t) (found : bool) (lineno : Z)
  : M bool :=
  line <- list_getitem source_lines lineno ;;
  let old_uri := DocImport.uri imp in
  imp_doc <- deref (DocImport.doc imp) ;;
  imp_path <- Dict.getitem zip_paths (abspath_of imp_doc) ;;
  doc_path <- Dict.getitem zip_paths (abspath_of doc) ;;
  st <- get ;;
  new_uri <- lift (PosixPath.relpath (cwd st) imp_path (PosixPath.dirname doc_path)) ;;
  let old_uri_pattern := PyStr.quoted old_uri in
  let found := found || PyStr.contains old_uri_pattern line in
  let line2 := PyStr.replace line old_uri_pattern (PyStr.quoted new_uri) in
  (if negb (String.eqb line line2)
   then logger DEBUG (abspath_of doc) ;;;
        logger DEBUG ("  " ++ line) ;;;
        logger DEBUG ("  => " ++ line2) ;;;
        list_setitem source_lines lineno line2
   else ret tt) ;;;
  ret found.

(** the body of the outer loop of [rewrite_imports], for one import *)
Definition rewrite_import (doc : Document.t) (zip_paths : Dict.t string)
    (source_lines : nat) (imp : DocImport.t) : M unit :=
  let lo := Z.pos (SourcePosition.line (DocImport.pos imp)) - 1 in
  let hi := Z.pos (SourcePosition.end_line (DocImport.pos imp)) in
  found <- for_fold (range lo hi) false
             (rewrite_line doc zip_paths source_lines imp) ;;
  assert found.

(** [rewrite_imports(doc, zip_paths, logger)] *)
Definition rewrite_imports (doc : Document.t) (zip_paths : Dict.t string)
  : M nat :=
  source_lines <- list_copy (Document.source_lines doc) ;;
  for_each (Document.imports doc)
           (rewrite_import doc zip_paths source_lines) ;;;
  ret source_lines.

(** The loop of [build_source_dir] that collects the documents:
    [[
      while queue:
          a_doc = queue.pop()
          for imported_doc in a_doc.imports:
              queue.append(imported_doc.doc)
          wdls[a_doc.pos.abspath] = a_doc
    ]]
    [fuel] bounds the number of iterations. *)
Fixpoint collect (fuel : nat) (queue : list nat) (wdls : Dict.t nat)
  : M (Dict.t nat) :=
  match queue with
  | [] => ret wdls
  | r :: _ =>
      match fuel with
      | O => out_of_fuel
      | S fuel' =>
          let a_doc := List.last queue r in
          let queue := removelast queue in
          d <- deref a_doc ;;
          let queue := (queue ++ List.map DocImport.doc (Document.imports d))%list in
          collect fuel' queue (Dict.set wdls (abspath_of d) a_doc)
      end
  end.

(** the directory of the main document:
    [os.path.dirname(top_doc.pos.abspath).rstrip("/") + "/"] *)
Definition main_dir_of (top : Document.t) : string :=
  PyStr.rstrip PyStr.slash (PosixPath.dirname (abspath_of top)) ++ "/".

Definition newline : string := String "010"%char EmptyString.

(** what [print(line, file=outfile)] for every line leaves in the file *)
Definition printed (lines : list string) : content :=
  Text (String.concat EmptyString (List.map (fun l => l ++ newline) lines)).

(** [build_source_dir(cleanup, top_doc, logger)]; the exit stack is the one
    of the state *)
Definition build_source_dir (fuel : nat) (top_doc : nat) : M string :=
  top <- deref top_doc ;;
  let main_dir := main_dir_of top in
  wdls <- collect fuel [top_doc] [] ;;
  zip_paths <- build_zip_paths main_dir wdls ;;
  assert (list_string_eqb (sorted (Dict.keys zip_paths)) (sorted (Dict.keys wdls))) ;;;
  top_path <- Dict.getitem zip_paths (abspath_of top) ;;
  assert (String.eqb top_path (PosixPath.basename (abspath_of top))) ;;;
  zip_dir <- enter_temporary_directory "miniwdl_zip_" ;;
  for_each wdls (fun '(abspath, a_doc) =>
    a_doc <- deref a_doc ;;
    source_lines <- rewrite_imports a_doc zip_paths ;;
    p <- Dict.getitem zip_paths abspath ;;
    let fn := PosixPath.join zip_dir p in
    makedirs (PosixPath.dirname fn) ;;;
    lines <- list_read source_lines ;;
    write_file fn (printed lines)) ;;;
  ret zip_dir.

(** ** [WDL/Zip.py]: the archive and the manifest *)

(** [json.dumps(v)] with the default separators; of the string escapes only
    those of the double quote and the backslash are modelled. *)
Fixpoint escape (s : string) : string :=
  match s with
  | EmptyString => EmptyString
  | String c s' =>
      if Ascii.eqb c PyStr.dquote || Ascii.eqb c "\"%char
      then String "\"%char (String c (escape s'))
      else String c (escape s')
  end.

Fixpoint json_dumps (v : json) : string :=
  match v with
  | JNull => "null"
  | JBool true => "true"
  | JBool false => "false"
  | JInt i => pretty i
  | JFloat literal => literal
  | JString s => PyStr.quoted (escape s)
  | JArray items =>
      "[" ++ PyStr.join ", " (List.map json_dumps items) ++ "]"
  | JObject items =>
      "{" ++ PyStr.join ", "
               (List.map (fun kv => PyStr.quoted (escape (fst kv)) ++ ": "
                                    ++ json_dumps (snd kv)) items)
          ++ "}"
  end.

(** the file name extension [shutil.make_archive] adds for a format *)
Definition archive_extension (format : string) : option string :=
  if String.eqb format "zip" then Some ".zip"
  else if String.eqb format "tar" then Some ".tar"
  else if String.eqb format "gztar" then Some ".tar.gz"
  else if String.eqb format "bztar" then Some ".tar.bz2"
  else if String.eqb format "xztar" then Some ".tar.xz"
  else None.

(** the regular files below [root], named relative to it *)
Definition members_of (f : gmap string node) (root : string)
  : list (string * content) :=
  let prefix := if PyStr.endswith root "/" then root else root ++ "/" in
  omap (fun kv =>
          match snd kv with
          | File c =>
              if PyStr.startswith (fst kv) prefix
              then Some (PyStr.drop (PyStr.len prefix) (fst kv), c)
              else None
          | Dir => None
          end)
       (map_to_list f).

(** [shutil.make_archive(base_name, format, root_dir=root_dir)] *)
Definition make_archive (base_name format root_dir : string) : M string :=
  match archive_extension format with
  | None => raise (ValueError "unknown archive format")
  | Some ext =>
      os_call "make_archive" ;;;
      st <- get ;;
      let root := fs_key st root_dir in
      if negb (is_dir (fs st) root) then raise (OSError "make_archive")
      else
        let out := base_name ++ ext in
        write_file out (Packed format (members_of (fs st) root)) ;;;
        ret out
  end.

(** [os.rename(src, dst)] of a regular file: it replaces a regular file at
    [dst] and either happens entirely or not at all *)
Definition rename (src dst : string) : M unit :=
  os_call "rename" ;;;
  st <- get ;;
  let ks := fs_key st src in
  let kd := fs_key st dst in
  match fs st !! ks with
  | Some (File c) =>
      if is_dir (fs st) kd || negb (is_dir (fs st) (PosixPath.dirname kd))
      then raise (OSError "rename")
      else modify (set_fs (<[kd := File c]> (delete ks (fs st))))
  | _ => raise (OSError "rename")
  end.

(** [shutil.unpack_archive(filename, extract_dir)] *)
Definition unpack_archive (filename extract_dir : string) : M unit :=
  os_call "unpack_archive" ;;;
  st <- get ;;
  match fs st !! fs_key st filename with
  | Some (File (Packed _ members)) =>
      for_each members (fun m =>
        let fn := PosixPath.join extract_dir (fst m) in
        makedirs (PosixPath.dirname fn) ;;;
        write_file fn (snd m))
  | Some (File _) => raise (ValueError "not an archive")
  | _ => raise (OSError "unpack_archive")
  end.

(** [with open(p) as infile: json.load(infile)] *)
Definition json_load (p : string) : M json :=
  os_call "open" ;;;
  st <- get ;;
  match fs st !! fs_key st p with
  | Some (File (Json v)) => ret v
  | Some (File _) => raise (ValueError "not JSON")
  | _ => raise (OSError "open")
  end.

(** Modelled from the spec: [_util.path_really_within] is not among the
    sources.  After resolving both paths, [lhs] is [rhs] or nested within
    it. *)
Definition path_really_within (lhs rhs : string) : M bool :=
  st <- get ;; ret (under (fs_key st rhs) (fs_key st lhs)).

(** [build(top_doc, archive, logger, inputs, meta, archive_format)] *)
Definition build (fuel : nat) (top_doc : nat) (archive : string)
    (inputs meta : option (list (string * json))) (archive_format : string)
  : M unit :=
  with_exit_stack (
    dir_to_zip <- build_source_dir fuel top_doc ;;
    top <- deref top_doc ;;
    let manifest :=
      [("mainWorkflowURL", JString (PosixPath.basename (abspath_of top)))] in
    let manifest :=
      match meta with
      | Some (m :: ms) => Dict.set manifest "meta" (JObject (m :: ms))
      | _ => manifest
      end in
    manifest <-
      match inputs with
      | Some (i :: rest) =>
          let manifest :=
            Dict.set manifest "inputFileURLs" (JArray [JString "default_input.json"]) in
          write_file (PosixPath.join dir_to_zip "default_input.json")
                     (Json (JObject (i :: rest))) ;;;
          ret manifest
      | _ => ret manifest
      end ;;
    write_file (PosixPath.join dir_to_zip "MANIFEST.json") (Json (JObject manifest)) ;;;
    logger DEBUG ("manifest = " ++ json_dumps (JObject manifest)) ;;;
    tmp_zip <- enter_temporary_directory "miniwdl_zip_" ;;
    logger INFO ("archiving " ++ dir_to_zip) ;;;
    tmp_zip <- make_archive
                 (PosixPath.join tmp_zip (PosixPath.basename (abspath_of top)))
                 archive_format dir_to_zip ;;
    logger INFO (archive ++ " <= " ++ tmp_zip) ;;;
    (if PyStr.contains "/" archive
     then makedirs (PosixPath.dirname archive)
     else ret tt) ;;;
    rename tmp_zip archive).

(** [UnpackedZip] *)
Record UnpackedZip : Type := mkUnpackedZip {
  dir : string;
  main_wdl : string;
  input_file : option string
}.

(** [manifest.get(key, None)] on what [json.load] returned *)
Definition manifest_get (manifest : json) (key : string) : option json :=
  match manifest with
  | JObject items => Dict.get items key
  | _ => None
  end.

Definition is_dict (v : json) : bool :=
  match v with JObject _ => true | _ => false end.

(** lines 189-199 of [unpack]: where the manifest is, after extracting the
    archive if there is one; the result is the pair of the (possibly
    updated) [archive_fn] and [manifest_fn] *)
Definition locate_manifest (archive_fn : string) : M (string * string) :=
  is_directory <- isdir archive_fn ;;
  let archive_fn :=
    if is_directory then PosixPath.join archive_fn "MANIFEST.json"
    else archive_fn in
  if String.eqb (PosixPath.basename archive_fn) "MANIFEST.json"
  then ret (archive_fn, archive_fn)
  else
    dn <- enter_temporary_directory "miniwdl_run_zip_" ;;
    try_except (unpack_archive archive_fn dn)
               (fun _ => raise (InputError ("Unreadable source archive " ++ archive_fn))) ;;;
    ret (archive_fn, PosixPath.join dn "MANIFEST.json").

(** lines 201-208 of [unpack] *)
Definition load_manifest (archive_fn manifest_fn : string) : M json :=
  try_except
    (manifest <- json_load manifest_fn ;;
     assert (is_dict manifest
             && match manifest_get manifest "mainWorkflowURL" with
                | Some (JString _) => true
                | _ => false
                end) ;;;
     ret manifest)
    (fun _ => raise (InputError ("Missing or invalid MANIFEST.json in " ++ archive_fn))).

(** lines 213-219 of [unpack]: the local variable [input_file] *)
Definition manifest_input_file (manifest : json) : option string :=
  match manifest_get manifest "inputFileURLs" with
  | Some (JArray (JString s :: _)) => Some s
  | _ => None
  end.

(** lines 210-232 of [unpack]: from the manifest to the handle *)
Definition check_manifest (archive_fn manifest_fn : string) (manifest : json)
  : M UnpackedZip :=
  st <- get ;;
  let dn := PosixPath.abspath (cwd st) (PosixPath.dirname manifest_fn) in
  main_wdl <- match manifest_get manifest "mainWorkflowURL" with
              | Some (JString s) => ret s
              | Some _ => raise (TypeError "mainWorkflowURL")
              | None => raise (KeyError "mainWorkflowURL")
              end ;;
  let input_file := manifest_input_file manifest in
  let main_wdl_abs := PosixPath.join dn main_wdl in
  let input_file_abs :=
    match input_file with
    | Some (String c s) => Some (PosixPath.join dn (String c s))
    | _ => None
    end in
  main_is_file <- isfile main_wdl_abs ;;
  main_within <- path_really_within main_wdl_abs dn ;;
  input_bad <-
    match input_file_abs with
    | Some p =>
        input_is_file <- isfile p ;;
        input_within <- path_really_within p dn ;;
        ret (negb (input_is_file && input_within))
    | None => ret false
    end ;;
  if negb (main_is_file && main_within) || input_bad
  then raise (InputError ("MANIFEST.json refers to missing or invalid files in "
                          ++ archive_fn))
  else ret (mkUnpackedZip dn main_wdl_abs input_file_abs).

(** the body of [unpack] up to its [yield] *)
Definition unpack_enter (archive_fn : string) : M UnpackedZip :=
  fns <- locate_manifest archive_fn ;;
  manifest <- load_manifest (fst fns) (snd fns) ;;
  check_manifest (fst fns) (snd fns) manifest.

(** [with unpack(archive_fn) as unpacked: body unpacked] *)
Definition unpack {A} (archive_fn : string) (body : UnpackedZip -> M A) : M A :=
  with_exit_stack (unpacked <- unpack_enter archive_fn ;; body unpacked).

(** ** Import graphs *)

(** [r'] is reached from [r] along import edges *)
Inductive reachable (st : State) : nat -> nat -> Prop :=
| reach_refl (r : nat) : reachable st r r
| reach_step (r : nat) (d : Document.t) (imp : DocImport.t) (r' : nat) :
    docs st !! r = Some d ->
    In imp (Document.imports d) ->
    reachable st (DocImport.doc imp) r' ->
    reachable st r r'.

(** Every import leads to a document of the heap of strictly lower rank:
    the import graph has no cycle and no dangling reference. *)
Definition acyclic (rank : nat -> nat) (st : State) : bool :=
  forallb
    (fun rd =>
       forallb
         (fun imp =>
            (rank (DocImport.doc imp) <? rank (fst rd))%nat
            && bool_decide (is_Some (docs st !! DocImport.doc imp)))
         (Document.imports (snd rd)))
    (map_to_list (docs st)).

(** the paths of the documents reached from one of [l] *)
Definition reached_paths (st : State) (l : list nat) (p : string) : Prop :=
  exists r r' d,
    In r l /\ reachable st r r' /\ docs st !! r' = Some d /\ abspath_of d = p.

(** *** Example states *)

Definition source_position (p : string) (l e : positive) : SourcePosition.t :=
  SourcePosition.mk p l e.

Definition state_of (ds : list (nat * Document.t)) (ls : list (nat * list string))
    (files : list (string * node)) (tmp : list string) (fl : list bool) : State :=
  mkState (list_to_map ds) (list_to_map ls) (list_to_map files) "/w" tmp fl [] [].

(** [main.wdl] imports [lib.wdl], which imports [main.wdl] again. *)
Definition cyclic_state : State :=
  state_of
    [(0%nat, Document.mk (source_position "/m/main.wdl" 1 1) 10
               [DocImport.mk (source_position "/m/main.wdl" 1 1) "lib.wdl" 1]);
     (1%nat, Document.mk (source_position "/m/lib.wdl" 1 1) 11
               [DocImport.mk (source_position "/m/lib.wdl" 1 1) "main.wdl" 0])]
    [(10%nat, ["import " ++ PyStr.quoted "lib.wdl"]);
     (11%nat, ["import " ++ PyStr.quoted "main.wdl"])]
    [] [] [].

(** [main.wdl] imports [left.wdl] and [right.wdl]; both import
    [common.wdl]. *)
Definition diamond_main : Document.t :=
  Document.mk (source_position "/m/main.wdl" 1 2) 10
    [DocImport.mk (source_position "/m/main.wdl" 1 1) "left.wdl" 1;
     DocImport.mk (source_position "/m/main.wdl" 2 2) "right.wdl" 2].

Definition diamond_zip_paths : Dict.t string :=
  [("/m/main.wdl", "main.wdl"); ("/m/right.wdl", "right.wdl");
   ("/m/common.wdl", "common.wdl"); ("/m/left.wdl", "left.wdl")].

Definition diamond_state : State :=
  state_of
    [(0%nat, diamond_main);
     (1%nat, Document.mk (source_position "/m/left.wdl" 1 1) 11
               [DocImport.mk (source_position "/m/left.wdl" 1 1) "common.wdl" 3]);
     (2%nat, Document.mk (source_position "/m/right.wdl" 1 1) 12
               [DocImport.mk (source_position "/m/right.wdl" 1 1) "common.wdl" 3]);
     (3%nat, Document.mk (source_position "/m/common.wdl" 1 1) 13 [])]
    [(10%nat, ["import " ++ PyStr.quoted "left.wdl";
               "import " ++ PyStr.quoted "right.wdl"]);
     (11%nat, ["import " ++ PyStr.quoted "common.wdl"]);
     (12%nat, ["import " ++ PyStr.quoted "common.wdl"]);
     (13%nat, ["task t"])]
    [("/tmp", Dir); ("/w", Dir)] ["/tmp/miniwdl_zip_1"; "/tmp/miniwdl_zip_2"] [].

(** ** Specifications of computations *)

(** every run of [m] relates the state before to the state after *)
Definition preserves {A} (R : State -> State -> Prop) (m : M A) : Prop :=
  forall st r st', m st = (r, st') -> R st st'.

(** [m] always comes to an outcome *)
Definition finishes {A} (m : M A) : Prop :=
  forall st, fst (m st) <> OutOfFuel.

(** line [k + 1] lies within the position of the import *)
Definition in_span (imp : DocImport.t) (k : nat) : Prop :=
  Z.pos (SourcePosition.line (DocImport.pos imp)) - 1 <= Z.of_nat k
  < Z.pos (SourcePosition.end_line (DocImport.pos imp)).

(** Between two states nothing changed but the log and the items of the
    list [sl] at the positions in [P]. *)
Definition lines_frame (sl : nat) (P : nat -> Prop) (st st' : State) : Prop :=
  docs st' = docs st /\ cwd st' = cwd st /\ fs st' = fs st
  /\ tmp_names st' = tmp_names st /\ faults st' = faults st
  /\ exit_stack st' = exit_stack st
  /\ (forall l, l <> sl -> heap st' !! l = heap st !! l)
  /\ (forall v, heap st !! sl = Some v ->
        exists v', heap st' !! sl = Some v' /\ length v' = length v
                   /\ forall k, ~ P k -> v' !! k = v !! k).

(** [main.wdl] has the single line [import "./b.wdl"] and two import
    edges recorded on that line: the real one, and a stale one whose URI
    [b.wdl] is not in the text. *)
Definition stale_import : DocImport.t :=
  DocImport.mk (source_position "/m/main.wdl" 1 1) "b.wdl" 1.

Definition stale_doc : Document.t :=
  Document.mk (source_position "/m/main.wdl" 1 1) 10
    [DocImport.mk (source_position "/m/main.wdl" 1 1) "./b.wdl" 1;
     stale_import].

Definition stale_state : State :=
  state_of
    [(0%nat, stale_doc);
     (1%nat, Document.mk (source_position "/m/b.wdl" 1 1) 11 [])]
    [(10%nat, ["import " ++ PyStr.quoted "./b.wdl"]); (11%nat, ["task b"])]
    [] [] [].

Definition stale_zip_paths : Dict.t string :=
  [("/m/main.wdl", "main.wdl"); ("/m/b.wdl", "b.wdl")].

(** the edge of [stale_doc] that does not match, alone *)
Definition unmatched_doc : Document.t :=
  Document.mk (source_position "/m/main.wdl" 1 1) 10 [stale_import].

(** the safety check of [unpack] on one resolved path: a regular file, within
    the directory of the manifest *)
Definition acceptable (st : State) (dn p : string) : bool :=
  match file_at (fs st) (fs_key st p) with Some _ => true | None => false end
  && under (fs_key st dn) (fs_key st p).

(** *** Example manifests *)

Definition manifest_state (manifest : json) : State :=
  state_of [] []
    [("/srv", Dir); ("/srv/wf", Dir);
     ("/srv/wf/MANIFEST.json", File (Json manifest));
     ("/srv/wf/main.wdl", File (Text "workflow w {}"));
     ("/etc", Dir); ("/etc/passwd", File (Text "root:x:0:0"))]
    [] [].

Definition minimal_manifest : json :=
  JObject [("mainWorkflowURL", JString "main.wdl")].

Definition traversal_manifest : json :=
  JObject [("mainWorkflowURL", JString "../../etc/passwd")].

Definition empty_input_manifest : json :=
  JObject [("mainWorkflowURL", JString "main.wdl");
           ("inputFileURLs", JArray [JString EmptyString])].

(** ** Paths inside the staging directories *)

(** a relative path none of whose components is [..] *)
Definition safe_relative (p : string) : bool :=
  negb (PyStr.startswith p "/")
  && forallb (fun c => negb (String.eqb c "..")) (PyStr.split PyStr.slash p).

(** the components [normpath] keeps *)
Definition kept (c : string) : bool :=
  negb (String.eqb c EmptyString || String.eqb c PosixPath.curdir).

(** [d] is the name of a directory as [tempfile] makes them, absolute and
    normalised, and the key [k] does not lie below it *)
Definition clean_tmp (k d : string) : bool :=
  String.eqb (PosixPath.normpath d) d
  && PyStr.startswith d "/"
  && negb (PyStr.endswith d "/")
  && negb (under d k).

(** ** Specifications with pre- and postconditions *)

(** Run from a state satisfying [P], [m] ends in a state satisfying [Q a] when
    it returns [a], and in one satisfying [E] when it raises or is still
    running. *)
Definition triple {A} (P : State -> Prop) (m : M A)
    (Q : A -> State -> Prop) (E : State -> Prop) : Prop :=
  forall st r st',
    P st -> m st = (r, st') ->
    match r with
    | Ok a => Q a st'
    | _ => E st'
    end.

(** nothing changed but the heap of lists, the log and the fault schedule *)
Definition same_world (st st' : State) : Prop :=
  docs st' = docs st /\ cwd st' = cwd st /\ fs st' = fs st
  /\ tmp_names st' = tmp_names st /\ exit_stack st' = exit_stack st.

(** the regular files are the same, and so is everything else but the
    heap of lists, the log, the fault schedule and the directories *)
Definition same_files (st st' : State) : Prop :=
  docs st' = docs st /\ cwd st' = cwd st
  /\ tmp_names st' = tmp_names st /\ exit_stack st' = exit_stack st
  /\ forall key, file_at (fs st') key = file_at (fs st) key.

(** The invariant of [build] up to the final rename: what is at the
    destination key [k] is what was there at the start, [o0], and the
    temporary directories, those entered and those to come, are clean. *)
Definition build_invariant (cwd0 : string) (docs0 : gmap nat Document.t)
    (k : string) (o0 : option content) (st : State) : Prop :=
  cwd st = cwd0 /\ docs st = docs0 /\ file_at (fs st) k = o0
  /\ List.Forall (fun d => clean_tmp k d = true) (tmp_names st)
  /\ List.Forall (fun d => clean_tmp k d = true) (exit_stack st).

(** after the rename: the archive is at the destination *)
Definition build_published (cwd0 : string) (k : string) (format : string)
    (st : State) : Prop :=
  cwd st = cwd0
  /\ (exists members, file_at (fs st) k = Some (Packed format members))
  /\ List.Forall (fun d => clean_tmp k d = true) (exit_stack st).

(** [p] is the path of a document of the heap *)
Definition from_heap (ds : gmap nat Document.t) (p : string) : Prop :=
  exists r d, ds !! r = Some d /\ abspath_of d = p.

(** every entry of [zip_paths] is the archive path of a key of [wdls] *)
Definition entries_of {V} (cwd0 main_dir : string) (wdls : Dict.t V)
    (zip_paths : Dict.t string) : Prop :=
  forall key p,
    Dict.get zip_paths key = Some p ->
    In key (Dict.keys wdls) /\ zip_path cwd0 main_dir key = Ok p.

(** between [make_archive] and the rename: the invariant, and the archive
    is in the temporary file [out] *)
Definition build_archived (cwd0 : string) (docs0 : gmap nat Document.t)
    (k : string) (o0 : option content) (format out : string) (st : State) : Prop :=
  build_invariant cwd0 docs0 k o0 st
  /\ exists members,
       file_at (fs st) (PosixPath.abspath cwd0 out) = Some (Packed format members).

(** The archive path of every document of the heap is a safe relative path:
    what is staged stays below the staging directory. *)
Definition staging_safe (top_doc : nat) (st : State) : bool :=
  match docs st !! top_doc with
  | None => true
  | Some top =>
      forallb
        (fun rd =>
           match zip_path (cwd st) (main_dir_of top) (abspath_of (snd rd)) with
           | Ok p => safe_relative p
           | _ => true
           end)
        (map_to_list (docs st))
  end.

(** The names [tempfile] will hand out are clean with respect to the
    destination [archive]. *)
Definition tmp_names_clean (archive : string) (st : State) : bool :=
  forallb (clean_tmp (fs_key st archive)) (tmp_names st).

(** [diamond_state] with something at the destination already, and a fault
    schedule that makes the twelfth call to the operating system fail: the
    call of [make_archive], after staging and before the rename. *)
Definition overwrite_state : State :=
  mkState (docs diamond_state) (heap diamond_state)
          (<["/w/out.zip" := File (Text "an earlier archive")]> (fs diamond_state))
          (cwd diamond_state) (tmp_names diamond_state)
          (List.repeat false 11 ++ [true])%list [] [].

(** [/a/b/main.wdl] imports [/x.wdl] and [/a/x.wdl], both outside its
    directory. *)
Definition collision_state : State :=
  state_of
    [(0%nat, Document.mk (source_position "/a/b/main.wdl" 1 2) 10
               [DocImport.mk (source_position "/a/b/main.wdl" 1 1) "../../x.wdl" 1;
                DocImport.mk (source_position "/a/b/main.wdl" 2 2) "../x.wdl" 2]);
     (1%nat, Document.mk (source_position "/x.wdl" 1 1) 11 []);
     (2%nat, Document.mk (source_position "/a/x.wdl" 1 1) 12 [])]
    [(10%nat, ["import " ++ PyStr.quoted "../../x.wdl" ++ " as far";
               "import " ++ PyStr.quoted "../x.wdl" ++ " as near"]);
     (11%nat, ["task far"]);
     (12%nat, ["task near"])]
    [("/tmp", Dir); ("/w", Dir)] ["/tmp/miniwdl_zip_1"; "/tmp/miniwdl_zip_2"] [].

(** [/a/bc/main.wdl] imports [/a/bd/x.wdl], from a sibling directory whose
    name begins like that of its own. *)
Definition sibling_state : State :=
  state_of
    [(0%nat, Document.mk (source_position "/a/bc/main.wdl" 1 1) 10
               [DocImport.mk (source_position "/a/bc/main.wdl" 1 1) "../bd/x.wdl" 1]);
     (1%nat, Document.mk (source_position "/a/bd/x.wdl" 1 1) 11 [])]
    [(10%nat, ["import " ++ PyStr.quoted "../bd/x.wdl"]); (11%nat, ["task x"])]
    [("/tmp", Dir); ("/w", Dir)] ["/tmp/miniwdl_zip_1"; "/tmp/miniwdl_zip_2"] [].

(** A document whose path is not normalised, [/m/../x/out.zip]: its archive
    path is [../x/out.zip], which leaves the staging directory.  The fault
    schedule makes [make_archive] fail. *)
Definition escape_state : State :=
  state_of
    [(0%nat, Document.mk (source_position "/m/main.wdl" 1 1) 10
               [DocImport.mk (source_position "/m/main.wdl" 1 1) "../x/out.zip" 1]);
     (1%nat, Document.mk (source_position "/m/../x/out.zip" 1 1) 11 [])]
    [(10%nat, ["import " ++ PyStr.quoted "../x/out.zip"]); (11%nat, ["task x"])]
    [("/tmp", Dir); ("/w", Dir)] ["/tmp/miniwdl_zip_1"; "/tmp/miniwdl_zip_2"]
    (List.repeat false 7 ++ [true])%list.

(** ** Vocabulary of the further properties *)

(** the entry [p -> r] of the collected dictionary is sound: [r] is a
    document reached from [top], and [p] is its path *)
Definition collected (st : State) (top : nat) (p : string) (r : nat) : Prop :=
  exists d, docs st !! r = Some d /\ abspath_of d = p /\ reachable st top r.

(** the line [build_zip_paths] logs for a document and its archive path *)
Definition info_line (kp : string * string) : level * string :=
  (INFO, snd kp ++ " <= " ++ fst kp).

(** the document lies outside the main directory *)
Definition outside (main_dir abspath : string) : bool :=
  negb (PyStr.startswith abspath main_dir).

(** the dictionary after [d[k] = v] for the pairs of [kvs], in order *)
Definition set_all {V} (d : Dict.t V) (kvs : list (string * V)) : Dict.t V :=
  List.fold_left (fun a kv => Dict.set a (fst kv) (snd kv)) kvs d.

(** the working directory and the exit stack are the same *)
Definition same_stack (st st' : State) : Prop :=
  cwd st' = cwd st /\ exit_stack st' = exit_stack st.

(** a state with an archive at [/srv/a.zip], a text file at [/srv/notes.txt]
    and one name for a temporary directory *)
Definition archive_state : State :=
  state_of [] []
    [("/srv", Dir); ("/tmp", Dir);
     ("/srv/notes.txt", File (Text "not an archive"));
     ("/srv/a.zip",
      File (Packed "zip"
              [("MANIFEST.json", Json minimal_manifest);
               ("main.wdl", Text "workflow w {}")]))]
    ["/tmp/miniwdl_run_zip_1"] [].

(** what [rewrite_imports] needs of an import of [doc] to get past it: its
    position lies within the [n] lines of the document and is not empty, and
    both documents have an archive path *)
Definition rewritable (ds : gmap nat Document.t) (zip_paths : Dict.t string)
    (doc : Document.t) (n : nat) (imp : DocImport.t) : Prop :=
  Z.pos (SourcePosition.line (DocImport.pos imp))
    <= Z.pos (SourcePosition.end_line (DocImport.pos imp))
    <= Z.of_nat n
  /\ (exists d, ds !! DocImport.doc imp = Some d
                /\ is_Some (Dict.get zip_paths (abspath_of d)))
  /\ is_Some (Dict.get zip_paths (abspath_of doc)).

(** the working copy [sl] has [n] lines, and the documents are [ds] *)
Definition working_copy (ds : gmap nat Document.t) (sl : nat) (n : nat)
    (st : State) : Prop :=
  docs st = ds /\ exists v, heap st !! sl = Some v /\ length v = n.

(** line [k + 1] of the list object [sl] is [x] *)
Definition line_is (sl : nat) (k : nat) (x : string) (st : State) : Prop :=
  exists v, heap st !! sl = Some v /\ v !! k = Some x.

(** [/m/sub/main.wdl] imports [/m/lib/util.wdl], outside its directory, on
    its second line *)
Definition rewritten_state : State :=
  state_of
    [(0%nat, Document.mk (source_position "/m/sub/main.wdl" 1 2) 10
               [DocImport.mk (source_position "/m/sub/main.wdl" 2 2)
                             "../lib/util.wdl" 1]);
     (1%nat, Document.mk (source_position "/m/lib/util.wdl" 1 1) 11 [])]
    [(10%nat, ["version 1.0";
               "import " ++ PyStr.quoted "../lib/util.wdl" ++ " as u"]);
     (11%nat, ["task t"])]
    [] [] [].

(** the regular files are the same, and so is the working directory *)
Definition keeps_files (st st' : State) : Prop :=
  cwd st' = cwd st /\ forall key, file_at (fs st') key = file_at (fs st) key.

(** with the working directory [cwd0], the regular file at [key] holds [c] *)
Definition holds (cwd0 key : string) (c : content) (st : State) : Prop :=
  cwd st = cwd0 /\ file_at (fs st) key = Some c.

(** at [key] there is an archive of the given format whose members
    satisfy [good] *)
Definition archived_with (good : list (string * content) -> Prop)
    (key format : string) (st : State) : Prop :=
  exists members,
    file_at (fs st) key = Some (Packed format members) /\ good members.

(** what [build] puts into the archive besides the documents: the manifest,
    and the default inputs when there are any *)
Definition manifest_members (inputs : option (list (string * json)))
    (manifest : list (string * json)) (members : list (string * content)) : Prop :=
  In ("MANIFEST.json", Json (JObject manifest)) members
  /\ match inputs with
     | Some (i :: rest) =>
         In ("default_input.json", Json (JObject (i :: rest))) members
     | _ => True
     end.

(** what the manifest of [build] says: the name of the main document, the
    metadata when there are any, and the name of the default inputs when
    there are any *)
Definition manifest_for (top : Document.t)
    (inputs meta : option (list (string * json)))
    (manifest : list (string * json)) : Prop :=
  Dict.get manifest "mainWorkflowURL"
  = Some (JString (PosixPath.basename (abspath_of top)))
  /\ Dict.get manifest "meta"
     = match meta with
       | Some (m :: ms) => Some (JObject (m :: ms))
       | _ => None
       end
  /\ Dict.get manifest "inputFileURLs"
     = match inputs with
       | Some (_ :: _) => Some (JArray [JString "default_input.json"])
       | _ => None
       end.

(** * Properties of [WDL/Value.py] *)

Lemma T_eqb_refl (t : T.Base) : T.eqb t t = true.
Proof. induction t; simpl; auto. Qed.

Lemma T_eqb_eq (a b : T.Base) : T.eqb a b = true <-> a = b.
Proof.
  split.
  - revert b. induction a; destruct b; simpl; intros H; try discriminate; auto.
    f_equal. auto.
  - intros ->. apply T_eqb_refl.
Qed.

Lemma Base_coerce_same (v : Value.Base) :
  Value.Base_coerce v (Some (Value.type v)) = Ok v.
Proof. unfold Value.Base_coerce. now rewrite T_eqb_refl. Qed.

(** C9 (as amended): for every [Int] value whose integer converts to a finite
    float, coercion to [Float] returns the [Float] value holding that
    conversion; the [Int] value itself still holds the integer. *)
Theorem Int_coerce_to_Float (i : Z) (f : Value.float64) :
  Value.py_float i = Ok f ->
  Value.coerce (Value.Int i) (Some T.Float) = Ok (Value.Float f)
  /\ Value.type (Value.Float f) = T.Float
  /\ Value.type (Value.Int i) = T.Int.
Proof.
  intros Hf. simpl. unfold Value.Int_coerce. simpl. rewrite Hf. auto.
Qed.

Lemma Int_coerce_to_Float_witness :
  Value.py_float 3 = Ok (S754_finite false 6755399441055744 (-51))
  /\ Value.coerce (Value.Int 3) (Some T.Float)
     = Ok (Value.Float (S754_finite false 6755399441055744 (-51))).
Proof.
  split; [reflexivity|].
  apply (Int_coerce_to_Float 3 (S754_finite false 6755399441055744 (-51))).
  reflexivity.
Defined.

(** C9 fails as stated: [Int(2**1024).coerce(T.Float())] raises
    [OverflowError] instead of returning a [Float]. *)
Lemma Int_coerce_to_Float_overflow :
  Value.coerce (Value.Int (2 ^ 1024)) (Some T.Float)
  = Raise (OverflowError "int too large to convert to float").
Proof. vm_compute. reflexivity. Qed.

(** C10: coercion with no desired type, or with the value's own type, returns
    the value itself, for every class of value. *)
Theorem coerce_identity (v : Value.Base) :
  Value.coerce v None = Ok v
  /\ Value.coerce v (Some (Value.type v)) = Ok v.
Proof.
  split.
  - destruct v; reflexivity.
  - destruct v; simpl; unfold Value.Int_coerce; simpl;
      apply Base_coerce_same.
Qed.


(** * Properties of [build_zip_paths] *)

(** C3: the assertion of the quarantine branch fails.  The main document is
    in [/a/bc/] and imports [/a/bd/x.wdl]: the common prefix of the two
    texts is [/a/b], which does not end at a separator. *)
Theorem build_zip_paths_assertion_fails (st : State) :
  PosixPath.commonprefix "/a/bd/x.wdl" "/a/bc/" = "/a/b"
  /\ fst (build_zip_paths "/a/bc/"
            [("/a/bc/main.wdl", 0%nat); ("/a/bd/x.wdl", 1%nat)] st)
     = Raise AssertionError.
Proof. split; vm_compute; reflexivity. Qed.

(** C1: two distinct documents outside the main directory [/a/b/] get the
    same path in the archive, because each is cut at its own common prefix
    with the main directory. *)
Theorem build_zip_paths_collision (st : State) :
  exists zip_paths,
    fst (build_zip_paths "/a/b/"
           [("/a/b/main.wdl", 0%nat); ("/x.wdl", 1%nat); ("/a/x.wdl", 2%nat)] st)
    = Ok zip_paths
    /\ Dict.get zip_paths "/x.wdl" = Some "__outside_wdl/x.wdl"
    /\ Dict.get zip_paths "/a/x.wdl" = Some "__outside_wdl/x.wdl".
Proof. eexists. split; [vm_compute; reflexivity|]. split; reflexivity. Qed.

(** the collision in [build]: three documents are staged in two files, and
    both imports of the main document are rewritten to the same path *)
Lemma build_source_dir_overwrites :
  let run := build_source_dir 10 0 collision_state in
  fst run = Ok "/tmp/miniwdl_zip_1"
  /\ List.filter (fun kv => match snd kv with File _ => true | Dir => false end)
                 (map_to_list (fs (snd run)))
     = [("/tmp/miniwdl_zip_1/__outside_wdl/x.wdl", File (Text ("task far" ++ newline)));
        ("/tmp/miniwdl_zip_1/main.wdl",
         File (Text ("import " ++ PyStr.quoted "__outside_wdl/x.wdl" ++ " as far"
                     ++ newline
                     ++ "import " ++ PyStr.quoted "__outside_wdl/x.wdl" ++ " as near"
                     ++ newline)))].
Proof. split; vm_compute; reflexivity. Qed.

(** the failed assertion in [build]: no archive for a main document that
    imports from such a sibling directory *)
Lemma build_fails_on_sibling_directory :
  fst (build 10 0 "out.zip" None None "zip" sibling_state) = Raise AssertionError.
Proof. vm_compute. reflexivity. Qed.

(** * Properties of the collection loop of [build_source_dir] *)

Lemma Dict_keys_set {V} (d : Dict.t V) (k : string) (v : V) (p : string) :
  In p (Dict.keys (Dict.set d k v)) <-> p = k \/ In p (Dict.keys d).
Proof.
  induction d as [|[k' v'] d IH]; simpl.
  - intuition.
  - destruct (String.eqb k' k) eqn:E; simpl.
    + apply String.eqb_eq in E. subst. intuition.
    + rewrite IH. intuition.
Qed.

Lemma Dict_keys_set_NoDup {V} (d : Dict.t V) (k : string) (v : V) :
  List.NoDup (Dict.keys d) -> List.NoDup (Dict.keys (Dict.set d k v)).
Proof.
  induction d as [|[k' v'] d IH]; simpl; intros H.
  - constructor; [intros []|constructor].
  - inversion H as [|? ? Hn Hd]; subst.
    destruct (String.eqb k' k) eqn:E; simpl.
    + constructor; assumption.
    + constructor; [|auto].
      intros Hin. apply Dict_keys_set in Hin. destruct Hin as [->|Hin]; [|auto].
      rewrite String.eqb_refl in E. discriminate.
Qed.

(** one iteration of the loop: the last document of the queue is popped,
    its imports are appended, and it is entered under its path *)
Lemma collect_pop (fuel : nat) (q : list nat) (r : nat) (w : Dict.t nat)
    (st : State) (d : Document.t) :
  docs st !! r = Some d ->
  collect (S fuel) (q ++ [r]) w st
  = collect fuel (q ++ List.map DocImport.doc (Document.imports d))
            (Dict.set w (abspath_of d) r) st.
Proof.
  intros Hd.
  destruct (q ++ [r])%list as [|x l] eqn:E.
  - destruct q; discriminate.
  - cbn [collect]. rewrite <- E.
    rewrite List.last_last, List.removelast_last.
    unfold bind at 1. unfold deref, bind, get. rewrite Hd. reflexivity.
Qed.

Lemma collect_pop_single (fuel : nat) (r : nat) (w : Dict.t nat)
    (st : State) (d : Document.t) :
  docs st !! r = Some d ->
  collect (S fuel) [r] w st
  = collect fuel (List.map DocImport.doc (Document.imports d))
            (Dict.set w (abspath_of d) r) st.
Proof. intros Hd. apply (collect_pop fuel [] r w st d Hd). Qed.

Lemma collect_done (fuel : nat) (w : Dict.t nat) (st : State) :
  collect fuel [] w st = (Ok w, st).
Proof. destruct fuel; reflexivity. Qed.

Lemma collect_cyclic_running (fuel : nat) :
  forall (x : nat) (w : Dict.t nat),
    x = 0%nat \/ x = 1%nat ->
    fst (collect fuel [x] w cyclic_state) = OutOfFuel.
Proof.
  induction fuel as [|fuel IH]; intros x w Hx.
  - reflexivity.
  - destruct Hx as [-> | ->].
    + rewrite (collect_pop_single fuel 0 w cyclic_state
                 (Document.mk (source_position "/m/main.wdl" 1 1) 10
                    [DocImport.mk (source_position "/m/main.wdl" 1 1) "lib.wdl" 1]))
        by reflexivity.
      apply IH. now right.
    + rewrite (collect_pop_single fuel 1 w cyclic_state
                 (Document.mk (source_position "/m/lib.wdl" 1 1) 11
                    [DocImport.mk (source_position "/m/lib.wdl" 1 1) "main.wdl" 0]))
        by reflexivity.
      apply IH. now left.
Qed.

(** C2 fails as stated: on the import cycle of [cyclic_state] the loop has
    not finished after any number of iterations. *)
Lemma collect_diverges_on_cycle :
  ~ exists fuel wdls st',
      collect fuel [0%nat] [] cyclic_state = (Ok wdls, st').
Proof.
  intros (fuel & wdls & st' & H).
  pose proof (collect_cyclic_running fuel 0 [] (or_introl eq_refl)) as Hr.
  rewrite H in Hr. discriminate.
Qed.

(** No deduplication before expansion: in [diamond_state] four documents
    take five iterations, [common.wdl] being expanded once for each of its
    two importers. *)
Lemma collect_expands_shared_document_twice :
  fst (collect 4 [0%nat] [] diamond_state) = OutOfFuel
  /\ fst (collect 5 [0%nat] [] diamond_state)
     = Ok [("/m/main.wdl", 0%nat); ("/m/right.wdl", 2%nat);
           ("/m/common.wdl", 3%nat); ("/m/left.wdl", 1%nat)].
Proof. split; vm_compute; reflexivity. Qed.

Section AcyclicCollect.

Variable st : State.
Variable rank : nat -> nat.
Hypothesis Hacyclic : acyclic rank st = true.

Lemma acyclic_import (r : nat) (d : Document.t) (imp : DocImport.t) :
  docs st !! r = Some d ->
  In imp (Document.imports d) ->
  (rank (DocImport.doc imp) < rank r)%nat
  /\ is_Some (docs st !! DocImport.doc imp).
Proof using Hacyclic.
  intros Hd Himp.
  unfold acyclic in Hacyclic. rewrite forallb_forall in Hacyclic.
  assert (Hin : In (r, d) (map_to_list (docs st))).
  { apply list_elem_of_In. now apply elem_of_map_to_list. }
  specialize (Hacyclic _ Hin). cbn [fst snd] in Hacyclic.
  rewrite forallb_forall in Hacyclic. specialize (Hacyclic _ Himp).
  apply andb_true_iff in Hacyclic. destruct Hacyclic as [Hlt Hsome].
  split.
  - now apply Nat.ltb_lt in Hlt.
  - now apply bool_decide_eq_true in Hsome.
Qed.

Lemma reachable_inv (r : nat) (d : Document.t) (r' : nat) :
  docs st !! r = Some d ->
  reachable st r r' <->
  r' = r \/ exists imp, In imp (Document.imports d)
                        /\ reachable st (DocImport.doc imp) r'.
Proof using Type.
  intros Hd. split.
  - intros H. inversion H as [|? d' imp ? Hd' Himp Hr]; subst.
    + now left.
    + right. rewrite Hd in Hd'. injection Hd' as <-. eauto.
  - intros [->|(imp & Himp & Hr)].
    + constructor.
    + eapply reach_step; eauto.
Qed.

Lemma reached_paths_app (l1 l2 : list nat) (p : string) :
  reached_paths st (l1 ++ l2) p
  <-> reached_paths st l1 p \/ reached_paths st l2 p.
Proof using Type.
  unfold reached_paths. split.
  - intros (r & r' & d & Hin & H). apply in_app_or in Hin.
    destruct Hin; [left|right]; eauto 6.
  - intros [(r & r' & d & Hin & H)|(r & r' & d & Hin & H)];
      exists r, r', d; (split; [apply in_or_app; auto|exact H]).
Qed.

Lemma reached_paths_single (r : nat) (d : Document.t) (p : string) :
  docs st !! r = Some d ->
  reached_paths st [r] p
  <-> p = abspath_of d
      \/ reached_paths st (List.map DocImport.doc (Document.imports d)) p.
Proof using Type.
  intros Hd. unfold reached_paths. split.
  - intros (r0 & r' & d' & [<-|[]] & Hr & Hd' & Hp).
    apply (reachable_inv _ _ _ Hd) in Hr.
    destruct Hr as [->|(imp & Himp & Hr)].
    + left. rewrite Hd in Hd'. injection Hd' as <-. now symmetry.
    + right. exists (DocImport.doc imp), r', d'.
      split; [now apply in_map|auto].
  - intros [->|(r0 & r' & d' & Hin & Hr & Hd' & Hp)].
    + exists r, r, d. repeat split; auto; [now left|constructor].
    + apply in_map_iff in Hin. destruct Hin as (imp & <- & Himp).
      exists r, r', d'. split; [now left|]. split; [|auto].
      eapply reach_step; eauto.
Qed.

(** The documents at the end of the queue, all of rank below [n], are
    worked off in finitely many iterations, leaving the rest of the queue
    as it was. *)
Lemma collect_drain (n : nat) :
  forall l : list nat,
    (forall r, In r l -> (rank r < n)%nat /\ is_Some (docs st !! r)) ->
    forall (q : list nat) (w : Dict.t nat),
    exists (k : nat) (w' : Dict.t nat),
      (forall fuel, collect (k + fuel) (q ++ l) w st = collect fuel q w' st)
      /\ (List.NoDup (Dict.keys w) -> List.NoDup (Dict.keys w'))
      /\ (forall p, In p (Dict.keys w')
                    <-> In p (Dict.keys w) \/ reached_paths st l p).
Proof using Hacyclic.
  induction n as [|n IHn].
  - intros l Hl q w. destruct l as [|r l].
    + exists 0%nat, w. split; [intros; now rewrite app_nil_r|].
      split; [auto|]. intros p. split; [auto|].
      intros [H|(r & _ & _ & [] & _)]; auto.
    + destruct (Hl r (or_introl eq_refl)) as [Hr _]. lia.
  - intros l. induction l as [|r l0 IHl] using rev_ind; intros Hl q w.
    + exists 0%nat, w. split; [intros; now rewrite app_nil_r|].
      split; [auto|]. intros p. split; [auto|].
      intros [H|(r & _ & _ & [] & _)]; auto.
    + destruct (Hl r) as [Hr [d Hd]]; [apply in_or_app; right; now left|].
      set (imps := List.map DocImport.doc (Document.imports d)).
      set (w1 := Dict.set w (abspath_of d) r).
      destruct (IHn imps) with (q := (q ++ l0)%list) (w := w1)
        as (k1 & w2 & Hrun1 & Hnd1 & Hkeys1).
      { intros r' Hin. apply in_map_iff in Hin.
        destruct Hin as (imp & <- & Himp).
        destruct (acyclic_import r d imp Hd Himp). split; [lia|auto]. }
      destruct IHl with (q := q) (w := w2) as (k2 & w3 & Hrun2 & Hnd2 & Hkeys2).
      { intros r' Hin. apply Hl. apply in_or_app. now left. }
      exists (S (k1 + k2)), w3. split; [|split].
      * intros fuel. rewrite app_assoc.
        change (S (k1 + k2) + fuel)%nat with (S (k1 + k2 + fuel)).
        rewrite (collect_pop _ _ _ _ _ _ Hd). fold imps. fold w1.
        replace (k1 + k2 + fuel)%nat with (k1 + (k2 + fuel))%nat by lia.
        rewrite Hrun1. apply Hrun2.
      * intros Hnd. apply Hnd2, Hnd1. unfold w1.
        now apply Dict_keys_set_NoDup.
      * intros p. rewrite Hkeys2, Hkeys1. unfold w1.
        rewrite Dict_keys_set, reached_paths_app.
        rewrite (reached_paths_single r d p Hd). fold imps. tauto.
Qed.

End AcyclicCollect.

(** C2 (as amended): on every import graph without a cycle, also when a
    document is imported from several places, the collection loop finishes
    within a bounded number of iterations, and the dictionary it returns
    has exactly one entry for every path reached from the top document. *)
Theorem collect_terminates_on_acyclic_graph
    (st : State) (rank : nat -> nat) (top_doc : nat) :
  acyclic rank st = true ->
  is_Some (docs st !! top_doc) ->
  exists (fuel : nat) (wdls : Dict.t nat),
    (forall fuel', (fuel <= fuel')%nat ->
                   collect fuel' [top_doc] [] st = (Ok wdls, st))
    /\ List.NoDup (Dict.keys wdls)
    /\ (forall p, In p (Dict.keys wdls) <-> reached_paths st [top_doc] p).
Proof.
  intros Hacyclic Htop.
  destruct (collect_drain st rank Hacyclic (S (rank top_doc)) [top_doc])
    with (q := @nil nat) (w := @nil (string * nat))
    as (k & w' & Hrun & Hnd & Hkeys).
  { intros r [<-|[]]. split; [lia|auto]. }
  exists k, w'. split; [|split].
  - intros fuel' Hle. replace fuel' with (k + (fuel' - k))%nat by lia.
    cbn [app] in Hrun. rewrite Hrun. apply collect_done.
  - apply Hnd. constructor.
  - intros p. rewrite Hkeys. cbn. tauto.
Qed.

Lemma collect_terminates_on_acyclic_graph_witness :
  exists (fuel : nat) (wdls : Dict.t nat),
    (forall fuel', (fuel <= fuel')%nat ->
                   collect fuel' [0%nat] [] diamond_state = (Ok wdls, diamond_state))
    /\ List.NoDup (Dict.keys wdls)
    /\ (forall p, In p (Dict.keys wdls) <-> reached_paths diamond_state [0%nat] p).
Proof.
  apply (collect_terminates_on_acyclic_graph diamond_state (fun r => (3 - r)%nat) 0%nat).
  - vm_compute. reflexivity.
  - vm_compute. eauto.
Defined.

(** * Reasoning rules for the monad *)

Lemma bind_inv {A B} (m : M A) (k : A -> M B) (st : State) (r : result B)
    (st' : State) :
  bind m k st = (r, st') ->
  (exists a st1, m st = (Ok a, st1) /\ k a st1 = (r, st'))
  \/ (exists e, m st = (Raise e, st') /\ r = Raise e)
  \/ (m st = (OutOfFuel, st') /\ r = OutOfFuel).
Proof.
  unfold bind. destruct (m st) as [[a|e|] st1]; intros H.
  - left. eauto.
  - right. left. injection H as <- <-. eauto.
  - right. right. injection H as <- <-. auto.
Qed.

Section Preserves.

Variable R : State -> State -> Prop.
Hypothesis R_refl : forall st, R st st.
Hypothesis R_trans : forall a b c, R a b -> R b c -> R a c.

Lemma preserves_ret {A} (a : A) : preserves R (ret a).
Proof using R_refl. intros st r st' H. injection H as _ <-. apply R_refl. Qed.

Lemma preserves_raise {A} (e : exn) : preserves R (@raise A e).
Proof using R_refl. intros st r st' H. injection H as _ <-. apply R_refl. Qed.

Lemma preserves_out_of_fuel {A} : preserves R (@out_of_fuel A).
Proof using R_refl. intros st r st' H. injection H as _ <-. apply R_refl. Qed.

Lemma preserves_get : preserves R get.
Proof using R_refl. intros st r st' H. injection H as _ <-. apply R_refl. Qed.

Lemma preserves_lift {A} (x : result A) : preserves R (lift x).
Proof using R_refl. intros st r st' H. injection H as _ <-. apply R_refl. Qed.

Lemma preserves_assert (b : bool) : preserves R (assert b).
Proof using R_refl.
  destruct b; [apply preserves_ret|apply preserves_raise].
Qed.

Lemma preserves_bind {A B} (m : M A) (k : A -> M B) :
  preserves R m -> (forall a, preserves R (k a)) -> preserves R (bind m k).
Proof using R_trans.
  intros Hm Hk st r st' H. apply bind_inv in H.
  destruct H as [(a & st1 & H1 & H2)|[(e & H1 & _)|[H1 _]]].
  - eapply R_trans; [eapply Hm|eapply Hk]; eauto.
  - eapply Hm; eauto.
  - eapply Hm; eauto.
Qed.

(** a bind whose continuation may use what the first part returned in the
    state it was run from *)
Lemma preserves_bind_get {B} (k : State -> M B) :
  (forall st, preserves R (k st)) -> preserves R (bind get k).
Proof using R_refl R_trans.
  intros Hk. apply preserves_bind; [apply preserves_get|exact Hk].
Qed.

Lemma preserves_try_except {A} (m : M A) (h : exn -> M A) :
  preserves R m -> (forall e, preserves R (h e)) ->
  preserves R (try_except m h).
Proof using R_trans.
  intros Hm Hh st r st' H. unfold try_except in H.
  destruct (m st) as [[a|e|] st1] eqn:E.
  - injection H as <- <-. eapply Hm; eauto.
  - eapply R_trans; [eapply Hm|eapply Hh]; eauto.
  - injection H as <- <-. eapply Hm; eauto.
Qed.

Lemma preserves_for_each {A} (l : list A) (body : A -> M unit) :
  (forall x, In x l -> preserves R (body x)) ->
  preserves R (for_each l body).
Proof using R_refl R_trans.
  induction l as [|x l IH]; intros Hb; cbn [for_each].
  - apply preserves_ret.
  - apply preserves_bind; [apply Hb; now left|].
    intros _. apply IH. intros y Hy. apply Hb. now right.
Qed.

Lemma preserves_for_fold {A B} (l : list A) (body : B -> A -> M B) :
  (forall x, In x l -> forall acc, preserves R (body acc x)) ->
  forall acc, preserves R (for_fold l acc body).
Proof using R_refl R_trans.
  induction l as [|x l IH]; intros Hb acc; cbn [for_fold].
  - apply preserves_ret.
  - apply preserves_bind; [apply Hb; now left|].
    intros acc'. apply IH. intros y Hy. apply Hb. now right.
Qed.

End Preserves.

Lemma finishes_ret {A} (a : A) : finishes (ret a).
Proof. intros st. discriminate. Qed.

Lemma finishes_raise {A} (e : exn) : finishes (@raise A e).
Proof. intros st. discriminate. Qed.

Lemma finishes_get : finishes get.
Proof. intros st. discriminate. Qed.

Lemma finishes_modify (f : State -> State) : finishes (modify f).
Proof. intros st. discriminate. Qed.

Lemma finishes_assert (b : bool) : finishes (assert b).
Proof. destruct b; intros st; discriminate. Qed.

Lemma finishes_bind {A B} (m : M A) (k : A -> M B) :
  finishes m -> (forall a, finishes (k a)) -> finishes (bind m k).
Proof.
  intros Hm Hk st. unfold bind. specialize (Hm st).
  destruct (m st) as [[a|e|] st1]; cbn [fst] in *.
  - apply Hk.
  - discriminate.
  - congruence.
Qed.

Lemma finishes_for_each {A} (l : list A) (body : A -> M unit) :
  (forall x, finishes (body x)) -> finishes (for_each l body).
Proof.
  intros Hb. induction l as [|x l IH]; cbn [for_each].
  - apply finishes_ret.
  - apply finishes_bind; auto.
Qed.

Lemma finishes_for_fold {A B} (l : list A) (body : B -> A -> M B) :
  (forall acc x, finishes (body acc x)) ->
  forall acc, finishes (for_fold l acc body).
Proof.
  intros Hb. induction l as [|x l IH]; intros acc; cbn [for_fold].
  - apply finishes_ret.
  - apply finishes_bind; auto.
Qed.

Ltac preserve_with Hrefl Htrans tac :=
  repeat first
    [ apply (preserves_ret _ Hrefl)
    | apply (preserves_raise _ Hrefl)
    | apply (preserves_out_of_fuel _ Hrefl)
    | apply (preserves_get _ Hrefl)
    | apply (preserves_lift _ Hrefl)
    | apply (preserves_assert _ Hrefl)
    | tac
    | apply (preserves_bind _ Htrans)
    | apply (preserves_try_except _ Htrans)
    | progress intros
    | match goal with
      | |- preserves _ (match ?x with _ => _ end) => destruct x
      end ].

Ltac finish_with tac :=
  repeat first
    [ apply finishes_ret
    | apply finishes_raise
    | apply finishes_get
    | apply finishes_modify
    | apply finishes_assert
    | tac
    | apply finishes_bind
    | progress intros
    | match goal with
      | |- finishes (match ?x with _ => _ end) => destruct x
      end ].

(** * Properties of [rewrite_imports] *)

Lemma lines_frame_refl (sl : nat) (P : nat -> Prop) (st : State) :
  lines_frame sl P st st.
Proof. unfold lines_frame. repeat split; eauto. Qed.

Lemma lines_frame_trans (sl : nat) (P : nat -> Prop) (a b c : State) :
  lines_frame sl P a b -> lines_frame sl P b c -> lines_frame sl P a c.
Proof.
  intros (D1 & C1 & F1 & T1 & L1 & E1 & O1 & S1) (D2 & C2 & F2 & T2 & L2 & E2 & O2 & S2).
  unfold lines_frame. repeat split; try congruence.
  - intros l Hl. rewrite O2, O1; auto.
  - intros v Hv. destruct (S1 v Hv) as (v1 & Hv1 & Hlen1 & Hk1).
    destruct (S2 v1 Hv1) as (v2 & Hv2 & Hlen2 & Hk2).
    exists v2. split; [auto|]. split; [congruence|].
    intros k Hk. rewrite Hk2, Hk1; auto.
Qed.

Lemma lines_frame_weaken (sl : nat) (P Q : nat -> Prop) (a b : State) :
  (forall k, P k -> Q k) -> lines_frame sl P a b -> lines_frame sl Q a b.
Proof.
  intros HPQ (D1 & C1 & F1 & T1 & L1 & E1 & O1 & S1).
  unfold lines_frame. repeat split; auto.
  intros v Hv. destruct (S1 v Hv) as (v1 & Hv1 & Hlen1 & Hk1).
  exists v1. repeat split; auto.
Qed.

Lemma preserves_weaken {A} (R R' : State -> State -> Prop) (m : M A) :
  (forall a b, R a b -> R' a b) -> preserves R m -> preserves R' m.
Proof. intros HR Hm st r st' H. apply HR. eapply Hm; eauto. Qed.

Lemma logger_frame (sl : nat) (P : nat -> Prop) (lv : level) (msg : string) :
  preserves (lines_frame sl P) (logger lv msg).
Proof.
  intros st r st' H. injection H as _ <-.
  unfold lines_frame. cbn. repeat split; eauto.
Qed.

Lemma index_of_nonneg (n : nat) (i : Z) (k : nat) :
  0 <= i -> index_of n i = Some k -> k = Z.to_nat i /\ (k < n)%nat.
Proof.
  intros Hi. unfold index_of.
  destruct (i <? 0) eqn:E; [apply Z.ltb_lt in E; lia|].
  destruct ((0 <=? i) && (i <? Z.of_nat n)) eqn:E2; [|discriminate].
  intros H. injection H as <-. apply andb_true_iff in E2.
  destruct E2 as [_ E2]. apply Z.ltb_lt in E2. split; [reflexivity|lia].
Qed.

Lemma list_setitem_frame (sl : nat) (P : nat -> Prop) (i : Z) (x : string) :
  0 <= i -> P (Z.to_nat i) ->
  preserves (lines_frame sl P) (list_setitem sl i x).
Proof.
  intros Hi HP st r st' H.
  unfold list_setitem, list_read, bind, get, ret, raise in H.
  destruct (heap st !! sl) as [v|] eqn:Hv;
    [|injection H as _ <-; apply lines_frame_refl].
  destruct (index_of (length v) i) as [k|] eqn:Hk;
    [|injection H as _ <-; apply lines_frame_refl].
  injection H as _ <-.
  apply index_of_nonneg in Hk; [|assumption]. destruct Hk as [-> Hlt].
  unfold lines_frame. cbn. repeat split; auto.
  - intros l Hl. now rewrite lookup_insert_ne.
  - intros v0 Hv0. rewrite Hv in Hv0. injection Hv0 as <-.
    exists (<[Z.to_nat i := x]> v). rewrite lookup_insert_eq.
    split; [reflexivity|]. split; [apply length_insert|].
    intros k Hk. apply list_lookup_insert_ne. intros <-. auto.
Qed.

Lemma in_range (lo hi i : Z) : In i (range lo hi) <-> lo <= i < hi.
Proof.
  unfold range. rewrite in_map_iff. split.
  - intros (k & <- & Hk). apply in_seq in Hk. lia.
  - intros H. exists (Z.to_nat (i - lo)). split; [lia|]. apply in_seq. lia.
Qed.

Lemma rewrite_line_frame (doc : Document.t) (zip_paths : Dict.t string)
    (sl : nat) (imp : DocImport.t) (found : bool) (lineno : Z) (P : nat -> Prop) :
  0 <= lineno -> P (Z.to_nat lineno) ->
  preserves (lines_frame sl P) (rewrite_line doc zip_paths sl imp found lineno).
Proof.
  intros Hi HP.
  unfold rewrite_line, list_getitem, list_read, deref, Dict.getitem.
  preserve_with (lines_frame_refl sl P) (lines_frame_trans sl P)
    ltac:(first [apply logger_frame | apply list_setitem_frame; assumption]).
Qed.

Lemma rewrite_import_frame (doc : Document.t) (zip_paths : Dict.t string)
    (sl : nat) (imp : DocImport.t) :
  preserves (lines_frame sl (in_span imp)) (rewrite_import doc zip_paths sl imp).
Proof.
  unfold rewrite_import.
  apply (preserves_bind _ (lines_frame_trans sl _)).
  - apply (preserves_for_fold _ (lines_frame_refl sl _) (lines_frame_trans sl _)).
    intros lineno Hin acc. apply in_range in Hin.
    apply rewrite_line_frame; [lia|]. unfold in_span. lia.
  - intros found. apply (preserves_assert _ (lines_frame_refl sl _)).
Qed.

Lemma list_copy_spec (l : nat) (st : State) (v : list string) :
  heap st !! l = Some v ->
  exists sl, list_copy l st = (Ok sl, set_heap (<[sl := v]> (heap st)) st)
             /\ heap st !! sl = None.
Proof.
  intros Hv. exists (fresh (dom (heap st))). split.
  - unfold list_copy, list_read, bind, get, modify, ret. rewrite Hv. reflexivity.
  - apply not_elem_of_dom. apply is_fresh.
Qed.

Lemma relpath_finishes (cwd path start : string) :
  finishes (lift (PosixPath.relpath cwd path start)).
Proof.
  intros st. unfold lift, PosixPath.relpath. cbn [fst].
  destruct (String.eqb path EmptyString); [discriminate|].
  match goal with |- context [match ?l with [] => _ | _ :: _ => _ end] =>
    destruct l end; discriminate.
Qed.

Lemma rewrite_imports_finishes (doc : Document.t) (zip_paths : Dict.t string) :
  finishes (rewrite_imports doc zip_paths).
Proof.
  unfold rewrite_imports, rewrite_import, rewrite_line, list_copy, list_getitem,
    list_setitem, list_read, deref, Dict.getitem, logger.
  finish_with ltac:(first [ apply finishes_for_each | apply finishes_for_fold
                          | apply relpath_finishes
                          | intros ?; discriminate ]).
Qed.

(** C7: [rewrite_imports] works on a copy.  Whatever its outcome, every list
    object that existed before, the document's source lines among them, is
    left as it was; it always comes to an outcome; and when it returns, it
    returns a new list object of the same length whose lines outside the
    position of every import are the original ones. *)
Theorem rewrite_imports_frame (doc : Document.t) (zip_paths : Dict.t string)
    (st : State) (original : list string) (r : result nat) (st' : State) :
  heap st !! Document.source_lines doc = Some original ->
  rewrite_imports doc zip_paths st = (r, st') ->
  r <> OutOfFuel
  /\ heap st' !! Document.source_lines doc = Some original
  /\ (forall l v, heap st !! l = Some v -> heap st' !! l = Some v)
  /\ forall new, r = Ok new ->
       heap st !! new = None
       /\ new <> Document.source_lines doc
       /\ exists lines,
            heap st' !! new = Some lines
            /\ length lines = length original
            /\ forall k,
                 (forall imp, In imp (Document.imports doc) -> ~ in_span imp k) ->
                 lines !! k = original !! k.
Proof.
  intros Horig Hrun.
  assert (Hfin : r <> OutOfFuel).
  { pose proof (rewrite_imports_finishes doc zip_paths st) as Hf.
    rewrite Hrun in Hf. exact Hf. }
  split; [exact Hfin|].
  destruct (list_copy_spec _ _ _ Horig) as (sl & Hcopy & Hfresh).
  unfold rewrite_imports in Hrun. apply bind_inv in Hrun.
  destruct Hrun as [(a & st0 & H1 & H2)|[(e & H1 & _)|[H1 _]]];
    rewrite Hcopy in H1; try discriminate.
  injection H1 as <- <-.
  set (P := fun k => exists imp, In imp (Document.imports doc) /\ in_span imp k).
  set (st0 := set_heap (<[sl := original]> (heap st)) st) in *.
  assert (Hframe : forall r1 st1,
             for_each (Document.imports doc)
                      (rewrite_import doc zip_paths sl) st0 = (r1, st1) ->
             lines_frame sl P st0 st1).
  { intros r1 st1 Hl. revert Hl.
    apply (preserves_for_each _ (lines_frame_refl sl P) (lines_frame_trans sl P)).
    intros imp Himp. eapply preserves_weaken; [|apply rewrite_import_frame].
    intros a b. apply lines_frame_weaken. intros k Hk. exists imp. auto. }
  assert (Hne : sl <> Document.source_lines doc) by congruence.
  apply bind_inv in H2.
  assert (Hold : forall st1, lines_frame sl P st0 st1 ->
                 forall l v, heap st !! l = Some v -> heap st1 !! l = Some v).
  { intros st1 (_ & _ & _ & _ & _ & _ & Hother & _) l v Hl.
    assert (l <> sl) by congruence.
    rewrite Hother by assumption. unfold st0. cbn.
    now rewrite lookup_insert_ne. }
  destruct H2 as [(a & st1 & H2 & H3)|[(e & H2 & ->)|[H2 ->]]].
  - injection H3 as <- <-. specialize (Hframe _ _ H2).
    split; [eapply Hold; eauto|]. split; [eapply Hold; eauto|].
    intros new Hnew. injection Hnew as <-.
    split; [assumption|]. split; [assumption|].
    destruct Hframe as (_ & _ & _ & _ & _ & _ & _ & Hsl).
    destruct (Hsl original) as (lines & Hlines & Hlen & Hk).
    { unfold st0. cbn. apply lookup_insert_eq. }
    exists lines. split; [assumption|]. split; [assumption|].
    intros k Hout. apply Hk. intros (imp & Himp & Hspan).
    exact (Hout imp Himp Hspan).
  - specialize (Hframe _ _ H2).
    split; [eapply Hold; eauto|]. split; [eapply Hold; eauto|].
    intros new Hnew. discriminate.
  - congruence.
Qed.


Lemma replace_from_absent (old new s : string) :
  PyStr.contains old s = false -> PyStr.replace_from 0 old new s = s.
Proof.
  induction s as [|c s IH]; intros H.
  - reflexivity.
  - cbn [PyStr.contains] in H. apply orb_false_iff in H. destruct H as [H1 H2].
    cbn [PyStr.replace_from]. rewrite H1. f_equal. auto.
Qed.

(** a pattern that does not occur is not replaced *)
Lemma replace_absent (s old new : string) :
  PyStr.contains old s = false -> PyStr.replace s old new = s.
Proof.
  destruct old as [|c old].
  - intros H. destruct s; discriminate.
  - apply replace_from_absent.
Qed.

Lemma relpath_Ok_or_Raise (cwd path start : string) :
  (exists p, PosixPath.relpath cwd path start = Ok p)
  \/ (exists e, PosixPath.relpath cwd path start = Raise e).
Proof.
  unfold PosixPath.relpath.
  destruct (String.eqb path EmptyString); [right; eauto|].
  match goal with |- context [match ?l with [] => _ | _ :: _ => _ end] =>
    destruct l end; left; eauto.
Qed.

(** one line of the span that does not contain the quoted URI: the line is
    left alone and [found] stays false, unless reading the line or computing
    the new URI raises *)
Lemma run_list_getitem (sl : nat) (i : Z) (st : State) (lines : list string) :
  heap st !! sl = Some lines ->
  list_getitem sl i st
  = (match index_of (length lines) i with
     | Some k => match lines !! k with
                 | Some x => Ok x
                 | None => Raise IndexError
                 end
     | None => Raise IndexError
     end, st).
Proof.
  intros H. unfold list_getitem, list_read, bind, get, ret, raise. rewrite H.
  destruct (index_of (length lines) i) as [k|]; [|reflexivity].
  destruct (lines !! k); reflexivity.
Qed.

Lemma run_deref (r : nat) (st : State) :
  deref r st
  = (match docs st !! r with
     | Some d => Ok d
     | None => Raise DanglingReference
     end, st).
Proof. unfold deref, bind, get. destruct (docs st !! r); reflexivity. Qed.

Lemma run_getitem {V} (d : Dict.t V) (k : string) (st : State) :
  Dict.getitem d k st
  = (match Dict.get d k with
     | Some v => Ok v
     | None => Raise (KeyError k)
     end, st).
Proof. unfold Dict.getitem. destruct (Dict.get d k); reflexivity. Qed.

(** one line of the span that does not contain the quoted URI: the line is
    left alone and [found] stays false, unless reading the line or computing
    the new URI raises *)
Lemma rewrite_line_no_match (doc : Document.t) (zip_paths : Dict.t string)
    (sl : nat) (imp : DocImport.t) (lineno : Z) (st : State) (lines : list string) :
  heap st !! sl = Some lines ->
  0 <= lineno ->
  (forall line, lines !! Z.to_nat lineno = Some line ->
                PyStr.contains (PyStr.quoted (DocImport.uri imp)) line = false) ->
  rewrite_line doc zip_paths sl imp false lineno st = (Ok false, st)
  \/ exists e, rewrite_line doc zip_paths sl imp false lineno st = (Raise e, st).
Proof.
  intros Hlines Hlo Hno.
  remember (rewrite_line doc zip_paths sl imp false lineno st) as X eqn:HX.
  unfold rewrite_line in HX.
  unfold bind at 1 in HX. rewrite (run_list_getitem _ _ _ _ Hlines) in HX.
  destruct (index_of (length lines) lineno) as [k|] eqn:Hk;
    [|right; eexists; exact HX].
  apply index_of_nonneg in Hk; [|assumption]. destruct Hk as [-> _].
  destruct (lines !! Z.to_nat lineno) as [line|] eqn:Hline;
    [|right; eexists; exact HX].
  unfold bind at 1 in HX. rewrite run_deref in HX.
  destruct (docs st !! DocImport.doc imp) as [d|]; [|right; eexists; exact HX].
  unfold bind at 1 in HX. rewrite run_getitem in HX.
  destruct (Dict.get zip_paths (abspath_of d)) as [p1|];
    [|right; eexists; exact HX].
  unfold bind at 1 in HX. rewrite run_getitem in HX.
  destruct (Dict.get zip_paths (abspath_of doc)) as [p2|];
    [|right; eexists; exact HX].
  unfold bind at 1 in HX. unfold get at 1 in HX.
  unfold bind at 1 in HX. unfold lift in HX.
  destruct (relpath_Ok_or_Raise (cwd st) p1 (PosixPath.dirname p2))
    as [[new_uri Hrel]|[e Hrel]]; rewrite Hrel in HX;
    [|right; eexists; exact HX].
  rewrite (replace_absent _ _ _ (Hno line eq_refl)) in HX.
  rewrite String.eqb_refl in HX. cbn [negb] in HX. unfold bind, ret in HX.
  rewrite (Hno line eq_refl) in HX. left. exact HX.
Qed.

Lemma for_fold_no_match (doc : Document.t) (zip_paths : Dict.t string)
    (sl : nat) (imp : DocImport.t) (st : State) (lines : list string)
    (linenos : list Z) :
  heap st !! sl = Some lines ->
  (forall lineno, In lineno linenos ->
     0 <= lineno
     /\ forall line, lines !! Z.to_nat lineno = Some line ->
          PyStr.contains (PyStr.quoted (DocImport.uri imp)) line = false) ->
  for_fold linenos false (rewrite_line doc zip_paths sl imp) st = (Ok false, st)
  \/ exists e,
       for_fold linenos false (rewrite_line doc zip_paths sl imp) st = (Raise e, st).
Proof.
  intros Hlines. induction linenos as [|lineno linenos IH]; intros Hno.
  - left. reflexivity.
  - cbn [for_fold]. unfold bind.
    destruct (Hno lineno (or_introl eq_refl)) as [Hlo Hline].
    destruct (rewrite_line_no_match doc zip_paths sl imp lineno st lines
                Hlines Hlo Hline) as [->|[e ->]].
    + apply IH. intros l Hl. apply Hno. now right.
    + right. eauto.
Qed.

(** an import none of whose lines contains the quoted URI makes
    [rewrite_import] raise, leaving the state as it was *)
Lemma rewrite_import_no_match (doc : Document.t) (zip_paths : Dict.t string)
    (sl : nat) (imp : DocImport.t) (st : State) (lines : list string) :
  heap st !! sl = Some lines ->
  (forall k line, in_span imp k -> lines !! k = Some line ->
     PyStr.contains (PyStr.quoted (DocImport.uri imp)) line = false) ->
  exists e, rewrite_import doc zip_paths sl imp st = (Raise e, st).
Proof.
  intros Hlines Hno. unfold rewrite_import. unfold bind.
  destruct (for_fold_no_match doc zip_paths sl imp st lines
              (range (Z.pos (SourcePosition.line (DocImport.pos imp)) - 1)
                     (Z.pos (SourcePosition.end_line (DocImport.pos imp))))
              Hlines) as [->|[e ->]].
  - intros lineno Hin. apply in_range in Hin. split; [lia|].
    intros line. apply Hno. unfold in_span. lia.
  - eexists. reflexivity.
  - eexists. reflexivity.
Qed.

Lemma for_each_app {A} (l1 l2 : list A) (body : A -> M unit) (st : State) :
  for_each (l1 ++ l2) body st
  = bind (for_each l1 body) (fun _ => for_each l2 body) st.
Proof.
  revert st. induction l1 as [|x l1 IH]; intros st.
  - reflexivity.
  - cbn [for_each app]. unfold bind in *.
    destruct (body x st) as [[[]|e|] st1]; try reflexivity.
    apply IH.
Qed.

(** C4 fails as stated: the stale edge of [stale_doc] has no line of the
    document's source with its quoted URI in its position, and yet
    [rewrite_imports] returns, because the rewrite of the edge before it put
    that text there. *)
Lemma rewrite_imports_accepts_stale_edge :
  In stale_import (Document.imports stale_doc)
  /\ heap stale_state !! Document.source_lines stale_doc
     = Some ["import " ++ PyStr.quoted "./b.wdl"]
  /\ PyStr.contains (PyStr.quoted (DocImport.uri stale_import))
                    ("import " ++ PyStr.quoted "./b.wdl") = false
  /\ fst (rewrite_imports stale_doc stale_zip_paths stale_state) = Ok 12%nat
  /\ heap (snd (rewrite_imports stale_doc stale_zip_paths stale_state)) !! 12%nat
     = Some ["import " ++ PyStr.quoted "b.wdl"].
Proof.
  split; [right; left; reflexivity|].
  repeat split; vm_compute; reflexivity.
Qed.

Lemma rewrite_line_no_match_Ok (doc : Document.t) (zip_paths : Dict.t string)
    (sl : nat) (imp : DocImport.t) (lineno : Z) (st : State) (lines : list string)
    (d : Document.t) (p1 p2 : string) :
  heap st !! sl = Some lines ->
  0 <= lineno < Z.of_nat (length lines) ->
  (forall line, lines !! Z.to_nat lineno = Some line ->
                PyStr.contains (PyStr.quoted (DocImport.uri imp)) line = false) ->
  docs st !! DocImport.doc imp = Some d ->
  Dict.get zip_paths (abspath_of d) = Some p1 ->
  p1 <> EmptyString ->
  Dict.get zip_paths (abspath_of doc) = Some p2 ->
  rewrite_line doc zip_paths sl imp false lineno st = (Ok false, st).
Proof.
  intros Hlines Hlo Hno Hd Hp1 Hne Hp2.
  destruct (rewrite_line_no_match doc zip_paths sl imp lineno st lines Hlines
              (proj1 Hlo) Hno) as [H|[e He]]; [exact H|].
  exfalso. revert He. unfold rewrite_line.
  unfold bind at 1. rewrite (run_list_getitem _ _ _ _ Hlines).
  assert (Hk : index_of (length lines) lineno = Some (Z.to_nat lineno)).
  { unfold index_of. destruct (lineno <? 0) eqn:E; [apply Z.ltb_lt in E; lia|].
    destruct (0 <=? lineno) eqn:E1; [|apply Z.leb_gt in E1; lia].
    destruct (lineno <? Z.of_nat (length lines)) eqn:E2;
      [reflexivity|apply Z.ltb_ge in E2; lia]. }
  rewrite Hk.
  destruct (lines !! Z.to_nat lineno) as [line|] eqn:Hline.
  2:{ apply lookup_ge_None in Hline. lia. }
  unfold bind at 1. rewrite run_deref, Hd.
  unfold bind at 1. rewrite run_getitem, Hp1.
  unfold bind at 1. rewrite run_getitem, Hp2.
  unfold bind at 1. unfold get at 1. unfold bind at 1. unfold lift.
  unfold PosixPath.relpath at 1.
  destruct (String.eqb p1 EmptyString) eqn:E;
    [apply String.eqb_eq in E; contradiction|].
  match goal with |- context [match ?l with [] => _ | _ :: _ => _ end] =>
    destruct l end.
  all: rewrite (replace_absent _ _ _ (Hno line eq_refl)).
  all: rewrite String.eqb_refl; cbn [negb]; unfold bind, ret; discriminate.
Qed.

Lemma for_fold_no_match_Ok (doc : Document.t) (zip_paths : Dict.t string)
    (sl : nat) (imp : DocImport.t) (st : State) (lines : list string)
    (d : Document.t) (p1 p2 : string) (linenos : list Z) :
  heap st !! sl = Some lines ->
  docs st !! DocImport.doc imp = Some d ->
  Dict.get zip_paths (abspath_of d) = Some p1 ->
  p1 <> EmptyString ->
  Dict.get zip_paths (abspath_of doc) = Some p2 ->
  (forall lineno, In lineno linenos ->
     0 <= lineno < Z.of_nat (length lines)
     /\ forall line, lines !! Z.to_nat lineno = Some line ->
          PyStr.contains (PyStr.quoted (DocImport.uri imp)) line = false) ->
  for_fold linenos false (rewrite_line doc zip_paths sl imp) st = (Ok false, st).
Proof.
  intros Hlines Hd Hp1 Hne Hp2.
  induction linenos as [|lineno linenos IH]; intros Hno.
  - reflexivity.
  - cbn [for_fold]. unfold bind.
    destruct (Hno lineno (or_introl eq_refl)) as [Hlo Hline].
    rewrite (rewrite_line_no_match_Ok doc zip_paths sl imp lineno st lines d p1 p2)
      by assumption.
    apply IH. intros l Hl. apply Hno. now right.
Qed.

(** ... and the exception is the failed assertion when the position lies
    within the lines and the archive paths of both documents are there *)
Lemma rewrite_import_no_match_assertion (doc : Document.t)
    (zip_paths : Dict.t string) (sl : nat) (imp : DocImport.t) (st : State)
    (lines : list string) (d : Document.t) (p1 p2 : string) :
  heap st !! sl = Some lines ->
  (forall k line, in_span imp k -> lines !! k = Some line ->
     PyStr.contains (PyStr.quoted (DocImport.uri imp)) line = false) ->
  Z.pos (SourcePosition.end_line (DocImport.pos imp)) <= Z.of_nat (length lines) ->
  docs st !! DocImport.doc imp = Some d ->
  Dict.get zip_paths (abspath_of d) = Some p1 ->
  p1 <> EmptyString ->
  Dict.get zip_paths (abspath_of doc) = Some p2 ->
  rewrite_import doc zip_paths sl imp st = (Raise AssertionError, st).
Proof.
  intros Hlines Hno Hend Hd Hp1 Hne Hp2. unfold rewrite_import. unfold bind.
  rewrite (for_fold_no_match_Ok doc zip_paths sl imp st lines d p1 p2);
    try assumption.
  - reflexivity.
  - intros lineno Hin. apply in_range in Hin. split; [lia|].
    intros line. apply Hno. unfold in_span. lia.
Qed.
(** C4 (as amended): when an import edge is reached, after the edges before
    it have been rewritten, and no line of the working copy within its
    position contains its quoted URI, [rewrite_imports] raises and does not
    return, whatever edges follow. *)
Theorem rewrite_imports_requires_match (doc : Document.t)
    (zip_paths : Dict.t string) (st st0 st1 : State) (sl : nat)
    (before after : list DocImport.t) (imp : DocImport.t) (lines : list string) :
  Document.imports doc = (before ++ imp :: after)%list ->
  list_copy (Document.source_lines doc) st = (Ok sl, st0) ->
  for_each before (rewrite_import doc zip_paths sl) st0 = (Ok tt, st1) ->
  heap st1 !! sl = Some lines ->
  (forall k line, in_span imp k -> lines !! k = Some line ->
     PyStr.contains (PyStr.quoted (DocImport.uri imp)) line = false) ->
  exists e,
    rewrite_imports doc zip_paths st = (Raise e, st1)
    /\ (Z.pos (SourcePosition.end_line (DocImport.pos imp))
          <= Z.of_nat (length lines) ->
        forall d p1 p2,
          docs st1 !! DocImport.doc imp = Some d ->
          Dict.get zip_paths (abspath_of d) = Some p1 ->
          p1 <> EmptyString ->
          Dict.get zip_paths (abspath_of doc) = Some p2 ->
          e = AssertionError).
Proof.
  intros Himports Hcopy Hbefore Hlines Hno.
  destruct (rewrite_import_no_match doc zip_paths sl imp st1 lines Hlines Hno)
    as [e He].
  exists e. split.
  - unfold rewrite_imports. unfold bind at 1. rewrite Hcopy.
    unfold bind at 1. rewrite Himports, for_each_app.
    unfold bind at 1. rewrite Hbefore. cbn [for_each]. unfold bind at 1.
    rewrite He. reflexivity.
  - intros Hend d p1 p2 Hd Hp1 Hne Hp2.
    rewrite (rewrite_import_no_match_assertion doc zip_paths sl imp st1 lines
               d p1 p2) in He by assumption.
    congruence.
Qed.

Lemma rewrite_imports_requires_match_witness :
  exists e,
    rewrite_imports unmatched_doc stale_zip_paths stale_state
    = (Raise e, snd (list_copy 10 stale_state))
    /\ (1 <= 1 ->
        forall d p1 p2,
          docs (snd (list_copy 10 stale_state)) !! 1%nat = Some d ->
          Dict.get stale_zip_paths (abspath_of d) = Some p1 ->
          p1 <> EmptyString ->
          Dict.get stale_zip_paths (abspath_of unmatched_doc) = Some p2 ->
          e = AssertionError).
Proof.
  apply (rewrite_imports_requires_match unmatched_doc stale_zip_paths
           stale_state (snd (list_copy 10 stale_state))
           (snd (list_copy 10 stale_state)) 12%nat [] [] stale_import
           ["import " ++ PyStr.quoted "./b.wdl"]).
  - reflexivity.
  - vm_compute. reflexivity.
  - reflexivity.
  - vm_compute. reflexivity.
  - intros k line [Hlo Hhi] Hline. cbn in Hlo, Hhi.
    assert (k = 0%nat) as -> by lia.
    injection Hline as <-. vm_compute. reflexivity.
Defined.



Lemma rewrite_imports_frame_witness :
  let run := rewrite_imports diamond_main diamond_zip_paths diamond_state in
  let original := ["import " ++ PyStr.quoted "left.wdl";
                   "import " ++ PyStr.quoted "right.wdl"] in
  fst run <> OutOfFuel
  /\ heap (snd run) !! Document.source_lines diamond_main = Some original
  /\ (forall l v, heap diamond_state !! l = Some v -> heap (snd run) !! l = Some v)
  /\ forall new, fst run = Ok new ->
       heap diamond_state !! new = None
       /\ new <> Document.source_lines diamond_main
       /\ exists lines,
            heap (snd run) !! new = Some lines
            /\ length lines = length original
            /\ forall k,
                 (forall imp, In imp (Document.imports diamond_main) ->
                              ~ in_span imp k) ->
                 lines !! k = original !! k.
Proof.
  intros run original.
  apply (rewrite_imports_frame diamond_main diamond_zip_paths diamond_state
           original (fst run) (snd run)).
  - vm_compute. reflexivity.
  - apply surjective_pairing.
Defined.

(** * Properties of [unpack] *)

Lemma run_isfile (p : string) (st : State) :
  isfile p st
  = (Ok match file_at (fs st) (fs_key st p) with
        | Some _ => true
        | None => false
        end, st).
Proof. reflexivity. Qed.

Lemma run_path_really_within (lhs rhs : string) (st : State) :
  path_really_within lhs rhs st = (Ok (under (fs_key st rhs) (fs_key st lhs)), st).
Proof. reflexivity. Qed.

(** what [check_manifest] does, in terms of the safety check *)
Lemma run_check_manifest (archive_fn manifest_fn : string) (manifest : json)
    (url : string) (st : State) :
  manifest_get manifest "mainWorkflowURL" = Some (JString url) ->
  let dn := PosixPath.abspath (cwd st) (PosixPath.dirname manifest_fn) in
  let input_file_abs :=
    match manifest_input_file manifest with
    | Some (String c s) => Some (PosixPath.join dn (String c s))
    | _ => None
    end in
  check_manifest archive_fn manifest_fn manifest st
  = (if negb (acceptable st dn (PosixPath.join dn url))
        || match input_file_abs with
           | Some p => negb (acceptable st dn p)
           | None => false
           end
     then Raise (InputError ("MANIFEST.json refers to missing or invalid files in "
                             ++ archive_fn))
     else Ok (mkUnpackedZip dn (PosixPath.join dn url) input_file_abs), st).
Proof.
  intros Hurl dn input_file_abs.
  unfold check_manifest. unfold bind at 1. unfold get at 1.
  rewrite Hurl. unfold bind at 1. cbn [ret].
  fold dn. fold input_file_abs.
  unfold bind at 1. rewrite run_isfile.
  unfold bind at 1. rewrite run_path_really_within.
  unfold acceptable.
  destruct input_file_abs as [p|].
  - unfold bind at 1. unfold bind at 1. rewrite run_isfile.
    unfold bind at 1. rewrite run_path_really_within. cbn [ret].
    match goal with |- (if ?b then _ else _) _ = _ => destruct b end; reflexivity.
  - unfold bind at 1. cbn [ret].
    match goal with |- (if ?b then _ else _) _ = _ => destruct b end; reflexivity.
Qed.

Lemma run_unpack_enter (archive_fn : string) (st st1 st2 : State)
    (fns : string * string) (manifest : json) :
  locate_manifest archive_fn st = (Ok fns, st1) ->
  load_manifest (fst fns) (snd fns) st1 = (Ok manifest, st2) ->
  unpack_enter archive_fn st = check_manifest (fst fns) (snd fns) manifest st2.
Proof.
  intros Hloc Hload. unfold unpack_enter. unfold bind at 1. rewrite Hloc.
  unfold bind at 1. rewrite Hload. reflexivity.
Qed.

(** an exception before the [yield] leaves the body of the [with] statement
    unexecuted *)
Lemma unpack_raises {A} (archive_fn : string) (body : UnpackedZip -> M A)
    (st st1 : State) (e : exn) :
  unpack_enter archive_fn (set_exit_stack [] st) = (Raise e, st1) ->
  fst (unpack archive_fn body st) = Raise e.
Proof.
  intros H. unfold unpack, with_exit_stack. unfold bind at 1. rewrite H.
  destruct (for_each (exit_stack st1) rmtree st1). reflexivity.
Qed.

(** C5 (as amended): when the resolved [mainWorkflowURL], or the resolved
    first entry of [inputFileURLs] if that entry is a non-empty string, is not
    a regular file within the directory of the manifest, [unpack] raises the
    Input error and the body of the [with] statement gets no handle. *)
Theorem unpack_rejects_invalid_files (archive_fn : string) (st st1 st2 : State)
    (fns : string * string) (manifest : json) (url : string) :
  locate_manifest archive_fn (set_exit_stack [] st) = (Ok fns, st1) ->
  load_manifest (fst fns) (snd fns) st1 = (Ok manifest, st2) ->
  manifest_get manifest "mainWorkflowURL" = Some (JString url) ->
  let dn := PosixPath.abspath (cwd st2) (PosixPath.dirname (snd fns)) in
  acceptable st2 dn (PosixPath.join dn url) = false
  \/ (exists s, manifest_input_file manifest = Some s
                /\ s <> EmptyString
                /\ acceptable st2 dn (PosixPath.join dn s) = false) ->
  unpack_enter archive_fn (set_exit_stack [] st)
  = (Raise (InputError ("MANIFEST.json refers to missing or invalid files in "
                        ++ fst fns)), st2)
  /\ forall (A : Type) (body : UnpackedZip -> M A),
       fst (unpack archive_fn body st)
       = Raise (InputError ("MANIFEST.json refers to missing or invalid files in "
                            ++ fst fns)).
Proof.
  intros Hloc Hload Hurl dn Hbad.
  assert (Henter :
    unpack_enter archive_fn (set_exit_stack [] st)
    = (Raise (InputError ("MANIFEST.json refers to missing or invalid files in "
                          ++ fst fns)), st2)).
  { rewrite (run_unpack_enter _ _ _ _ _ _ Hloc Hload).
    rewrite (run_check_manifest _ _ _ _ _ Hurl). fold dn.
    destruct Hbad as [Hmain|(s & Hs & Hne & Hin)].
    - rewrite Hmain. reflexivity.
    - rewrite Hs. destruct s as [|c s]; [contradiction|].
      rewrite Hin. cbn [negb]. rewrite orb_true_r. reflexivity. }
  split; [exact Henter|].
  intros A body. eapply unpack_raises. exact Henter.
Qed.

(** C8: a manifest with [mainWorkflowURL] alone, whose main document passes
    the safety check, gives a handle without input file. *)
Theorem unpack_minimal_manifest (archive_fn : string) (st st1 st2 : State)
    (fns : string * string) (url : string) :
  locate_manifest archive_fn st = (Ok fns, st1) ->
  load_manifest (fst fns) (snd fns) st1
  = (Ok (JObject [("mainWorkflowURL", JString url)]), st2) ->
  let dn := PosixPath.abspath (cwd st2) (PosixPath.dirname (snd fns)) in
  acceptable st2 dn (PosixPath.join dn url) = true ->
  exists unpacked,
    unpack_enter archive_fn st = (Ok unpacked, st2)
    /\ input_file unpacked = None
    /\ dir unpacked = dn
    /\ main_wdl unpacked = PosixPath.join dn url.
Proof.
  intros Hloc Hload dn Hok.
  exists (mkUnpackedZip dn (PosixPath.join dn url) None).
  split; [|auto].
  rewrite (run_unpack_enter _ _ _ _ _ _ Hloc Hload).
  rewrite (run_check_manifest _ _ _ url) by reflexivity.
  fold dn. rewrite Hok. reflexivity.
Qed.

Lemma unpack_minimal_manifest_witness :
  exists unpacked,
    unpack_enter "/srv/wf" (manifest_state minimal_manifest)
    = (Ok unpacked, manifest_state minimal_manifest)
    /\ input_file unpacked = None
    /\ dir unpacked = "/srv/wf"
    /\ main_wdl unpacked = "/srv/wf/main.wdl".
Proof.
  apply (unpack_minimal_manifest "/srv/wf" (manifest_state minimal_manifest)
           (manifest_state minimal_manifest) (manifest_state minimal_manifest)
           ("/srv/wf/MANIFEST.json", "/srv/wf/MANIFEST.json") "main.wdl").
  - vm_compute. reflexivity.
  - vm_compute. reflexivity.
  - vm_compute. reflexivity.
Defined.

Lemma unpack_rejects_invalid_files_witness :
  unpack_enter "/srv/wf" (manifest_state traversal_manifest)
  = (Raise (InputError
              "MANIFEST.json refers to missing or invalid files in /srv/wf/MANIFEST.json"),
     manifest_state traversal_manifest)
  /\ forall (A : Type) (body : UnpackedZip -> M A),
       fst (unpack "/srv/wf" body (manifest_state traversal_manifest))
       = Raise (InputError
                  "MANIFEST.json refers to missing or invalid files in /srv/wf/MANIFEST.json").
Proof.
  apply (unpack_rejects_invalid_files "/srv/wf" (manifest_state traversal_manifest)
           (manifest_state traversal_manifest) (manifest_state traversal_manifest)
           ("/srv/wf/MANIFEST.json", "/srv/wf/MANIFEST.json")
           traversal_manifest "../../etc/passwd").
  - vm_compute. reflexivity.
  - vm_compute. reflexivity.
  - reflexivity.
  - left. vm_compute. reflexivity.
Defined.

(** C5 fails as stated: the first entry of [inputFileURLs] is the empty
    string, which resolves to the directory of the manifest and not to a
    regular file, and [unpack] hands out a handle all the same. *)
Lemma unpack_accepts_empty_input_entry :
  manifest_input_file empty_input_manifest = Some EmptyString
  /\ PosixPath.join "/srv/wf" EmptyString = "/srv/wf/"
  /\ acceptable (manifest_state empty_input_manifest) "/srv/wf" "/srv/wf/" = false
  /\ fst (unpack "/srv/wf" (fun unpacked => ret unpacked)
                 (manifest_state empty_input_manifest))
     = Ok (mkUnpackedZip "/srv/wf" "/srv/wf/main.wdl" None).
Proof. repeat split; vm_compute; reflexivity. Qed.

(** * Paths below a directory *)

Lemma str_app_assoc (a b c : string) : (a ++ b) ++ c = a ++ (b ++ c).
Proof.
  induction a as [|x a IH]; [reflexivity|].
  change (String x ((a ++ b) ++ c) = String x (a ++ (b ++ c))). now rewrite IH.
Qed.

Lemma str_app_nil_r (a : string) : a ++ EmptyString = a.
Proof.
  induction a as [|x a IH]; [reflexivity|].
  change (String x (a ++ EmptyString) = String x a). now rewrite IH.
Qed.

Lemma str_app_cons (x : ascii) (a b : string) :
  String x a ++ b = String x (a ++ b).
Proof. reflexivity. Qed.

Lemma startswith_app (a b : string) : PyStr.startswith (a ++ b) a = true.
Proof.
  induction a as [|x a IH]; [destruct b; reflexivity|].
  rewrite str_app_cons. cbn [PyStr.startswith].
  rewrite Ascii.eqb_refl. exact IH.
Qed.

Lemma startswith_nil (s : string) : PyStr.startswith s EmptyString = true.
Proof. destruct s; reflexivity. Qed.

Lemma split_not_nil (c : ascii) (s : string) : PyStr.split c s <> [].
Proof.
  induction s as [|x s IH]; cbn [PyStr.split]; [discriminate|].
  destruct (Ascii.eqb x c); [discriminate|].
  destruct (PyStr.split c s); [contradiction|discriminate].
Qed.

(** splitting at a separator splits the list of components *)
Lemma split_app_sep (c : ascii) (a b : string) :
  PyStr.split c (a ++ String c b) = (PyStr.split c a ++ PyStr.split c b)%list.
Proof.
  induction a as [|x a IH].
  - change (EmptyString ++ String c b) with (String c b).
    cbn [PyStr.split]. now rewrite Ascii.eqb_refl.
  - rewrite str_app_cons. cbn [PyStr.split]. rewrite IH.
    destruct (Ascii.eqb x c); [reflexivity|].
    pose proof (split_not_nil c a) as Hne.
    destruct (PyStr.split c a) as [|w ws]; [contradiction|reflexivity].
Qed.

Lemma normpath_comps_app (i : nat) (l1 l2 acc : list string) :
  PosixPath.normpath_comps i (l1 ++ l2) acc
  = PosixPath.normpath_comps i l2 (PosixPath.normpath_comps i l1 acc).
Proof.
  revert acc. induction l1 as [|c l1 IH]; intros acc; [reflexivity|].
  cbn [app PosixPath.normpath_comps].
  repeat match goal with |- context [if ?b then _ else _] => destruct b end;
    apply IH.
Qed.

(** without a [..] the components are only appended *)
Lemma normpath_comps_no_pardir (i : nat) (l acc : list string) :
  forallb (fun c => negb (String.eqb c "..")) l = true ->
  PosixPath.normpath_comps i l acc = (acc ++ List.filter kept l)%list.
Proof.
  revert acc. induction l as [|c l IH]; intros acc H.
  - cbn. now rewrite app_nil_r.
  - cbn [forallb] in H. apply andb_true_iff in H. destruct H as [Hc Hl].
    cbn [PosixPath.normpath_comps List.filter]. unfold kept at 1.
    destruct (String.eqb c EmptyString || String.eqb c PosixPath.curdir);
      cbn [negb]; [now apply IH|].
    change PosixPath.pardir with "..". rewrite Hc. cbn [orb].
    rewrite IH by assumption. now rewrite <- app_assoc.
Qed.

Lemma join_app (sep : string) (l1 l2 : list string) :
  l1 <> [] -> l2 <> [] ->
  PyStr.join sep (l1 ++ l2) = PyStr.join sep l1 ++ sep ++ PyStr.join sep l2.
Proof.
  intros H1 H2. induction l1 as [|w l1 IH]; [contradiction|].
  destruct l1 as [|w' l1].
  - destruct l2; [contradiction|reflexivity].
  - change (w ++ sep ++ PyStr.join sep ((w' :: l1) ++ l2)
            = (w ++ sep ++ PyStr.join sep (w' :: l1)) ++ sep ++ PyStr.join sep l2).
    rewrite IH by discriminate. now rewrite !str_app_assoc.
Qed.

Lemma initial_slashes_app (d s : string) :
  PyStr.startswith d "/" = true ->
  PyStr.endswith d "/" = false ->
  PosixPath.initial_slashes (d ++ s) = PosixPath.initial_slashes d.
Proof.
  intros Habs Hend.
  destruct d as [|c0 d]; [discriminate|].
  cbn [PyStr.startswith] in Habs. apply andb_true_iff in Habs.
  destruct Habs as [Habs _]. apply Ascii.eqb_eq in Habs. subst c0.
  destruct d as [|c1 d]; [discriminate|].
  destruct d as [|c2 d].
  { destruct (Ascii.eqb "/" c1) eqn:E.
    - apply Ascii.eqb_eq in E. subst. discriminate.
    - unfold PosixPath.initial_slashes. rewrite !str_app_cons.
      change PosixPath.sep with "/". change ("/" ++ "/") with "//".
      cbn [PyStr.startswith]. rewrite E. reflexivity. }
  unfold PosixPath.initial_slashes. rewrite !str_app_cons.
  change PosixPath.sep with "/". change ("/" ++ "/" ++ "/") with "///".
  change ("/" ++ "/") with "//".
  cbn [PyStr.startswith]. rewrite !startswith_nil.
  destruct (Ascii.eqb "/" "/"), (Ascii.eqb "/" c1), (Ascii.eqb "/" c2);
    reflexivity.
Qed.

Lemma join_relative (d p : string) :
  PyStr.startswith d "/" = true ->
  PyStr.endswith d "/" = false ->
  PyStr.startswith p "/" = false ->
  PosixPath.join d p = d ++ "/" ++ p.
Proof.
  intros Habs Hend Hp. unfold PosixPath.join.
  change PosixPath.sep with "/". rewrite Hp, Hend.
  destruct d; [discriminate|reflexivity].
Qed.

(** what lies at a safe relative path below a clean directory is below
    that directory *)
Lemma staged_under (cwd k d p : string) :
  clean_tmp k d = true ->
  safe_relative p = true ->
  under d (PosixPath.abspath cwd (PosixPath.join d p)) = true.
Proof.
  unfold clean_tmp, safe_relative. intros Hd Hp.
  apply andb_true_iff in Hd. destruct Hd as [Hd _].
  apply andb_true_iff in Hd. destruct Hd as [Hd Hend].
  apply andb_true_iff in Hd. destruct Hd as [Hnorm Habs].
  apply negb_true_iff in Hend. apply String.eqb_eq in Hnorm.
  apply andb_true_iff in Hp. destruct Hp as [Hrel Hcomps].
  apply negb_true_iff in Hrel.
  rewrite (join_relative d p Habs Hend Hrel).
  assert (Habs' : PosixPath.isabs (d ++ "/" ++ p) = true).
  { unfold PosixPath.isabs. destruct d as [|c d]; [discriminate|].
    rewrite str_app_cons. change PosixPath.sep with "/".
    cbn [PyStr.startswith] in Habs |- *.
    apply andb_true_iff in Habs. destruct Habs as [-> _].
    now rewrite startswith_nil. }
  unfold PosixPath.abspath. rewrite Habs'.
  (* the normal form of [d] *)
  set (i := PosixPath.initial_slashes d) in *.
  set (Sd := PosixPath.normpath_comps i (PyStr.split PyStr.slash d) []).
  assert (Hdne : String.eqb d EmptyString = false)
    by (destruct d; [discriminate|reflexivity]).
  assert (Hdform : d = PyStr.repeat PyStr.slash i ++ PyStr.join "/" Sd).
  { unfold PosixPath.normpath in Hnorm. rewrite Hdne in Hnorm.
    fold i in Hnorm. fold Sd in Hnorm. cbv zeta in Hnorm.
    change PosixPath.sep with "/" in Hnorm.
    destruct (String.eqb (PyStr.repeat PyStr.slash i ++ PyStr.join "/" Sd)
                         EmptyString).
    - subst d. discriminate.
    - now symmetry. }
  assert (HSd : Sd <> []).
  { intros E. rewrite E in Hdform. cbn [PyStr.join] in Hdform.
    rewrite str_app_nil_r in Hdform.
    assert (Hi : i = 1%nat \/ i = 2%nat).
    { unfold i, PosixPath.initial_slashes. change PosixPath.sep with "/".
      rewrite Habs.
      match goal with |- context [if ?b then _ else _] => destruct b end; auto. }
    destruct Hi as [Hi|Hi]; rewrite Hi in Hdform; subst d; discriminate. }
  (* the normal form of [d/p] *)
  unfold PosixPath.normpath.
  assert (Hxne : String.eqb (d ++ "/" ++ p) EmptyString = false)
    by (destruct d; [discriminate|reflexivity]).
  rewrite Hxne. rewrite (initial_slashes_app d ("/" ++ p) Habs Hend). fold i.
  change ("/" ++ p) with (String PyStr.slash p).
  rewrite split_app_sep, normpath_comps_app. fold Sd.
  rewrite (normpath_comps_no_pardir i _ Sd Hcomps).
  cbv zeta. change PosixPath.sep with "/".
  destruct (List.filter kept (PyStr.split PyStr.slash p)) as [|f fs] eqn:EF.
  - rewrite app_nil_r, <- Hdform, Hdne.
    unfold under. now rewrite String.eqb_refl.
  - rewrite join_app by (auto; discriminate).
    rewrite <- str_app_assoc, <- Hdform.
    assert (Hne2 : String.eqb (d ++ "/" ++ PyStr.join "/" (f :: fs)) EmptyString
                   = false)
      by (destruct d; [discriminate|reflexivity]).
    rewrite Hne2. unfold under. rewrite Hend.
    rewrite <- str_app_assoc, startswith_app. apply orb_true_r.
Qed.

Lemma clean_tmp_key (cwd k d : string) :
  clean_tmp k d = true -> PosixPath.abspath cwd d = d.
Proof.
  unfold clean_tmp. intros Hd.
  apply andb_true_iff in Hd. destruct Hd as [Hd _].
  apply andb_true_iff in Hd. destruct Hd as [Hd _].
  apply andb_true_iff in Hd. destruct Hd as [Hnorm Habs].
  unfold PosixPath.abspath, PosixPath.isabs. change PosixPath.sep with "/".
  rewrite Habs. now apply String.eqb_eq.
Qed.

Lemma clean_tmp_not_under (k d : string) :
  clean_tmp k d = true -> under d k = false.
Proof.
  unfold clean_tmp. intros Hd.
  apply andb_true_iff in Hd. destruct Hd as [_ Hd].
  now apply negb_true_iff.
Qed.

(** ... and so it is not the key [k] *)
Lemma staged_not_key (cwd k d p : string) :
  clean_tmp k d = true ->
  safe_relative p = true ->
  PosixPath.abspath cwd (PosixPath.join d p) <> k.
Proof.
  intros Hd Hp E.
  pose proof (staged_under cwd k d p Hd Hp) as H. rewrite E in H.
  rewrite (clean_tmp_not_under k d Hd) in H. discriminate.
Qed.

(** * Rules for pre- and postconditions *)

Lemma triple_ret {A} (P : State -> Prop) (a : A) (Q : A -> State -> Prop)
    (E : State -> Prop) :
  (forall st, P st -> Q a st) -> triple P (ret a) Q E.
Proof. intros H st r st' HP Hr. injection Hr as <- <-. auto. Qed.

Lemma triple_raise {A} (P : State -> Prop) (e : exn) (Q : A -> State -> Prop)
    (E : State -> Prop) :
  (forall st, P st -> E st) -> triple P (raise e) Q E.
Proof. intros H st r st' HP Hr. injection Hr as <- <-. auto. Qed.

Lemma triple_out_of_fuel {A} (P : State -> Prop) (Q : A -> State -> Prop)
    (E : State -> Prop) :
  (forall st, P st -> E st) -> triple P out_of_fuel Q E.
Proof. intros H st r st' HP Hr. injection Hr as <- <-. auto. Qed.

Lemma triple_bind {A B} (P : State -> Prop) (m : M A) (k : A -> M B)
    (Q1 : A -> State -> Prop) (Q : B -> State -> Prop) (E : State -> Prop) :
  triple P m Q1 E -> (forall a, triple (Q1 a) (k a) Q E) ->
  triple P (bind m k) Q E.
Proof.
  intros Hm Hk st r st' HP Hr. apply bind_inv in Hr.
  destruct Hr as [(a & st1 & H1 & H2)|[(e & H1 & ->)|[H1 ->]]].
  - eapply Hk; [|exact H2]. exact (Hm _ _ _ HP H1).
  - exact (Hm _ _ _ HP H1).
  - exact (Hm _ _ _ HP H1).
Qed.

Lemma triple_get (P : State -> Prop) (E : State -> Prop) :
  triple P get (fun s st => s = st /\ P st) E.
Proof. intros st r st' HP Hr. injection Hr as <- <-. auto. Qed.

Lemma triple_modify (P : State -> Prop) (f : State -> State)
    (Q : unit -> State -> Prop) (E : State -> Prop) :
  (forall st, P st -> Q tt (f st)) -> triple P (modify f) Q E.
Proof. intros H st r st' HP Hr. injection Hr as <- <-. auto. Qed.

Lemma triple_conseq {A} (P P' : State -> Prop) (m : M A)
    (Q Q' : A -> State -> Prop) (E E' : State -> Prop) :
  (forall st, P' st -> P st) ->
  (forall a st, Q a st -> Q' a st) ->
  (forall st, E st -> E' st) ->
  triple P m Q E -> triple P' m Q' E'.
Proof.
  intros HP HQ HE Hm st r st' HP' Hr. specialize (Hm st r st' (HP _ HP') Hr).
  destruct r; auto.
Qed.

(** a fact that does not depend on the state can be taken out of the
    precondition *)
Lemma triple_pure {A} (F : Prop) (P : State -> Prop) (m : M A)
    (Q : A -> State -> Prop) (E : State -> Prop) :
  (F -> triple P m Q E) -> triple (fun st => F /\ P st) m Q E.
Proof. intros H st r st' [HF HP] Hr. exact (H HF st r st' HP Hr). Qed.

Lemma triple_assert (P : State -> Prop) (b : bool) (E : State -> Prop) :
  (forall st, P st -> E st) ->
  triple P (assert b) (fun _ st => b = true /\ P st) E.
Proof.
  intros HE. destruct b; [apply triple_ret|apply triple_raise]; auto.
Qed.

Lemma triple_for_each {A} (I : State -> Prop) (l : list A)
    (body : A -> M unit) (E : State -> Prop) :
  (forall x, In x l -> triple I (body x) (fun _ => I) E) ->
  triple I (for_each l body) (fun _ => I) E.
Proof.
  induction l as [|x l IH]; intros Hb; cbn [for_each].
  - apply triple_ret. auto.
  - eapply triple_bind; [apply Hb; now left|].
    intros u. apply IH. intros y Hy. apply Hb. now right.
Qed.

Lemma triple_for_fold {A B} (J : B -> State -> Prop) (l : list A)
    (body : B -> A -> M B) (E : State -> Prop) :
  (forall x acc, In x l -> triple (J acc) (body acc x) J E) ->
  forall acc, triple (J acc) (for_fold l acc body) J E.
Proof.
  induction l as [|x l IH]; intros Hb acc; cbn [for_fold].
  - apply triple_ret. auto.
  - eapply triple_bind; [apply Hb; now left|].
    intros acc'. apply IH. intros y acc'' Hy. apply Hb. now right.
Qed.

(** a computation that relates the states by [R] takes [P] to whatever [R]
    makes of it *)
Lemma triple_preserves {A} (R : State -> State -> Prop) (P P' : State -> Prop)
    (m : M A) :
  preserves R m ->
  (forall st st', P st -> R st st' -> P' st') ->
  triple P m (fun _ => P') P'.
Proof.
  intros Hm HR st r st' HP Hr. pose proof (HR _ _ HP (Hm _ _ _ Hr)).
  destruct r; assumption.
Qed.

Lemma same_world_refl (st : State) : same_world st st.
Proof. unfold same_world. auto. Qed.

Lemma same_world_trans (a b c : State) :
  same_world a b -> same_world b c -> same_world a c.
Proof. unfold same_world. intuition congruence. Qed.

Lemma same_files_refl (st : State) : same_files st st.
Proof. unfold same_files. repeat split; reflexivity. Qed.

Lemma same_files_trans (a b c : State) :
  same_files a b -> same_files b c -> same_files a c.
Proof.
  unfold same_files. intros (D1 & C1 & T1 & E1 & F1) (D2 & C2 & T2 & E2 & F2).
  split; [congruence|]. split; [congruence|]. split; [congruence|].
  split; [congruence|]. intros key. now rewrite F2, F1.
Qed.

Lemma same_world_files (a b : State) : same_world a b -> same_files a b.
Proof.
  unfold same_world, same_files. intros (D & C & F & T & E).
  split; [auto|]. split; [auto|]. split; [auto|]. split; [auto|].
  intros key. now rewrite F.
Qed.

Lemma build_invariant_same_files (cwd0 : string) (docs0 : gmap nat Document.t)
    (k : string) (o0 : option content) (st st' : State) :
  build_invariant cwd0 docs0 k o0 st -> same_files st st' ->
  build_invariant cwd0 docs0 k o0 st'.
Proof.
  unfold build_invariant, same_files.
  intros (C & D & F & T & X) (D1 & C1 & T1 & E1 & F1).
  split; [congruence|]. split; [congruence|]. split; [now rewrite F1|].
  split; congruence.
Qed.

Lemma str_length_app (a b : string) :
  String.length (a ++ b) = (String.length a + String.length b)%nat.
Proof.
  induction a as [|x a IH]; [reflexivity|].
  rewrite str_app_cons. cbn [String.length]. now rewrite IH.
Qed.

Lemma has_sep_cons (c : ascii) (s : string) :
  PosixPath.has_sep (String c s) = Ascii.eqb "/" c || PosixPath.has_sep s.
Proof.
  unfold PosixPath.has_sep. change PosixPath.sep with "/".
  cbn [PyStr.contains PyStr.startswith]. now rewrite startswith_nil, andb_true_r.
Qed.

Lemma no_sep_relative (s : string) :
  PosixPath.has_sep s = false -> PyStr.startswith s "/" = false.
Proof.
  destruct s as [|c s]; [reflexivity|].
  rewrite has_sep_cons. intros H. apply orb_false_iff in H. destruct H as [H _].
  cbn [PyStr.startswith]. now rewrite H.
Qed.

Lemma no_sep_split (s : string) :
  PosixPath.has_sep s = false -> PyStr.split PyStr.slash s = [s].
Proof.
  induction s as [|c s IH]; [reflexivity|].
  rewrite has_sep_cons. intros H. apply orb_false_iff in H. destruct H as [Hc Hs].
  cbn [PyStr.split]. unfold PyStr.slash. rewrite Ascii.eqb_sym, Hc.
  fold PyStr.slash. now rewrite (IH Hs).
Qed.

Lemma no_sep_app (a b : string) :
  PosixPath.has_sep a = false -> PosixPath.has_sep b = false ->
  PosixPath.has_sep (a ++ b) = false.
Proof.
  intros Ha Hb. induction a as [|c a IH]; [exact Hb|].
  rewrite str_app_cons, has_sep_cons. rewrite has_sep_cons in Ha.
  apply orb_false_iff in Ha. destruct Ha as [Hc Ha]. now rewrite Hc, IH.
Qed.

Lemma basename_no_sep (p : string) : PosixPath.has_sep (PosixPath.basename p) = false.
Proof.
  induction p as [|c p IH]; [reflexivity|].
  cbn [PosixPath.basename]. destruct (PosixPath.has_sep p) eqn:Hp; [exact IH|].
  destruct (Ascii.eqb c PyStr.slash) eqn:Hc; [exact Hp|].
  rewrite has_sep_cons, Hp. unfold PyStr.slash in Hc.
  now rewrite Ascii.eqb_sym, Hc.
Qed.

(** a single component that is more than two characters long *)
Lemma safe_relative_component (s : string) :
  PosixPath.has_sep s = false -> (2 < String.length s)%nat ->
  safe_relative s = true.
Proof.
  intros Hs Hlen. unfold safe_relative.
  rewrite (no_sep_relative s Hs), (no_sep_split s Hs). cbn [negb forallb andb].
  destruct (String.eqb s "..") eqn:E; [|reflexivity].
  apply String.eqb_eq in E. subst s. cbn in Hlen. lia.
Qed.

Lemma archive_extension_spec (format ext : string) :
  archive_extension format = Some ext ->
  PosixPath.has_sep ext = false /\ (2 < String.length ext)%nat.
Proof.
  unfold archive_extension.
  repeat match goal with |- context [if ?b then _ else _] => destruct b end;
    intros H; try discriminate; injection H as <-; split; try reflexivity; cbn; lia.
Qed.

Lemma join_app_extension (d b ext : string) :
  PyStr.startswith d "/" = true ->
  PyStr.endswith d "/" = false ->
  PosixPath.has_sep b = false ->
  PosixPath.has_sep ext = false ->
  PosixPath.join d b ++ ext = PosixPath.join d (b ++ ext).
Proof.
  intros Habs Hend Hb Hext.
  rewrite (join_relative d b Habs Hend (no_sep_relative b Hb)).
  rewrite (join_relative d (b ++ ext) Habs Hend
             (no_sep_relative _ (no_sep_app b ext Hb Hext))).
  now rewrite !str_app_assoc.
Qed.

Lemma clean_tmp_shape (k d : string) :
  clean_tmp k d = true ->
  PyStr.startswith d "/" = true /\ PyStr.endswith d "/" = false.
Proof.
  unfold clean_tmp. intros Hd.
  apply andb_true_iff in Hd. destruct Hd as [Hd _].
  apply andb_true_iff in Hd. destruct Hd as [Hd Hend].
  apply andb_true_iff in Hd. destruct Hd as [_ Habs].
  split; [exact Habs|now apply negb_true_iff].
Qed.

(** the archive file made in a clean directory is below it *)
Lemma archive_not_key (cwd k d b format ext : string) :
  clean_tmp k d = true ->
  PosixPath.has_sep b = false ->
  archive_extension format = Some ext ->
  PosixPath.abspath cwd (PosixPath.join d b ++ ext) <> k.
Proof.
  intros Hd Hb Hext.
  destruct (archive_extension_spec _ _ Hext) as [Hsep Hlen].
  destruct (clean_tmp_shape k d Hd) as [Habs Hend].
  rewrite (join_app_extension d b ext Habs Hend Hb Hsep).
  apply staged_not_key; [exact Hd|].
  apply safe_relative_component; [now apply no_sep_app|].
  rewrite str_length_app. lia.
Qed.

Lemma triple_reader {A} (P : State -> Prop) (m : M A) :
  (forall st r st', m st = (r, st') -> st' = st) ->
  triple P m (fun _ => P) P.
Proof.
  intros Hm st r st' HP Hr. rewrite (Hm _ _ _ Hr). destruct r; exact HP.
Qed.

Lemma triple_deref (P : State -> Prop) (r : nat) :
  triple P (deref r) (fun d st => docs st !! r = Some d /\ P st) P.
Proof.
  intros st res st' HP H. rewrite run_deref in H.
  destruct (docs st !! r) eqn:E; injection H as <- <-; auto.
Qed.

Lemma triple_getitem {V} (P : State -> Prop) (d : Dict.t V) (key : string) :
  triple P (Dict.getitem d key) (fun v st => Dict.get d key = Some v /\ P st) P.
Proof.
  intros st res st' HP H. rewrite run_getitem in H.
  destruct (Dict.get d key) eqn:E; injection H as <- <-; auto.
Qed.

Lemma triple_list_read (P : State -> Prop) (l : nat) :
  triple P (list_read l) (fun _ => P) P.
Proof.
  apply triple_reader. intros st r st' H. unfold list_read, bind, get in H.
  destruct (heap st !! l); now injection H as _ <-.
Qed.

(** * What the parts of [build] do to the file system *)

Lemma modify_heap_same_world (h : State -> gmap nat (list string)) :
  preserves same_world (modify (fun st => set_heap (h st) st)).
Proof.
  intros st r st' H. injection H as _ <-. unfold same_world. cbn. auto.
Qed.

Lemma modify_log_same_world (l : State -> list (level * string)) :
  preserves same_world (modify (fun st => set_log (l st) st)).
Proof.
  intros st r st' H. injection H as _ <-. unfold same_world. cbn. auto.
Qed.

Lemma modify_faults_same_world (l : list bool) :
  preserves same_world (modify (set_faults l)).
Proof.
  intros st r st' H. injection H as _ <-. unfold same_world. cbn. auto.
Qed.

Ltac same_world_tac :=
  preserve_with same_world_refl same_world_trans
    ltac:(first [ apply modify_heap_same_world
                | apply modify_log_same_world
                | apply modify_faults_same_world
                | apply (preserves_for_each _ same_world_refl same_world_trans)
                | apply (preserves_for_fold _ same_world_refl same_world_trans) ]).

Lemma logger_same_world (lv : level) (msg : string) :
  preserves same_world (logger lv msg).
Proof. unfold logger. same_world_tac. Qed.

Lemma os_call_same_world (what : string) : preserves same_world (os_call what).
Proof. unfold os_call. same_world_tac. Qed.

Lemma rewrite_imports_same_world (doc : Document.t) (zip_paths : Dict.t string) :
  preserves same_world (rewrite_imports doc zip_paths).
Proof.
  unfold rewrite_imports, rewrite_import, rewrite_line, list_copy, list_getitem,
    list_setitem, list_read, deref, Dict.getitem, logger.
  same_world_tac.
Qed.

Lemma Dict_get_set {V} (d : Dict.t V) (k : string) (v : V) (key : string) :
  Dict.get (Dict.set d k v) key
  = if String.eqb k key then Some v else Dict.get d key.
Proof.
  induction d as [|[k' v'] d IH]; cbn [Dict.set Dict.get].
  - reflexivity.
  - destruct (String.eqb k' k) eqn:E; cbn [Dict.get].
    + apply String.eqb_eq in E. subst k'.
      destruct (String.eqb k key); reflexivity.
    + destruct (String.eqb k' key) eqn:E2; [|exact IH].
      apply String.eqb_eq in E2. subst k'.
      rewrite String.eqb_sym, E. reflexivity.
Qed.

Lemma Dict_get_keys {V} (d : Dict.t V) (key : string) (v : V) :
  Dict.get d key = Some v -> In key (Dict.keys d).
Proof.
  induction d as [|[k' v'] d IH]; cbn [Dict.get Dict.keys List.map fst].
  - discriminate.
  - destruct (String.eqb k' key) eqn:E.
    + apply String.eqb_eq in E. now left.
    + intros H. right. exact (IH H).
Qed.

Lemma Dict_get_In {V} (d : Dict.t V) (key : string) (v : V) :
  Dict.get d key = Some v -> In (key, v) d.
Proof.
  induction d as [|[k' v'] d IH]; cbn [Dict.get].
  - discriminate.
  - destruct (String.eqb k' key) eqn:E.
    + apply String.eqb_eq in E. intros H. injection H as <-. subst. now left.
    + intros H. right. exact (IH H).
Qed.

(** the collection loop reads the heap of documents and nothing else; the
    keys it enters are paths of documents of the heap *)
Lemma collect_spec (fuel : nat) :
  forall (q : list nat) (w : Dict.t nat) (st : State) (r : result (Dict.t nat))
         (st' : State),
    collect fuel q w st = (r, st') ->
    st' = st
    /\ forall wdls, r = Ok wdls ->
         (forall p, In p (Dict.keys w) -> from_heap (docs st) p) ->
         forall p, In p (Dict.keys wdls) -> from_heap (docs st) p.
Proof.
  induction fuel as [|fuel IH]; intros q w st r st' H.
  - destruct q; injection H as <- <-; (split; [reflexivity|]).
    + intros wdls Hw. injection Hw as <-. auto.
    + discriminate.
  - destruct q as [|x q].
    + injection H as <- <-. split; [reflexivity|].
      intros wdls Hw. injection Hw as <-. auto.
    + cbn [collect] in H. unfold bind at 1 in H. rewrite run_deref in H.
      destruct (docs st !! List.last (x :: q) x) as [d|] eqn:Hd.
      * apply IH in H. destruct H as [-> H]. split; [reflexivity|].
        intros wdls Hw Hkeys. apply (H wdls Hw).
        intros p Hp. apply Dict_keys_set in Hp. destruct Hp as [->|Hp]; [|auto].
        exists (List.last (x :: q) x), d. auto.
      * injection H as <- <-. split; [reflexivity|]. discriminate.
Qed.

Section BuildSteps.

Variable cwd0 : string.
Variable docs0 : gmap nat Document.t.
Variable k : string.
Variable o0 : option content.

Let Inv : State -> Prop := build_invariant cwd0 docs0 k o0.

Lemma Inv_same_world (st st' : State) : Inv st -> same_world st st' -> Inv st'.
Proof using Type.
  intros H Hw. eapply build_invariant_same_files; [exact H|].
  now apply same_world_files.
Qed.

Lemma triple_same_world {A} (m : M A) :
  preserves same_world m -> triple Inv m (fun _ => Inv) Inv.
Proof using Type.
  intros Hm. eapply triple_preserves; [exact Hm|]. apply Inv_same_world.
Qed.

Lemma triple_same_files {A} (m : M A) :
  preserves same_files m -> triple Inv m (fun _ => Inv) Inv.
Proof using Type.
  intros Hm. eapply triple_preserves; [exact Hm|].
  apply build_invariant_same_files.
Qed.

(** [build_zip_paths] writes the log only, and its result holds the
    archive paths of the keys of [wdls] *)
Lemma build_zip_paths_spec (main_dir : string) (wdls : Dict.t nat) :
  triple Inv (build_zip_paths main_dir wdls)
         (fun zip_paths st => Inv st /\ entries_of cwd0 main_dir wdls zip_paths)
         Inv.
Proof using Type.
  unfold build_zip_paths.
  set (J := fun (acc : Dict.t string * bool) (st : State) =>
              Inv st /\ entries_of cwd0 main_dir wdls (fst acc)).
  eapply triple_bind with (Q1 := J).
  - eapply triple_conseq with (P := J ([], false)) (Q := J) (E := Inv);
      [|auto|auto|].
    + intros st H. split; [exact H|]. intros key p Hget. discriminate.
    + apply triple_for_fold. intros abspath [ans warn] Hin. unfold J. cbn [fst].
      intros st r st' [HI Hent] Hr.
      unfold bind at 1 in Hr. unfold get at 1 in Hr.
      unfold bind at 1 in Hr. unfold lift in Hr.
      destruct (zip_path (cwd st) main_dir abspath) as [p| |] eqn:Hzp.
      * unfold bind at 1 in Hr.
        destruct (logger INFO (p ++ " <= " ++ abspath) st) as [r1 st1] eqn:Hl.
        pose proof (logger_same_world _ _ _ _ _ Hl) as Hw.
        unfold logger, modify in Hl. injection Hl as <- <-.
        injection Hr as <- <-. split; [eapply Inv_same_world; eauto|].
        cbn [fst]. intros key v Hget. rewrite Dict_get_set in Hget.
        destruct (String.eqb abspath key) eqn:E.
        -- apply String.eqb_eq in E. subst key. injection Hget as <-.
           split; [exact Hin|]. destruct HI as [<- _]. exact Hzp.
        -- apply Hent. exact Hget.
      * injection Hr as <- <-. exact HI.
      * injection Hr as <- <-. exact HI.
  - intros [ans warn]. unfold J. cbn [fst snd].
    eapply triple_bind with
      (Q1 := fun _ st => Inv st /\ entries_of cwd0 main_dir wdls ans).
    + intros st r st' [HI Hent] Hr.
      assert (Hw : same_world st st').
      { destruct warn; [exact (logger_same_world _ _ _ _ _ Hr)|].
        injection Hr as _ <-. apply same_world_refl. }
      assert (Inv st') by (eapply Inv_same_world; eauto).
      destruct r; auto.
    + intros u. apply triple_ret. auto.
Qed.

Lemma file_at_insert_dir (f : gmap string node) (a key : string) :
  f !! a = None -> file_at (<[a := Dir]> f) key = file_at f key.
Proof using Type.
  intros Ha. unfold file_at. destruct (decide (a = key)) as [->|Hne].
  - now rewrite lookup_insert_eq, Ha.
  - now rewrite lookup_insert_ne.
Qed.

Lemma file_at_insert_file (f : gmap string node) (a key : string) (c : content) :
  a <> key -> file_at (<[a := File c]> f) key = file_at f key.
Proof using Type. intros Hne. unfold file_at. now rewrite lookup_insert_ne. Qed.

(** [makedirs] creates directories where there was nothing *)
Lemma makedirs_same_files (p : string) : preserves same_files (makedirs p).
Proof using Type.
  unfold makedirs.
  apply (preserves_bind _ same_files_trans).
  { eapply preserves_weaken; [apply same_world_files|apply os_call_same_world]. }
  intros u. destruct (String.eqb p EmptyString).
  { apply (preserves_raise _ same_files_refl). }
  apply (preserves_bind _ same_files_trans);
    [apply (preserves_get _ same_files_refl)|].
  intros st0.
  apply (preserves_for_each _ same_files_refl same_files_trans).
  intros a _ st r st' H. unfold bind, get in H.
  destruct (fs st !! a) as [[c|]|] eqn:Ha.
  - injection H as _ <-. apply same_files_refl.
  - injection H as _ <-. apply same_files_refl.
  - injection H as _ <-. unfold same_files. cbn.
    repeat (split; [reflexivity|]). intros key.
    now apply file_at_insert_dir.
Qed.

(** writing a file elsewhere than at the destination *)
Lemma write_file_spec (p : string) (c : content) :
  PosixPath.abspath cwd0 p <> k ->
  triple Inv (write_file p c)
         (fun _ st => Inv st /\ file_at (fs st) (PosixPath.abspath cwd0 p) = Some c)
         Inv.
Proof using Type.
  intros Hne. unfold write_file.
  eapply triple_bind; [apply triple_same_world, os_call_same_world|].
  intros u st r st' HI H. unfold bind, get in H.
  destruct (is_dir (fs st) (fs_key st p)
            || negb (is_dir (fs st) (PosixPath.dirname (fs_key st p)))).
  - injection H as <- <-. exact HI.
  - injection H as <- <-.
    destruct HI as (C & D & F & T & X). unfold fs_key. rewrite C. cbn.
    split.
    + unfold Inv, build_invariant. cbn.
      repeat (split; [assumption|]).
      split; [|split; assumption].
      rewrite file_at_insert_file; assumption.
    + unfold file_at. now rewrite lookup_insert_eq.
Qed.

Lemma write_file_keeps (p : string) (c : content) :
  PosixPath.abspath cwd0 p <> k ->
  triple Inv (write_file p c) (fun _ => Inv) Inv.
Proof using Type.
  intros Hne.
  eapply triple_conseq; [| | |apply (write_file_spec p c Hne)]; auto.
  now intros a st [H _].
Qed.

Lemma rmtree_spec (d : string) (st : State) :
  clean_tmp k d = true ->
  cwd st = cwd0 ->
  exists st',
    rmtree d st = (Ok tt, st')
    /\ cwd st' = cwd0
    /\ exit_stack st' = exit_stack st
    /\ file_at (fs st') k = file_at (fs st) k.
Proof using Type.
  intros Hd Hc. eexists. split; [reflexivity|]. cbn.
  split; [assumption|]. split; [reflexivity|].
  unfold fs_key. rewrite Hc, (clean_tmp_key cwd0 k d Hd).
  pose proof (clean_tmp_not_under k d Hd) as Hu.
  unfold file_at. destruct (fs st !! k) as [n|] eqn:E.
  - erewrite map_lookup_filter_Some_2; [reflexivity|exact E|exact Hu].
  - rewrite map_lookup_filter_None_2; [reflexivity|now left].
Qed.

(** removing the temporary directories leaves the destination alone *)
Lemma cleanup_spec (l : list string) :
  List.Forall (fun d => clean_tmp k d = true) l ->
  forall st, cwd st = cwd0 ->
    exists st',
      for_each l rmtree st = (Ok tt, st')
      /\ file_at (fs st') k = file_at (fs st) k.
Proof using Type.
  induction 1 as [|d l Hd Hl IH]; intros st Hc.
  - exists st. split; reflexivity.
  - destruct (rmtree_spec d st Hd Hc) as (st1 & H1 & Hc1 & _ & Hf1).
    destruct (IH st1 Hc1) as (st2 & H2 & Hf2).
    exists st2. split.
    + cbn [for_each]. unfold bind. rewrite H1. exact H2.
    + now rewrite Hf2.
Qed.

(** a new temporary directory is a clean one *)
Lemma mkdtemp_spec (prefix : string) :
  triple Inv (mkdtemp prefix)
         (fun d st => clean_tmp k d = true /\ Inv st) Inv.
Proof using Type.
  unfold mkdtemp.
  eapply triple_bind; [apply triple_same_world, os_call_same_world|].
  intros u st r st' HI H. unfold bind, get in H.
  destruct (tmp_names st) as [|d rest] eqn:Et.
  - injection H as <- <-. exact HI.
  - unfold modify at 1 in H. cbv beta iota in H.
    destruct HI as (C & D & F & T & X). rewrite Et in T.
    inversion T as [|? ? Hd Hrest]; subst.
    assert (HI' : Inv (set_tmp_names rest st)).
    { unfold Inv, build_invariant. cbn. auto 6. }
    destruct (fs st !! fs_key st d) eqn:Ef.
    + injection H as <- <-. exact HI'.
    + unfold modify, ret in H. injection H as <- <-.
      split; [exact Hd|].
      unfold Inv, build_invariant. cbn.
      repeat (split; [auto; fail|]).
      split; [|split; assumption].
      rewrite file_at_insert_dir; [reflexivity|exact Ef].
Qed.

Lemma enter_temporary_directory_spec (prefix : string) :
  triple Inv (enter_temporary_directory prefix)
         (fun d st => clean_tmp k d = true /\ Inv st) Inv.
Proof using Type.
  unfold enter_temporary_directory.
  eapply triple_bind; [apply mkdtemp_spec|].
  intros d. apply triple_pure. intros Hd.
  eapply triple_bind with (Q1 := fun _ => Inv).
  - apply triple_modify. intros st (C & D & F & T & X).
    unfold Inv, build_invariant. cbn. repeat (split; [assumption|]).
    constructor; assumption.
  - intros u. apply triple_ret. auto.
Qed.

Lemma build_archived_same_files (format out : string) (st st' : State) :
  build_archived cwd0 docs0 k o0 format out st -> same_files st st' ->
  build_archived cwd0 docs0 k o0 format out st'.
Proof using Type.
  intros [HI (ms & Hms)] Hf. split.
  - eapply build_invariant_same_files; eauto.
  - exists ms. destruct Hf as (_ & _ & _ & _ & Hf). now rewrite Hf.
Qed.

(** the archive is made in the temporary directory *)
Lemma make_archive_spec (d b format root : string) :
  clean_tmp k d = true ->
  PosixPath.has_sep b = false ->
  triple Inv (make_archive (PosixPath.join d b) format root)
         (fun out => build_archived cwd0 docs0 k o0 format out) Inv.
Proof using Type.
  intros Hd Hb. unfold make_archive.
  destruct (archive_extension format) as [ext|] eqn:Hext;
    [|apply triple_raise; auto].
  eapply triple_bind; [apply triple_same_world, os_call_same_world|].
  intros u. eapply triple_bind; [apply triple_get|].
  intros st0. cbv beta.
  destruct (negb (is_dir (fs st0) (fs_key st0 root))).
  { apply triple_raise. now intros st [_ H]. }
  eapply triple_bind.
  - eapply triple_conseq with (P := Inv) (E := Inv);
      [now intros st [_ H]|intros a st H; exact H|auto|].
    apply write_file_spec.
    eapply archive_not_key; eauto.
  - intros u'. apply triple_ret. intros st [HI Hf]. split; [exact HI|].
    eexists. exact Hf.
Qed.

(** the rename puts the archive at the destination, or changes nothing *)
Lemma rename_spec (format src dst : string) :
  PosixPath.abspath cwd0 dst = k ->
  triple (build_archived cwd0 docs0 k o0 format src) (rename src dst)
         (fun _ => build_published cwd0 k format) Inv.
Proof using Type.
  intros Hk. unfold rename.
  eapply triple_bind with (Q1 := fun _ => build_archived cwd0 docs0 k o0 format src).
  { eapply triple_conseq with (P := build_archived cwd0 docs0 k o0 format src)
                              (E := build_archived cwd0 docs0 k o0 format src);
      [auto|intros a st H; exact H|now intros st [H _]|].
    eapply triple_preserves; [apply os_call_same_world|].
    intros st st' H Hw. eapply build_archived_same_files; [exact H|].
    now apply same_world_files. }
  intros u st r st' [HI (ms & Hms)] H. unfold bind, get in H.
  destruct HI as (C & D & F & T & X).
  unfold fs_key in H. rewrite C, Hk in H.
  unfold file_at in Hms.
  destruct (fs st !! PosixPath.abspath cwd0 src) as [[c|]|]; try discriminate.
  injection Hms as ->.
  destruct (is_dir (fs st) k || negb (is_dir (fs st) (PosixPath.dirname k))).
  - injection H as <- <-. unfold Inv, build_invariant. auto 6.
  - injection H as <- <-. unfold build_published. cbn.
    split; [exact C|]. split; [|exact X].
    exists ms. unfold file_at. now rewrite lookup_insert_eq.
Qed.

Lemma triple_pure_r {A} (F : Prop) (P : State -> Prop) (m : M A)
    (Q : A -> State -> Prop) (E : State -> Prop) :
  (F -> triple P m Q E) -> triple (fun st => P st /\ F) m Q E.
Proof using Type. intros H st r st' [HP HF] Hr. exact (H HF st r st' HP Hr). Qed.

Lemma triple_assert_keep (P : State -> Prop) (b : bool) :
  triple P (assert b) (fun _ => P) P.
Proof using Type.
  apply triple_reader. intros st r st' H. destruct b; now injection H as _ <-.
Qed.

Lemma triple_deref_inv (r : nat) :
  triple Inv (deref r) (fun d st => docs0 !! r = Some d /\ Inv st) Inv.
Proof using Type.
  eapply triple_conseq; [| | |apply (triple_deref Inv r)]; auto.
  intros d st [Hd HI]. split; [|exact HI].
  destruct HI as (_ & <- & _). exact Hd.
Qed.

Lemma collect_triple (fuel : nat) (q : list nat) :
  triple Inv (collect fuel q [])
         (fun wdls st =>
            (forall p, In p (Dict.keys wdls) -> from_heap docs0 p) /\ Inv st)
         Inv.
Proof using Type.
  intros st r st' HI H. apply collect_spec in H. destruct H as [-> H].
  destruct r as [wdls| |]; [|exact HI|exact HI].
  split; [|exact HI].
  destruct HI as (_ & <- & _). apply (H wdls eq_refl). intros p [].
Qed.

Variable top_doc : nat.
Hypothesis Hsafe :
  forall top r d p,
    docs0 !! top_doc = Some top ->
    docs0 !! r = Some d ->
    zip_path cwd0 (main_dir_of top) (abspath_of d) = Ok p ->
    safe_relative p = true.

(** staging writes below the staging directory only *)
Lemma build_source_dir_spec (fuel : nat) :
  triple Inv (build_source_dir fuel top_doc)
         (fun zip_dir st => clean_tmp k zip_dir = true /\ Inv st) Inv.
Proof using Hsafe.
  unfold build_source_dir.
  eapply triple_bind; [apply triple_deref_inv|].
  intros top. apply triple_pure. intros Htop.
  eapply triple_bind; [apply collect_triple|].
  intros wdls. apply triple_pure. intros Hwdls.
  eapply triple_bind; [apply build_zip_paths_spec|].
  intros zip_paths. apply triple_pure_r. intros Hent.
  eapply triple_bind; [apply triple_assert_keep|]. intros u1.
  eapply triple_bind; [apply triple_getitem|].
  intros top_path. apply triple_pure. intros _.
  eapply triple_bind; [apply triple_assert_keep|]. intros u2.
  eapply triple_bind; [apply enter_temporary_directory_spec|].
  intros zip_dir. apply triple_pure. intros Hzd.
  eapply triple_bind with (Q1 := fun _ => Inv);
    [|intros u3; apply triple_ret; auto].
  apply triple_for_each. intros [abspath a_doc] Hin.
  eapply triple_bind; [apply triple_deref_inv|].
  intros doc. apply triple_pure. intros _.
  eapply triple_bind;
    [apply triple_same_world, rewrite_imports_same_world|].
  intros source_lines.
  eapply triple_bind; [apply triple_getitem|].
  intros p. apply triple_pure. intros Hp.
  eapply triple_bind; [apply triple_same_files, makedirs_same_files|].
  intros u4.
  eapply triple_bind; [apply triple_list_read|].
  intros lines.
  apply write_file_keeps. apply staged_not_key; [exact Hzd|].
  destruct (Hent abspath p Hp) as [Hkey Hzp].
  destruct (Hwdls abspath Hkey) as (r & d & Hd & <-).
  exact (Hsafe top r d p Htop Hd Hzp).
Qed.

(** [build] without its exit stack: up to the rename the destination is
    as it was, and the rename puts the archive there *)
Lemma build_body_spec (fuel : nat) (archive : string)
    (inputs meta : option (list (string * json))) (format : string)
    (body : M unit) :
  build fuel top_doc archive inputs meta format = with_exit_stack body ->
  triple Inv body (fun _ => build_published cwd0 k format) Inv ->
  forall st r st',
    Inv (set_exit_stack [] st) ->
    build fuel top_doc archive inputs meta format st = (r, st') ->
    match r with
    | Ok _ => exists members, file_at (fs st') k = Some (Packed format members)
    | _ => file_at (fs st') k = o0
    end.
Proof using Type.
  intros -> Hbody st r st' HI H. unfold with_exit_stack in H.
  destruct (body (set_exit_stack [] st)) as [rb stb] eqn:Hb.
  specialize (Hbody _ rb stb HI Hb).
  destruct rb as [[]|e|].
  - destruct Hbody as (C & (ms & Hms) & X).
    destruct (cleanup_spec (exit_stack stb) X stb C) as (st2 & H2 & Hf).
    rewrite H2 in H. injection H as <- <-. cbn. exists ms. now rewrite Hf.
  - destruct Hbody as (C & D & F & T & X).
    destruct (cleanup_spec (exit_stack stb) X stb C) as (st2 & H2 & Hf).
    rewrite H2 in H. injection H as <- <-. cbn. now rewrite Hf.
  - injection H as <- <-. now destruct Hbody as (C & D & F & T & X).
Qed.

Lemma build_steps_spec (fuel : nat) (archive : string)
    (inputs meta : option (list (string * json))) (format : string) :
  PosixPath.abspath cwd0 archive = k ->
  exists body,
    build fuel top_doc archive inputs meta format = with_exit_stack body
    /\ triple Inv body (fun _ => build_published cwd0 k format) Inv.
Proof using Hsafe.
  intros Hk. eexists. split; [reflexivity|].
  eapply triple_bind; [apply build_source_dir_spec|].
  intros dir_to_zip. apply triple_pure. intros Hdir.
  eapply triple_bind; [apply triple_deref_inv|].
  intros top. apply triple_pure. intros _.
  eapply triple_bind with (Q1 := fun _ => Inv).
  { destruct inputs as [[|i rest]|]; try (apply triple_ret; auto).
    eapply triple_bind with (Q1 := fun _ => Inv);
      [|intros u; apply triple_ret; auto].
    apply write_file_keeps. apply staged_not_key; [exact Hdir|reflexivity]. }
  intros manifest.
  eapply triple_bind with (Q1 := fun _ => Inv).
  { apply write_file_keeps. apply staged_not_key; [exact Hdir|reflexivity]. }
  intros u1.
  eapply triple_bind; [apply triple_same_world, logger_same_world|].
  intros u2.
  eapply triple_bind; [apply enter_temporary_directory_spec|].
  intros tmp_zip. apply triple_pure. intros Htmp.
  eapply triple_bind; [apply triple_same_world, logger_same_world|].
  intros u3.
  eapply triple_bind;
    [apply make_archive_spec; [exact Htmp|apply basename_no_sep]|].
  intros out.
  assert (Hkeep : forall (A : Type) (m : M A),
             preserves same_files m ->
             triple (build_archived cwd0 docs0 k o0 format out) m
                    (fun _ => build_archived cwd0 docs0 k o0 format out) Inv).
  { intros A m Hm.
    eapply triple_conseq with (P := build_archived cwd0 docs0 k o0 format out)
                              (E := build_archived cwd0 docs0 k o0 format out);
      [auto|intros a st H; exact H|now intros st [H _]|].
    eapply triple_preserves; [exact Hm|].
    intros st st'. apply build_archived_same_files. }
  eapply triple_bind.
  { apply Hkeep. eapply preserves_weaken;
      [apply same_world_files|apply logger_same_world]. }
  intros u4.
  eapply triple_bind.
  { apply Hkeep. destruct (PyStr.contains "/" archive).
    - apply makedirs_same_files.
    - apply (preserves_ret _ same_files_refl). }
  intros u5. apply rename_spec. exact Hk.
Qed.

End BuildSteps.

(** C6 (as amended): whenever the destination is outside the temporary
    directories and the archive paths of the documents are safe relative
    paths, [build] either succeeds, and then the archive made in the
    temporary directory is at the destination, or it does not, and then the
    destination holds what it held before: nothing, if there was nothing. *)
Theorem build_atomic (fuel : nat) (top_doc : nat) (archive : string)
    (inputs meta : option (list (string * json))) (format : string)
    (st : State) (r : result unit) (st' : State) :
  tmp_names_clean archive st = true ->
  staging_safe top_doc st = true ->
  build fuel top_doc archive inputs meta format st = (r, st') ->
  match r with
  | Ok _ =>
      exists members,
        file_at (fs st') (fs_key st archive) = Some (Packed format members)
  | _ => file_at (fs st') (fs_key st archive) = file_at (fs st) (fs_key st archive)
  end.
Proof.
  intros Htmp Hsafe Hrun.
  set (k := fs_key st archive).
  assert (Hsafe' : forall top r0 d p,
             docs st !! top_doc = Some top ->
             docs st !! r0 = Some d ->
             zip_path (cwd st) (main_dir_of top) (abspath_of d) = Ok p ->
             safe_relative p = true).
  { intros top r0 d p Htop Hd Hzp. unfold staging_safe in Hsafe.
    rewrite Htop in Hsafe. rewrite forallb_forall in Hsafe.
    assert (Hin : In (r0, d) (map_to_list (docs st))).
    { apply list_elem_of_In. now apply elem_of_map_to_list. }
    specialize (Hsafe _ Hin). cbn [snd] in Hsafe.
    rewrite Hzp in Hsafe. exact Hsafe. }
  destruct (build_steps_spec (cwd st) (docs st) k (file_at (fs st) k) top_doc
              Hsafe' fuel archive inputs meta format eq_refl)
    as (body & Hbuild & Hbody).
  apply (build_body_spec (cwd st) (docs st) k (file_at (fs st) k) top_doc
           fuel archive inputs meta format body Hbuild Hbody st r st');
    [|exact Hrun].
  unfold build_invariant. cbn.
  repeat (split; [reflexivity|]). split; [|constructor].
  apply List.Forall_forall. intros d Hd.
  unfold tmp_names_clean in Htmp. rewrite forallb_forall in Htmp.
  apply Htmp. exact Hd.
Qed.

Lemma build_atomic_witness :
  let run := build 10 0 "out/w.zip" None None "zip" diamond_state in
  fst run = Ok tt
  /\ exists members,
       file_at (fs (snd run)) "/w/out/w.zip" = Some (Packed "zip" members).
Proof.
  intros run. split; [vm_compute; reflexivity|].
  pose proof (build_atomic 10 0 "out/w.zip" None None "zip" diamond_state
                (fst run) (snd run)) as H.
  assert (E : fst run = Ok tt) by (vm_compute; reflexivity).
  rewrite E in H. apply H.
  - vm_compute. reflexivity.
  - vm_compute. reflexivity.
  - rewrite <- E. apply surjective_pairing.
Defined.

(** C6 fails as stated: [make_archive] fails after staging, [build] raises,
    and a file exists at the destination afterwards, the one that was there
    before. *)
Lemma build_failure_leaves_earlier_file :
  fst (build 10 0 "out.zip" None None "zip" overwrite_state)
  = Raise (OSError "make_archive")
  /\ file_at (fs (snd (build 10 0 "out.zip" None None "zip" overwrite_state)))
             "/w/out.zip"
     = Some (Text "an earlier archive").
Proof. split; vm_compute; reflexivity. Qed.

(** the same failure with nothing at the destination leaves nothing there,
    and no temporary directory either *)
Lemma build_failure_leaves_nothing :
  let st := set_faults (List.repeat false 11 ++ [true])%list diamond_state in
  fst (build 10 0 "out.zip" None None "zip" st) = Raise (OSError "make_archive")
  /\ fs (snd (build 10 0 "out.zip" None None "zip" st)) = fs diamond_state.
Proof. split; vm_compute; reflexivity. Qed.

(** why the archive paths must be safe: the document of [escape_state] is
    staged at the destination itself, and there it stays when [build]
    fails *)
Lemma build_staging_escape :
  staging_safe 0 escape_state = false
  /\ file_at (fs escape_state) "/tmp/x/out.zip" = None
  /\ fst (build 10 0 "/tmp/x/out.zip" None None "zip" escape_state)
     = Raise (OSError "make_archive")
  /\ file_at (fs (snd (build 10 0 "/tmp/x/out.zip" None None "zip" escape_state)))
             "/tmp/x/out.zip"
     = Some (Text ("task x" ++ newline)).
Proof. repeat split; vm_compute; reflexivity. Qed.

(** why the destination must be outside the temporary directories: an
    archive published inside one is removed with it *)
Lemma build_destination_in_temporary_directory :
  tmp_names_clean "/tmp/miniwdl_zip_2/w.zip" diamond_state = false
  /\ fst (build 10 0 "/tmp/miniwdl_zip_2/w.zip" None None "zip" diamond_state)
     = Ok tt
  /\ file_at (fs (snd (build 10 0 "/tmp/miniwdl_zip_2/w.zip" None None "zip"
                             diamond_state)))
             "/tmp/miniwdl_zip_2/w.zip"
     = None.
Proof. repeat split; vm_compute; reflexivity. Qed.

(** * Further properties of [WDL/Value.py] *)

Lemma coerce_to_own_type (v : Value.Base) :
  Value.coerce v (Some (Value.type v)) = Ok v.
Proof.
  destruct v; cbn [Value.coerce Value.type]; unfold Value.Int_coerce;
    cbn [T.is_Float]; unfold Value.Base_coerce; cbn [Value.type];
    now rewrite T_eqb_refl.
Qed.

Lemma is_Float_eq (d : T.Base) : T.is_Float d = true -> d = T.Float.
Proof. destruct d; try discriminate; reflexivity. Qed.

Lemma Base_coerce_Ok (v v' : Value.Base) (d : T.Base) :
  Value.Base_coerce v (Some d) = Ok v' -> v' = v /\ Value.type v = d.
Proof.
  unfold Value.Base_coerce. destruct (T.eqb (Value.type v) d) eqn:E; [|discriminate].
  intros H. injection H as <-. split; [reflexivity|now apply T_eqb_eq].
Qed.

(** a coercion that returns either returns the value itself, of the desired
    type already, or turns an [Int] into the [Float] of its integer *)
Lemma coerce_Ok (v v' : Value.Base) (d : T.Base) :
  Value.coerce v (Some d) = Ok v' ->
  (v' = v /\ Value.type v = d)
  \/ (exists i f, v = Value.Int i /\ d = T.Float
                  /\ Value.py_float i = Ok f /\ v' = Value.Float f).
Proof.
  destruct v; cbn [Value.coerce]; try (intros H; left; now apply Base_coerce_Ok).
  unfold Value.Int_coerce. destruct (T.is_Float d) eqn:E.
  - apply is_Float_eq in E. subst d.
    destruct (Value.py_float value) as [f| |] eqn:Hf; try discriminate.
    intros H. injection H as <-. right. eauto 6.
  - intros H. left. now apply Base_coerce_Ok.
Qed.

(** X1: whenever a coercion to a desired type returns, the value it returns
    has that type. *)
Theorem coerce_result_type (v v' : Value.Base) (d : T.Base) :
  Value.coerce v (Some d) = Ok v' -> Value.type v' = d.
Proof.
  intros H. apply coerce_Ok in H.
  destruct H as [[-> H]|(i & f & -> & -> & _ & ->)]; [exact H|reflexivity].
Qed.

Lemma coerce_result_type_witness :
  Value.type (Value.Float (S754_finite false 6755399441055744 (-51))) = T.Float.
Proof.
  apply (coerce_result_type (Value.Int 3)
           (Value.Float (S754_finite false 6755399441055744 (-51))) T.Float).
  reflexivity.
Defined.

(** X2: coercion is idempotent: what a coercion returned is returned
    unchanged by the same coercion. *)
Theorem coerce_idempotent (v v' : Value.Base) (d : option T.Base) :
  Value.coerce v d = Ok v' -> Value.coerce v' d = Ok v'.
Proof.
  destruct d as [d|].
  - intros H. apply coerce_Ok in H.
    destruct H as [[-> <-]|(i & f & -> & -> & _ & ->)];
      apply coerce_to_own_type.
  - intros H. assert (v' = v) as ->.
    { destruct v; cbn in H; now injection H as <-. }
    exact H.
Qed.

Lemma coerce_idempotent_witness :
  Value.coerce (Value.Float (S754_finite false 6755399441055744 (-51)))
               (Some T.Float)
  = Ok (Value.Float (S754_finite false 6755399441055744 (-51))).
Proof.
  apply (coerce_idempotent (Value.Int 3)). reflexivity.
Defined.

(** X3: a desired type that is not the type of the value makes the coercion
    fail its assertion, except for an [Int] and the desired type [Float]. *)
Theorem coerce_invalid (v : Value.Base) (d : T.Base) :
  d <> Value.type v ->
  (forall i, v = Value.Int i -> d <> T.Float) ->
  Value.coerce v (Some d) = Raise AssertionError.
Proof.
  intros Hd Hint.
  assert (Hb : Value.Base_coerce v (Some d) = Raise AssertionError).
  { unfold Value.Base_coerce. destruct (T.eqb (Value.type v) d) eqn:E; [|reflexivity].
    apply T_eqb_eq in E. congruence. }
  destruct v; cbn [Value.coerce]; try exact Hb.
  unfold Value.Int_coerce. destruct (T.is_Float d) eqn:E; [|exact Hb].
  apply is_Float_eq in E. exfalso. exact (Hint value eq_refl E).
Qed.

Lemma coerce_invalid_witness :
  Value.coerce (Value.String "4") (Some T.Int) = Raise AssertionError.
Proof.
  apply coerce_invalid; [discriminate|]. intros i H. discriminate.
Defined.

(** * Further properties of the collection loop *)

Lemma reachable_snoc (st : State) (a b : nat) (d : Document.t) (imp : DocImport.t) :
  reachable st a b ->
  docs st !! b = Some d ->
  In imp (Document.imports d) ->
  reachable st a (DocImport.doc imp).
Proof.
  induction 1 as [r|r d0 imp0 r' Hd0 Himp0 Hr IH]; intros Hd Himp.
  - eapply reach_step; eauto. constructor.
  - eapply reach_step; eauto.
Qed.

Lemma in_removelast {A} (l : list A) (x : A) : In x (removelast l) -> In x l.
Proof.
  induction l as [|y l IH]; [auto|].
  cbn [removelast]. destruct l as [|z l]; [intros []|].
  intros [->|H]; [now left|right; auto].
Qed.

Lemma last_in {A} (l : list A) (x d : A) : In (List.last (x :: l) d) (x :: l).
Proof.
  revert x. induction l as [|y l IH]; intros x; [now left|].
  right. exact (IH y).
Qed.

Lemma collect_entries (fuel : nat) (top : nat) :
  forall (q : list nat) (w : Dict.t nat) (st : State) (wdls : Dict.t nat)
         (st' : State),
    (forall x, In x q -> reachable st top x) ->
    (forall p x, Dict.get w p = Some x -> collected st top p x) ->
    collect fuel q w st = (Ok wdls, st') ->
    (forall p x, Dict.get wdls p = Some x -> collected st top p x)
    /\ (forall p, In p (Dict.keys w) -> In p (Dict.keys wdls)).
Proof.
  induction fuel as [|fuel IH]; intros q w st wdls st' Hq Hw H.
  - destruct q; [|discriminate]. injection H as <- <-. auto.
  - destruct q as [|x q]; [injection H as <- <-; auto|].
    cbn [collect] in H. unfold bind at 1 in H. rewrite run_deref in H.
    destruct (docs st !! List.last (x :: q) x) as [d|] eqn:Hd; [|discriminate].
    assert (Hlast : reachable st top (List.last (x :: q) x)).
    { apply Hq. apply last_in. }
    apply IH in H.
    + destruct H as [H1 H2]. split; [exact H1|].
      intros p Hp. apply H2. apply Dict_keys_set. now right.
    + intros y Hy. apply in_app_or in Hy. destruct Hy as [Hy|Hy].
      * apply Hq. now apply in_removelast.
      * apply in_map_iff in Hy. destruct Hy as (imp & <- & Himp).
        eapply reachable_snoc; eauto.
    + intros p y Hget. rewrite Dict_get_set in Hget.
      destruct (String.eqb (abspath_of d) p) eqn:E; [|auto].
      apply String.eqb_eq in E. injection Hget as <-.
      exists d. auto.
Qed.

(** X4: every entry of the dictionary the collection loop returns maps the
    path of a document reached from the top document to that document, and
    the top document has an entry. *)
Theorem collect_sound (fuel : nat) (top_doc : nat) (st : State)
    (wdls : Dict.t nat) (st' : State) :
  collect fuel [top_doc] [] st = (Ok wdls, st') ->
  (forall p r, Dict.get wdls p = Some r -> collected st top_doc p r)
  /\ exists top, docs st !! top_doc = Some top
                 /\ In (abspath_of top) (Dict.keys wdls).
Proof.
  intros H. destruct fuel as [|fuel]; [discriminate|].
  destruct (docs st !! top_doc) as [top|] eqn:Htop.
  - rewrite (collect_pop_single fuel top_doc [] st top Htop) in H.
    apply (collect_entries fuel top_doc) in H.
    + destruct H as [H1 H2]. split; [exact H1|].
      exists top. split; [reflexivity|]. apply H2. apply Dict_keys_set. now left.
    + intros x Hx. apply in_map_iff in Hx. destruct Hx as (imp & <- & Himp).
      eapply reach_step; eauto. constructor.
    + intros p x Hget. rewrite Dict_get_set in Hget.
      destruct (String.eqb (abspath_of top) p) eqn:E; [|discriminate].
      apply String.eqb_eq in E. injection Hget as <-.
      exists top. repeat split; auto. constructor.
  - cbn [collect] in H. unfold bind at 1 in H. rewrite run_deref in H.
    cbn [List.last] in H. rewrite Htop in H. discriminate.
Qed.

Lemma collect_sound_witness :
  (forall p r,
     Dict.get [("/m/main.wdl", 0%nat); ("/m/right.wdl", 2%nat);
               ("/m/common.wdl", 3%nat); ("/m/left.wdl", 1%nat)] p = Some r ->
     collected diamond_state 0 p r)
  /\ exists top, docs diamond_state !! 0%nat = Some top
                 /\ In (abspath_of top)
                       (Dict.keys [("/m/main.wdl", 0%nat); ("/m/right.wdl", 2%nat);
                                   ("/m/common.wdl", 3%nat); ("/m/left.wdl", 1%nat)]).
Proof.
  apply (collect_sound 5 0 diamond_state _ diamond_state).
  vm_compute. reflexivity.
Defined.

(** * Further properties of [build_zip_paths] *)

Lemma zip_path_finishes (cwd main_dir abspath : string) :
  zip_path cwd main_dir abspath <> OutOfFuel.
Proof.
  unfold zip_path. destruct (PyStr.startswith abspath main_dir).
  - destruct (relpath_Ok_or_Raise cwd abspath main_dir) as [[p ->]|[e ->]];
      discriminate.
  - match goal with |- context [if ?b then _ else _] => destruct b end;
      discriminate.
Qed.

(** the loop of [build_zip_paths]: when it comes to its end, it has entered
    the archive path of every key in order, logged one line for each, and
    recorded whether one of them lies outside the main directory *)
Lemma zip_loop_spec (main_dir : string) (l : list string) :
  forall (ans : Dict.t string) (warn : bool) (st : State)
         (r : result (Dict.t string * bool)) (st' : State),
    for_fold l (ans, warn)
      (fun '(ans, outside_warn) abspath =>
         st <- get ;;
         p <- lift (zip_path (cwd st) main_dir abspath) ;;
         let ans := Dict.set ans abspath p in
         let outside_warn :=
           if PyStr.startswith abspath main_dir then outside_warn else true in
         logger INFO (p ++ " <= " ++ abspath) ;;;
         ret (ans, outside_warn)) st = (r, st') ->
    match r with
    | Ok (ans', warn') =>
        exists ps,
          List.Forall2 (fun key p => zip_path (cwd st) main_dir key = Ok p) l ps
          /\ ans' = set_all ans (List.combine l ps)
          /\ warn' = warn || existsb (outside main_dir) l
          /\ st' = set_log (log st ++ List.map info_line (List.combine l ps))%list st
    | Raise e => True
    | OutOfFuel => False
    end.
Proof.
  induction l as [|key l IH]; intros ans warn st r st' H.
  - injection H as <- <-. exists []. split; [constructor|].
    split; [reflexivity|]. split; [now rewrite orb_false_r|].
    cbn. rewrite app_nil_r. now destruct st.
  - cbn [for_fold] in H. unfold bind at 1 in H. unfold bind at 1 in H.
    unfold get at 1 in H. unfold bind at 1 in H. unfold lift at 1 in H.
    pose proof (zip_path_finishes (cwd st) main_dir key) as Hfin.
    destruct (zip_path (cwd st) main_dir key) as [p|e|] eqn:Hzp;
      [|injection H as <- <-; exact I|contradiction].
    unfold bind at 1 in H. unfold logger at 1, modify at 1 in H.
    cbn [ret] in H. apply IH in H.
    destruct r as [[ans' warn']|e|]; [|exact I|exact H].
    destruct H as (ps & HF & Hans & Hwarn & Hst). cbn [cwd set_log] in HF.
    exists (p :: ps). split; [constructor; assumption|].
    split; [exact Hans|]. split.
    + rewrite Hwarn. cbn [existsb]. unfold outside at 2.
      destruct (PyStr.startswith key main_dir); cbn [negb orb];
        [reflexivity|now rewrite orb_true_r].
    + rewrite Hst. cbn [log set_log List.combine List.map].
      rewrite <- app_assoc. reflexivity.
Qed.

Lemma run_build_zip_paths (main_dir : string) (wdls : Dict.t nat) (st : State)
    (zip_paths : Dict.t string) (st' : State) :
  build_zip_paths main_dir wdls st = (Ok zip_paths, st') ->
  exists ps,
    List.Forall2 (fun key p => zip_path (cwd st) main_dir key = Ok p)
                 (Dict.keys wdls) ps
    /\ zip_paths = set_all [] (List.combine (Dict.keys wdls) ps)
    /\ st' = set_log
               (log st ++ List.map info_line (List.combine (Dict.keys wdls) ps)
                ++ if existsb (outside main_dir) (Dict.keys wdls)
                   then [(WARNING, outside_warning)] else [])%list st.
Proof.
  unfold build_zip_paths. intros H. apply bind_inv in H.
  destruct H as [([ans warn] & st1 & H1 & H2)|[(e & _ & He)|[_ He]]];
    try discriminate.
  apply zip_loop_spec in H1. destruct H1 as (ps & HF & -> & -> & ->).
  exists ps. split; [exact HF|]. cbn [fst snd orb] in H2.
  destruct (existsb (outside main_dir) (Dict.keys wdls)).
  - unfold bind, logger, modify, ret in H2. injection H2 as <- <-.
    split; [reflexivity|]. cbn [log set_log]. now rewrite <- app_assoc.
  - unfold bind, ret in H2. injection H2 as <- <-.
    split; [reflexivity|]. now rewrite app_nil_r.
Qed.

Lemma Dict_keys_set_fresh {V} (d : Dict.t V) (k : string) (v : V) :
  ~ In k (Dict.keys d) -> Dict.keys (Dict.set d k v) = (Dict.keys d ++ [k])%list.
Proof.
  induction d as [|[k' v'] d IH]; intros Hk; [reflexivity|].
  cbn [Dict.set]. destruct (String.eqb k' k) eqn:E.
  - apply String.eqb_eq in E. subst. exfalso. apply Hk. now left.
  - cbn [Dict.keys List.map fst app]. f_equal. apply IH.
    intros H. apply Hk. now right.
Qed.

Lemma set_all_keys {V} (l : list string) :
  forall (vs : list V) (d : Dict.t V),
    length vs = length l ->
    List.NoDup (Dict.keys d ++ l) ->
    Dict.keys (set_all d (List.combine l vs)) = (Dict.keys d ++ l)%list.
Proof.
  induction l as [|k l IH]; intros vs d Hlen Hnd.
  - cbn. now rewrite app_nil_r.
  - destruct vs as [|v vs]; [discriminate|]. cbn [List.combine set_all List.fold_left].
    cbn [fst snd]. fold (set_all (Dict.set d k v) (List.combine l vs)).
    assert (Hk : ~ In k (Dict.keys d)).
    { intros Hin. apply NoDup_remove_2 in Hnd. apply Hnd.
      apply in_or_app. now left. }
    rewrite IH.
    + rewrite (Dict_keys_set_fresh d k v Hk), <- app_assoc. reflexivity.
    + now injection Hlen.
    + rewrite (Dict_keys_set_fresh d k v Hk), <- app_assoc. exact Hnd.
Qed.

Lemma set_all_get_other {V} (kvs : list (string * V)) :
  forall (d : Dict.t V) (key : string),
    ~ In key (List.map fst kvs) ->
    Dict.get (set_all d kvs) key = Dict.get d key.
Proof.
  induction kvs as [|[k v] kvs IH]; intros d key Hk; [reflexivity|].
  cbn [set_all List.fold_left fst snd]. fold (set_all (Dict.set d k v) kvs).
  rewrite IH by (intros H; apply Hk; now right).
  rewrite Dict_get_set. destruct (String.eqb k key) eqn:E; [|reflexivity].
  apply String.eqb_eq in E. subst. exfalso. apply Hk. now left.
Qed.

Lemma set_all_get {V} (l : list string) :
  forall (vs : list V) (d : Dict.t V) (key : string) (v : V),
    List.NoDup l ->
    In (key, v) (List.combine l vs) ->
    Dict.get (set_all d (List.combine l vs)) key = Some v.
Proof.
  induction l as [|k l IH]; intros vs d key v Hnd Hin; [destruct Hin|].
  destruct vs as [|v0 vs]; [destruct Hin|].
  cbn [List.combine set_all List.fold_left fst snd].
  fold (set_all (Dict.set d k v0) (List.combine l vs)).
  inversion Hnd as [|? ? Hk Hnd']; subst.
  destruct Hin as [Heq|Hin].
  - injection Heq as -> ->. rewrite set_all_get_other.
    + rewrite Dict_get_set, String.eqb_refl. reflexivity.
    + intros H. apply Hk. apply in_map_iff in H.
      destruct H as ([k1 v1] & <- & H1). cbn [fst].
      exact (in_combine_l _ _ _ _ H1).
  - now apply IH.
Qed.

(** X5: when [build_zip_paths] returns, its result has the keys of [wdls],
    in the same order, and the entry of each key is the archive path computed
    for it; the assertion of [build_source_dir] on the sorted keys cannot
    fail. *)
Theorem build_zip_paths_keys (main_dir : string) (wdls : Dict.t nat)
    (st : State) (zip_paths : Dict.t string) (st' : State) :
  List.NoDup (Dict.keys wdls) ->
  build_zip_paths main_dir wdls st = (Ok zip_paths, st') ->
  Dict.keys zip_paths = Dict.keys wdls
  /\ (forall key, In key (Dict.keys wdls) ->
        exists p, Dict.get zip_paths key = Some p
                  /\ zip_path (cwd st) main_dir key = Ok p)
  /\ list_string_eqb (sorted (Dict.keys zip_paths)) (sorted (Dict.keys wdls)) = true.
Proof.
  intros Hnd H. apply run_build_zip_paths in H.
  destruct H as (ps & HF & -> & _).
  assert (Hlen : length ps = length (Dict.keys wdls)).
  { symmetry. exact (Forall2_length _ _ _ HF). }
  assert (Hkeys : Dict.keys (set_all [] (List.combine (Dict.keys wdls) ps))
                  = Dict.keys wdls).
  { now rewrite (set_all_keys (Dict.keys wdls) ps [] Hlen Hnd). }
  split; [exact Hkeys|]. split.
  - intros key Hkey.
    destruct (In_nth _ _ EmptyString Hkey) as (n & Hn & Hnth).
    exists (List.nth n ps EmptyString). split.
    + apply set_all_get; [exact Hnd|].
      rewrite <- Hnth. rewrite <- (combine_nth _ _ n _ _ (eq_sym Hlen)).
      apply nth_In. rewrite length_combine. lia.
    + clear Hkeys Hkey. revert n Hn Hnth.
      induction HF as [|k p l ps' Hz HF' IH]; intros n Hn Hnth;
        [cbn in Hn; lia|].
      destruct n as [|n]; cbn in Hnth |- *.
      * now subst.
      * apply IH; [auto| | |exact Hnth].
        -- now inversion Hnd.
        -- now injection Hlen.
        -- cbn in Hn. lia.
  - rewrite Hkeys. unfold list_string_eqb. now apply bool_decide_eq_true.
Qed.

Lemma build_zip_paths_keys_witness :
  Dict.keys diamond_zip_paths
  = ["/m/main.wdl"; "/m/right.wdl"; "/m/common.wdl"; "/m/left.wdl"].
Proof.
  refine (proj1 (build_zip_paths_keys "/m/"
            [("/m/main.wdl", 0%nat); ("/m/right.wdl", 2%nat);
             ("/m/common.wdl", 3%nat); ("/m/left.wdl", 1%nat)]
            diamond_state diamond_zip_paths
            (snd (build_zip_paths "/m/"
                    [("/m/main.wdl", 0%nat); ("/m/right.wdl", 2%nat);
                     ("/m/common.wdl", 3%nat); ("/m/left.wdl", 1%nat)]
                    diamond_state)) _ _)).
  - repeat constructor; cbn; intuition discriminate.
  - vm_compute. reflexivity.
Defined.

(** X6: when [build_zip_paths] returns, it has changed nothing but the log,
    to which it has added one line for every document, in order, and after
    them the warning, once, exactly when some document lies outside the main
    directory. *)
Theorem build_zip_paths_log (main_dir : string) (wdls : Dict.t nat)
    (st : State) (zip_paths : Dict.t string) (st' : State) :
  build_zip_paths main_dir wdls st = (Ok zip_paths, st') ->
  exists ps,
    List.Forall2 (fun key p => zip_path (cwd st) main_dir key = Ok p)
                 (Dict.keys wdls) ps
    /\ st' = set_log
               (log st ++ List.map info_line (List.combine (Dict.keys wdls) ps)
                ++ if existsb (outside main_dir) (Dict.keys wdls)
                   then [(WARNING, outside_warning)] else [])%list st.
Proof.
  intros H. apply run_build_zip_paths in H.
  destruct H as (ps & HF & _ & Hst). eauto.
Qed.

Lemma build_zip_paths_log_witness :
  exists ps,
    List.Forall2 (fun key p => zip_path "/w" "/a/b/" key = Ok p)
                 ["/a/b/main.wdl"; "/x.wdl"] ps
    /\ snd (build_zip_paths "/a/b/" [("/a/b/main.wdl", 0%nat); ("/x.wdl", 1%nat)]
                            collision_state)
       = set_log
           (log collision_state
            ++ List.map info_line (List.combine ["/a/b/main.wdl"; "/x.wdl"] ps)
            ++ if existsb (outside "/a/b/") ["/a/b/main.wdl"; "/x.wdl"]
               then [(WARNING, outside_warning)] else [])%list collision_state.
Proof.
  apply (build_zip_paths_log "/a/b/" [("/a/b/main.wdl", 0%nat); ("/x.wdl", 1%nat)]
           collision_state
           [("/a/b/main.wdl", "main.wdl"); ("/x.wdl", "__outside_wdl/x.wdl")]).
  vm_compute. reflexivity.
Defined.

Lemma startswith_split (s pre : string) :
  PyStr.startswith s pre = true -> s = pre ++ PyStr.drop (PyStr.len pre) s.
Proof.
  revert s. induction pre as [|a pre IH]; intros s H; [reflexivity|].
  destruct s as [|b s]; [discriminate|].
  cbn [PyStr.startswith] in H. apply andb_true_iff in H. destruct H as [Hc H].
  apply Ascii.eqb_eq in Hc. subst b.
  rewrite str_app_cons. cbn [PyStr.len String.length PyStr.drop].
  f_equal. apply IH. exact H.
Qed.

(** X7: a document outside the main directory, when it gets an archive path
    at all, gets the quarantine prefix followed by what remains of its
    normalised path beyond the common prefix with the normalised main
    directory, and that common prefix ends with a separator. *)
Theorem zip_path_outside (cwd main_dir abspath p : string) :
  PyStr.startswith abspath main_dir = false ->
  zip_path cwd main_dir abspath = Ok p ->
  let abspath2 := PyStr.replace abspath "://" "_" in
  let prefix :=
    PosixPath.commonprefix abspath2 (PyStr.replace main_dir "://" "_") in
  exists suffix,
    p = "__outside_wdl/" ++ suffix
    /\ abspath2 = prefix ++ suffix
    /\ PyStr.endswith prefix "/" = true.
Proof.
  intros Hout H abspath2 prefix. unfold zip_path in H. rewrite Hout in H.
  fold abspath2 in H. fold prefix in H.
  destruct (PyStr.startswith abspath2 prefix && PyStr.endswith prefix "/") eqn:E;
    [|discriminate].
  apply andb_true_iff in E. destruct E as [Hpre Hend].
  injection H as <-. exists (PyStr.drop (PyStr.len prefix) abspath2).
  split; [reflexivity|]. split; [now apply startswith_split|exact Hend].
Qed.

Lemma zip_path_outside_witness :
  exists suffix,
    "__outside_wdl/lib/x.wdl" = "__outside_wdl/" ++ suffix
    /\ PyStr.replace "/a/lib/x.wdl" "://" "_"
       = PosixPath.commonprefix (PyStr.replace "/a/lib/x.wdl" "://" "_")
                                (PyStr.replace "/a/b/" "://" "_") ++ suffix
    /\ PyStr.endswith
         (PosixPath.commonprefix (PyStr.replace "/a/lib/x.wdl" "://" "_")
                                 (PyStr.replace "/a/b/" "://" "_")) "/" = true.
Proof.
  apply (zip_path_outside "/w" "/a/b/" "/a/lib/x.wdl" "__outside_wdl/lib/x.wdl");
    reflexivity.
Defined.

(** * Further properties of [unpack] *)

Lemma run_os_call (what : string) (st : State) :
  os_call what st
  = match faults st with
    | true :: rest => (Raise (OSError what), set_faults rest st)
    | false :: rest => (Ok tt, set_faults rest st)
    | [] => (Ok tt, st)
    end.
Proof.
  unfold os_call, bind, get, modify, raise, ret.
  destruct (faults st) as [|[] rest]; reflexivity.
Qed.

(** [json_load] returns what the file holds, and changes the fault
    schedule only *)
Lemma json_load_spec (p : string) (st : State) (r : result json) (st' : State) :
  json_load p st = (r, st') ->
  same_world st st'
  /\ match r with
     | Ok v => file_at (fs st') (fs_key st' p) = Some (Json v)
     | Raise _ => True
     | OutOfFuel => False
     end.
Proof.
  unfold json_load. unfold bind at 1. rewrite run_os_call.
  destruct (faults st) as [|[] rest].
  - unfold bind, get. intros H.
    destruct (fs st !! fs_key st p) as [[[t|v|f ms]|]|] eqn:E;
      injection H as <- <-; (split; [apply same_world_refl|]); auto.
    unfold file_at. now rewrite E.
  - intros H. injection H as <- <-. split; [|exact I].
    unfold same_world. cbn. auto.
  - unfold bind, get. cbn [fs set_faults]. intros H.
    assert (Hw : same_world st (set_faults rest st))
      by (unfold same_world; cbn; auto).
    destruct (fs st !! fs_key (set_faults rest st) p) as [[[t|v|f ms]|]|] eqn:E;
      injection H as <- <-; (split; [exact Hw|]); auto.
    unfold file_at. cbn [fs set_faults]. now rewrite E.
Qed.

(** X8: [load_manifest] returns only a JSON object with a string under
    [mainWorkflowURL], which is what the manifest file holds; whatever else
    happens (no file, not JSON, not an object, no such key, not a string)
    it raises the Input error that names the archive. *)
Theorem load_manifest_spec (archive_fn manifest_fn : string) (st : State)
    (r : result json) (st' : State) :
  load_manifest archive_fn manifest_fn st = (r, st') ->
  same_world st st'
  /\ match r with
     | Ok manifest =>
         file_at (fs st') (fs_key st' manifest_fn) = Some (Json manifest)
         /\ exists items url,
              manifest = JObject items
              /\ Dict.get items "mainWorkflowURL" = Some (JString url)
     | Raise e =>
         e = InputError ("Missing or invalid MANIFEST.json in " ++ archive_fn)
     | OutOfFuel => False
     end.
Proof.
  unfold load_manifest, try_except. unfold bind at 1.
  destruct (json_load manifest_fn st) as [[v|e|] st1] eqn:Hj;
    destruct (json_load_spec _ _ _ _ Hj) as [Hw Hv]; try contradiction.
  - destruct v as [| | | | | |items];
      try (intros H; injection H as <- <-; split; [exact Hw|reflexivity]).
    cbn [is_dict manifest_get andb].
    destruct (Dict.get items "mainWorkflowURL") as [[| | | |url| |]|] eqn:E;
      try (intros H; injection H as <- <-; split; [exact Hw|reflexivity]).
    intros H. injection H as <- <-. split; [exact Hw|]. split; [exact Hv|].
    eauto.
  - intros H. injection H as <- <-. split; [exact Hw|reflexivity].
Qed.

Lemma load_manifest_spec_witness :
  same_world (manifest_state minimal_manifest) (manifest_state minimal_manifest)
  /\ (file_at (fs (manifest_state minimal_manifest))
              (fs_key (manifest_state minimal_manifest) "/srv/wf/MANIFEST.json")
      = Some (Json minimal_manifest)
      /\ exists items url,
           minimal_manifest = JObject items
           /\ Dict.get items "mainWorkflowURL" = Some (JString url)).
Proof.
  apply (load_manifest_spec "/srv/wf/MANIFEST.json" "/srv/wf/MANIFEST.json"
           (manifest_state minimal_manifest) (Ok minimal_manifest)
           (manifest_state minimal_manifest)).
  vm_compute. reflexivity.
Defined.

Lemma check_manifest_same_world (archive_fn manifest_fn : string) (manifest : json) :
  preserves same_world (check_manifest archive_fn manifest_fn manifest).
Proof.
  unfold check_manifest, isfile, path_really_within. same_world_tac.
Qed.

(** X9: a handle that [unpack] yields is a safe one: its main document, and
    its input file if it has one, are regular files within its directory. *)
Theorem unpack_handle_safe (archive_fn : string) (st : State)
    (unpacked : UnpackedZip) (st' : State) :
  unpack_enter archive_fn st = (Ok unpacked, st') ->
  acceptable st' (dir unpacked) (main_wdl unpacked) = true
  /\ forall p, input_file unpacked = Some p ->
               acceptable st' (dir unpacked) p = true.
Proof.
  unfold unpack_enter. intros H. apply bind_inv in H.
  destruct H as [(fns & st1 & H1 & H2)|[(e & _ & He)|[_ He]]]; try discriminate.
  apply bind_inv in H2.
  destruct H2 as [(manifest & st2 & H2 & H3)|[(e & _ & He)|[_ He]]];
    try discriminate.
  destruct (load_manifest_spec _ _ _ _ _ H2) as [_ (_ & items & url & -> & Hurl)].
  assert (Hst : st' = st2).
  { destruct (check_manifest_same_world _ _ _ _ _ _ H3) as (D & C & F & T & X).
    revert H3.
    rewrite (run_check_manifest (fst fns) (snd fns) (JObject items) url st2 Hurl).
    intros H3.
    now injection H3. }
  subst st'.
  rewrite (run_check_manifest (fst fns) (snd fns) (JObject items) url st2 Hurl) in H3.
  match type of H3 with (if ?b then _ else _, _) = _ =>
    destruct b eqn:Hb end; [discriminate|].
  injection H3 as <-. apply orb_false_iff in Hb. destruct Hb as [Hm Hi].
  apply negb_false_iff in Hm. cbn [dir main_wdl input_file].
  split; [exact Hm|].
  intros p Hp. rewrite Hp in Hi. now apply negb_false_iff in Hi.
Qed.

Lemma unpack_handle_safe_witness :
  acceptable (manifest_state minimal_manifest) "/srv/wf" "/srv/wf/main.wdl" = true
  /\ forall p, (None : option string) = Some p ->
               acceptable (manifest_state minimal_manifest) "/srv/wf" p = true.
Proof.
  apply (unpack_handle_safe "/srv/wf" (manifest_state minimal_manifest)
           (mkUnpackedZip "/srv/wf" "/srv/wf/main.wdl" None)
           (manifest_state minimal_manifest)).
  vm_compute. reflexivity.
Defined.

Lemma mkdtemp_cases (prefix : string) (st : State) (r : result string)
    (st' : State) :
  mkdtemp prefix st = (r, st') ->
  cwd st' = cwd st /\ exit_stack st' = exit_stack st /\ docs st' = docs st
  /\ match r with
     | Ok d =>
         fs st !! fs_key st d = None
         /\ fs st' = <[fs_key st d := Dir]> (fs st)
         /\ exists rest, tmp_names st = d :: rest /\ tmp_names st' = rest
     | Raise e => e = OSError "mkdtemp" /\ fs st' = fs st
     | OutOfFuel => False
     end.
Proof.
  unfold mkdtemp. unfold bind at 1. rewrite run_os_call.
  assert (Hgo : forall st0,
    cwd st0 = cwd st -> exit_stack st0 = exit_stack st -> docs st0 = docs st ->
    fs st0 = fs st -> tmp_names st0 = tmp_names st ->
    (st1 <- get ;;
     match tmp_names st1 with
     | [] => raise (OSError "mkdtemp")
     | d :: rest =>
         modify (set_tmp_names rest) ;;;
         match fs st1 !! fs_key st1 d with
         | Some _ => raise (OSError "mkdtemp")
         | None =>
             modify (fun st => set_fs (<[fs_key st d := Dir]> (fs st)) st) ;;;
             ret d
         end
     end) st0 = (r, st') ->
    cwd st' = cwd st /\ exit_stack st' = exit_stack st /\ docs st' = docs st
    /\ match r with
       | Ok d =>
           fs st !! fs_key st d = None
           /\ fs st' = <[fs_key st d := Dir]> (fs st)
           /\ exists rest, tmp_names st = d :: rest /\ tmp_names st' = rest
       | Raise e => e = OSError "mkdtemp" /\ fs st' = fs st
       | OutOfFuel => False
       end).
  { intros st0 C X D F T H. unfold bind at 1 in H. unfold get in H.
    rewrite T in H. destruct (tmp_names st) as [|d rest] eqn:Et.
    - injection H as <- <-. auto.
    - unfold bind at 1, modify at 1 in H.
      assert (Hk : fs_key st0 d = fs_key st d) by (unfold fs_key; now rewrite C).
      rewrite Hk, F in H.
      destruct (fs st !! fs_key st d) eqn:Ef.
      + injection H as <- <-. cbn. auto.
      + unfold bind, modify, ret in H. injection H as <- <-. cbn.
        unfold fs_key at 2. cbn [cwd set_tmp_names]. fold (fs_key st0 d).
        rewrite Hk, F. repeat split; eauto. }
  destruct (faults st) as [|[] rest].
  - apply Hgo; reflexivity.
  - intros H. injection H as <- <-. cbn. auto.
  - apply Hgo; reflexivity.
Qed.

Lemma enter_temporary_directory_cases (prefix : string) (st : State)
    (r : result string) (st' : State) :
  enter_temporary_directory prefix st = (r, st') ->
  cwd st' = cwd st /\ docs st' = docs st
  /\ match r with
     | Ok d =>
         fs st !! fs_key st d = None
         /\ fs st' = <[fs_key st d := Dir]> (fs st)
         /\ exit_stack st' = d :: exit_stack st
         /\ exists rest, tmp_names st = d :: rest /\ tmp_names st' = rest
     | Raise e =>
         e = OSError "mkdtemp" /\ fs st' = fs st
         /\ exit_stack st' = exit_stack st
     | OutOfFuel => False
     end.
Proof.
  unfold enter_temporary_directory. unfold bind at 1.
  destruct (mkdtemp prefix st) as [[d|e|] st1] eqn:Hm;
    destruct (mkdtemp_cases _ _ _ _ Hm) as (C & X & D & Hr).
  - unfold bind, modify, ret. intros H. injection H as <- <-. cbn.
    destruct Hr as (Hn & Hf & rest & Ht & Ht'). rewrite X. eauto 10.
  - intros H. injection H as <- <-. destruct Hr. auto.
  - contradiction.
Qed.

(** what is no archive cannot be unpacked: [unpack_archive] raises and
    changes nothing but the fault schedule *)
Lemma unpack_archive_fails (filename extract_dir : string) (st : State) :
  (forall f ms, fs st !! fs_key st filename <> Some (File (Packed f ms))) ->
  exists e st',
    unpack_archive filename extract_dir st = (Raise e, st')
    /\ cwd st' = cwd st /\ exit_stack st' = exit_stack st /\ fs st' = fs st.
Proof.
  intros Hno. unfold unpack_archive. unfold bind at 1. rewrite run_os_call.
  assert (Hgo : forall st0, cwd st0 = cwd st -> exit_stack st0 = exit_stack st ->
                 fs st0 = fs st ->
    exists e st',
      (st1 <- get ;;
       match fs st1 !! fs_key st1 filename with
       | Some (File (Packed _ members)) =>
           for_each members (fun m =>
             let fn := PosixPath.join extract_dir (fst m) in
             makedirs (PosixPath.dirname fn) ;;;
             write_file fn (snd m))
       | Some (File _) => raise (ValueError "not an archive")
       | _ => raise (OSError "unpack_archive")
       end) st0 = (Raise e, st')
      /\ cwd st' = cwd st /\ exit_stack st' = exit_stack st /\ fs st' = fs st).
  { intros st0 C X F. unfold bind, get.
    assert (Hk : fs_key st0 filename = fs_key st filename)
      by (unfold fs_key; now rewrite C).
    rewrite Hk, F.
    destruct (fs st !! fs_key st filename) as [[[t|v|f ms]|]|] eqn:E;
      try (eexists; eexists; split; [reflexivity|auto]).
    exfalso. exact (Hno f ms eq_refl). }
  destruct (faults st) as [|[] rest].
  - apply Hgo; reflexivity.
  - eexists. eexists. split; [reflexivity|]. cbn. auto.
  - apply Hgo; reflexivity.
Qed.

(** X10: a path that is neither a directory nor a [MANIFEST.json] and holds
    no archive makes [unpack] raise the Input error for an unreadable archive
    (or the error of the operating system, if the temporary directory cannot
    be made); the body of the [with] statement is not run. *)
Theorem unpack_unreadable_archive {A} (archive_fn : string)
    (body : UnpackedZip -> M A) (st : State) :
  is_dir (fs st) (fs_key st archive_fn) = false ->
  PosixPath.basename archive_fn <> "MANIFEST.json" ->
  (forall f ms, fs st !! fs_key st archive_fn <> Some (File (Packed f ms))) ->
  fst (unpack archive_fn body st)
  = Raise (InputError ("Unreadable source archive " ++ archive_fn))
  \/ fst (unpack archive_fn body st) = Raise (OSError "mkdtemp").
Proof.
  intros Hdir Hbase Hno.
  assert (Hloc : exists e st1,
             locate_manifest archive_fn (set_exit_stack [] st) = (Raise e, st1)
             /\ (e = InputError ("Unreadable source archive " ++ archive_fn)
                 \/ e = OSError "mkdtemp")).
  { unfold locate_manifest. unfold bind at 1.
    unfold isdir at 1, bind at 1, get at 1, ret at 1.
    change (fs (set_exit_stack [] st)) with (fs st).
    change (fs_key (set_exit_stack [] st) archive_fn) with (fs_key st archive_fn).
    rewrite Hdir.
    destruct (String.eqb (PosixPath.basename archive_fn) "MANIFEST.json") eqn:E;
      [apply String.eqb_eq in E; contradiction|].
    unfold bind at 1.
    destruct (enter_temporary_directory "miniwdl_run_zip_" (set_exit_stack [] st))
      as [[d|e|] st1] eqn:Hd;
      destruct (enter_temporary_directory_cases _ _ _ _ Hd) as (C & D & Hr).
    - destruct Hr as (Hn & Hf & Hx & _).
      destruct (unpack_archive_fails archive_fn d st1) as (e & st2 & Hu & _).
      { intros f ms. assert (Hk : fs_key st1 archive_fn = fs_key st archive_fn)
          by (unfold fs_key; now rewrite C).
        rewrite Hk, Hf. cbn [fs set_exit_stack].
        change (fs_key (set_exit_stack [] st) d) with (fs_key st d).
        destruct (decide (fs_key st d = fs_key st archive_fn)) as [Heq|Hne].
        - rewrite Heq, lookup_insert_eq. discriminate.
        - rewrite lookup_insert_ne by exact Hne. apply Hno. }
      unfold bind at 1, try_except. rewrite Hu.
      eexists. eexists. split; [reflexivity|]. now left.
    - destruct Hr as (-> & _). eexists. eexists. split; [reflexivity|]. now right.
    - contradiction. }
  destruct Hloc as (e & st1 & Hloc & He).
  assert (Henter : unpack_enter archive_fn (set_exit_stack [] st) = (Raise e, st1)).
  { unfold unpack_enter. unfold bind at 1. now rewrite Hloc. }
  rewrite (unpack_raises archive_fn body st st1 e Henter).
  destruct He as [->| ->]; auto.
Qed.

Lemma unpack_unreadable_archive_witness :
  fst (unpack "/srv/notes.txt" (fun unpacked => ret unpacked) archive_state)
  = Raise (InputError ("Unreadable source archive " ++ "/srv/notes.txt"))
  \/ fst (unpack "/srv/notes.txt" (fun unpacked => ret unpacked) archive_state)
     = Raise (OSError "mkdtemp").
Proof.
  apply (unpack_unreadable_archive "/srv/notes.txt" (fun unpacked => ret unpacked)
           archive_state).
  - vm_compute. reflexivity.
  - discriminate.
  - intros f ms. vm_compute. discriminate.
Defined.

Lemma load_manifest_same_world (archive_fn manifest_fn : string) :
  preserves same_world (load_manifest archive_fn manifest_fn).
Proof.
  intros st r st' H. exact (proj1 (load_manifest_spec _ _ _ _ _ H)).
Qed.

Lemma take_drop (n : nat) (s : string) : PyStr.take n s ++ PyStr.drop n s = s.
Proof.
  revert s. induction n as [|n IH]; intros s; [reflexivity|].
  destruct s as [|c s]; [reflexivity|].
  cbn [PyStr.take PyStr.drop]. rewrite str_app_cons. now rewrite IH.
Qed.

Lemma endswith_split (s suf : string) :
  PyStr.endswith s suf = true -> exists s0, s = s0 ++ suf.
Proof.
  unfold PyStr.endswith. intros H. apply andb_true_iff in H. destruct H as [_ H].
  apply String.eqb_eq in H.
  exists (PyStr.take (PyStr.len s - PyStr.len suf) s).
  rewrite <- H at 2. symmetry. apply take_drop.
Qed.

Lemma has_sep_app_sep (a b : string) : PosixPath.has_sep (a ++ "/" ++ b) = true.
Proof.
  induction a as [|c a IH].
  - change (EmptyString ++ "/" ++ b) with (String "/" b).
    rewrite has_sep_cons. reflexivity.
  - rewrite str_app_cons, has_sep_cons, IH. apply orb_true_r.
Qed.

Lemma basename_no_sep_id (b : string) :
  PosixPath.has_sep b = false -> PosixPath.basename b = b.
Proof.
  destruct b as [|c b]; [reflexivity|].
  rewrite has_sep_cons. intros H. apply orb_false_iff in H. destruct H as [Hc Hb].
  cbn [PosixPath.basename]. rewrite Hb. unfold PyStr.slash.
  now rewrite Ascii.eqb_sym, Hc.
Qed.

(** the base name of what follows the last separator *)
Lemma basename_app_sep (a b : string) :
  PosixPath.has_sep b = false -> PosixPath.basename (a ++ "/" ++ b) = b.
Proof.
  intros Hb. induction a as [|c a IH].
  - change (EmptyString ++ "/" ++ b) with (String "/" b).
    cbn [PosixPath.basename]. rewrite Hb. reflexivity.
  - rewrite str_app_cons. cbn [PosixPath.basename].
    now rewrite has_sep_app_sep.
Qed.

Lemma basename_join (a b : string) :
  PosixPath.has_sep b = false -> PosixPath.basename (PosixPath.join a b) = b.
Proof.
  intros Hb. unfold PosixPath.join. change PosixPath.sep with "/".
  rewrite (no_sep_relative b Hb).
  destruct (String.eqb a EmptyString) eqn:Ea.
  - apply String.eqb_eq in Ea. subst a. cbn [orb].
    change (EmptyString ++ b) with b. now apply basename_no_sep_id.
  - cbn [orb]. destruct (PyStr.endswith a "/") eqn:Ee.
    + destruct (endswith_split a "/" Ee) as [a0 ->].
      rewrite str_app_assoc. now apply basename_app_sep.
    + now apply basename_app_sep.
Qed.

(** a directory or a manifest is used where it is *)
Lemma locate_manifest_in_place (archive_fn : string) (st : State) :
  is_dir (fs st) (fs_key st archive_fn) = true
  \/ PosixPath.basename archive_fn = "MANIFEST.json" ->
  exists fns, locate_manifest archive_fn st = (Ok fns, st).
Proof.
  intros H. unfold locate_manifest. unfold bind at 1.
  unfold isdir at 1, bind at 1, get at 1, ret at 1.
  destruct (is_dir (fs st) (fs_key st archive_fn)) eqn:Hd.
  - rewrite (basename_join archive_fn "MANIFEST.json" eq_refl).
    eexists. reflexivity.
  - destruct H as [H|H]; [discriminate|]. rewrite H. eexists. reflexivity.
Qed.

(** X11: for a directory or the path of a [MANIFEST.json], [unpack] makes no
    temporary directory and leaves the file system as it is, whatever its
    outcome; when the body of the [with] statement leaves the file system
    alone, nothing is removed on exit either. *)
Theorem unpack_in_place {A} (archive_fn : string) (body : UnpackedZip -> M A)
    (st : State) :
  is_dir (fs st) (fs_key st archive_fn) = true
  \/ PosixPath.basename archive_fn = "MANIFEST.json" ->
  same_world st (snd (unpack_enter archive_fn st))
  /\ ((forall unpacked, preserves same_world (body unpacked)) ->
      fs (snd (unpack archive_fn body st)) = fs st
      /\ tmp_names (snd (unpack archive_fn body st)) = tmp_names st).
Proof.
  intros Hin.
  assert (Hpres : forall st0 r st1,
             is_dir (fs st0) (fs_key st0 archive_fn) = true
             \/ PosixPath.basename archive_fn = "MANIFEST.json" ->
             unpack_enter archive_fn st0 = (r, st1) -> same_world st0 st1).
  { intros st0 r st1 H0 Hr. unfold unpack_enter in Hr.
    destruct (locate_manifest_in_place archive_fn st0 H0) as [fns Hloc].
    unfold bind at 1 in Hr. rewrite Hloc in Hr. revert Hr.
    apply (preserves_bind _ same_world_trans).
    - apply load_manifest_same_world.
    - intros manifest. apply check_manifest_same_world. }
  split.
  - eapply Hpres; [exact Hin|apply surjective_pairing].
  - intros Hbody. unfold unpack, with_exit_stack.
    destruct ((unpacked <- unpack_enter archive_fn ;; body unpacked)
                (set_exit_stack [] st)) as [rb stb] eqn:Hb.
    assert (Hw : same_world (set_exit_stack [] st) stb).
    { assert (Hin0 : is_dir (fs (set_exit_stack [] st))
                            (fs_key (set_exit_stack [] st) archive_fn) = true
                     \/ PosixPath.basename archive_fn = "MANIFEST.json")
        by exact Hin.
      apply bind_inv in Hb.
      destruct Hb as [(h & s1 & H1 & H2)|[(e & H1 & _)|[H1 _]]].
      - eapply same_world_trans; [exact (Hpres _ _ _ Hin0 H1)|].
        exact (Hbody h _ _ _ H2).
      - exact (Hpres _ _ _ Hin0 H1).
      - exact (Hpres _ _ _ Hin0 H1). }
    destruct Hw as (D & C & F & T & X). cbn in X, F, T.
    destruct rb as [a|e|]; cbn; try rewrite X; cbn; auto.
Qed.

Lemma unpack_in_place_witness :
  same_world (manifest_state minimal_manifest)
             (snd (unpack_enter "/srv/wf" (manifest_state minimal_manifest)))
  /\ ((forall unpacked,
         preserves same_world ((fun u : UnpackedZip => ret u) unpacked)) ->
      fs (snd (unpack "/srv/wf" (fun u => ret u) (manifest_state minimal_manifest)))
      = fs (manifest_state minimal_manifest)
      /\ tmp_names (snd (unpack "/srv/wf" (fun u => ret u)
                                (manifest_state minimal_manifest)))
         = tmp_names (manifest_state minimal_manifest)).
Proof.
  apply (unpack_in_place "/srv/wf" (fun u => ret u)
           (manifest_state minimal_manifest)).
  left. vm_compute. reflexivity.
Defined.

Lemma same_stack_refl (st : State) : same_stack st st.
Proof. unfold same_stack. auto. Qed.

Lemma same_stack_trans (a b c : State) :
  same_stack a b -> same_stack b c -> same_stack a c.
Proof. unfold same_stack. intuition congruence. Qed.

Lemma same_world_stack (a b : State) : same_world a b -> same_stack a b.
Proof. unfold same_world, same_stack. intuition. Qed.

Lemma modify_same_stack (f : State -> State) :
  (forall st, cwd (f st) = cwd st /\ exit_stack (f st) = exit_stack st) ->
  preserves same_stack (modify f).
Proof. intros Hf st r st' H. injection H as _ <-. apply Hf. Qed.

Ltac same_stack_tac :=
  preserve_with same_stack_refl same_stack_trans
    ltac:(first [ apply modify_same_stack; intros ?; split; reflexivity
                | apply (preserves_for_each _ same_stack_refl same_stack_trans)
                | apply (preserves_for_fold _ same_stack_refl same_stack_trans) ]).

Lemma unpack_archive_same_stack (filename extract_dir : string) :
  preserves same_stack (unpack_archive filename extract_dir).
Proof.
  unfold unpack_archive, makedirs, write_file, os_call. same_stack_tac.
Qed.

(** where the manifest of an archive is looked for: either the temporary
    directory could not be made, and nothing has changed, or it is the one
    directory on the exit stack *)
Lemma locate_manifest_archive (archive_fn : string) (st : State) (d : string)
    (rest : list string) (r : result (string * string)) (st' : State) :
  is_dir (fs st) (fs_key st archive_fn) = false ->
  PosixPath.basename archive_fn <> "MANIFEST.json" ->
  tmp_names st = d :: rest ->
  exit_stack st = [] ->
  locate_manifest archive_fn st = (r, st') ->
  cwd st' = cwd st
  /\ ((exit_stack st' = [] /\ fs st' = fs st /\ exists e, r = Raise e)
      \/ exit_stack st' = [d]).
Proof.
  intros Hdir Hbase Htmp Hstack. unfold locate_manifest. unfold bind at 1.
  unfold isdir at 1, bind at 1, get at 1, ret at 1. rewrite Hdir.
  destruct (String.eqb (PosixPath.basename archive_fn) "MANIFEST.json") eqn:E;
    [apply String.eqb_eq in E; contradiction|].
  intros H. apply bind_inv in H.
  destruct H as [(d' & s1 & H1 & H2)|[(e & H1 & ->)|[H1 _]]];
    destruct (enter_temporary_directory_cases _ _ _ _ H1) as (C & D & Hr);
    try contradiction.
  - destruct Hr as (_ & _ & Hx & rest' & Ht & _).
    rewrite Htmp in Ht. injection Ht as <- <-. rewrite Hstack in Hx.
    assert (Hs : same_stack s1 st').
    { revert H2. apply (preserves_bind _ same_stack_trans).
      - apply (preserves_try_except _ same_stack_trans).
        + apply unpack_archive_same_stack.
        + intros e. apply (preserves_raise _ same_stack_refl).
      - intros u. apply (preserves_ret _ same_stack_refl). }
    destruct Hs as [C' X']. split; [congruence|]. right. congruence.
  - destruct Hr as (_ & F & X). split; [exact C|]. left.
    rewrite X, Hstack. eauto.
Qed.

(** X12: the temporary directory into which [unpack] extracts an archive is
    gone when the [with] statement is left, whether it is left normally or
    by an exception, and with it everything below it. *)
Theorem unpack_removes_extraction_directory {A} (archive_fn : string)
    (body : UnpackedZip -> M A) (st : State) (d : string) (rest : list string) :
  is_dir (fs st) (fs_key st archive_fn) = false ->
  PosixPath.basename archive_fn <> "MANIFEST.json" ->
  tmp_names st = d :: rest ->
  (forall key, under (fs_key st d) key = true -> fs st !! key = None) ->
  (forall unpacked, preserves same_stack (body unpacked)) ->
  fst (unpack archive_fn body st) <> OutOfFuel ->
  forall key, under (fs_key st d) key = true ->
              fs (snd (unpack archive_fn body st)) !! key = None.
Proof.
  intros Hdir Hbase Htmp Hfresh Hbody Hfin key Hkey.
  unfold unpack, with_exit_stack in Hfin |- *.
  destruct ((unpacked <- unpack_enter archive_fn ;; body unpacked)
              (set_exit_stack [] st)) as [rb stb] eqn:Hb.
  assert (Hend : cwd stb = cwd st
                 /\ ((exit_stack stb = [] /\ fs stb = fs st)
                     \/ exit_stack stb = [d])).
  { assert (Hrest : forall fns,
              preserves same_stack
                (manifest <- load_manifest (fst fns) (snd fns) ;;
                 check_manifest (fst fns) (snd fns) manifest)).
    { intros fns. apply (preserves_bind _ same_stack_trans).
      - eapply preserves_weaken; [apply same_world_stack|].
        apply load_manifest_same_world.
      - intros m. eapply preserves_weaken; [apply same_world_stack|].
        apply check_manifest_same_world. }
    apply bind_inv in Hb.
    assert (Henter : forall r1 s1,
               unpack_enter archive_fn (set_exit_stack [] st) = (r1, s1) ->
               cwd s1 = cwd st
               /\ ((exit_stack s1 = [] /\ fs s1 = fs st /\ exists e, r1 = Raise e)
                   \/ exit_stack s1 = [d])).
    { intros r1 s1 H1. unfold unpack_enter in H1. apply bind_inv in H1.
      destruct H1 as [(fns & s0 & Hl & H2)|[(e & Hl & ->)|[Hl ->]]];
        destruct (locate_manifest_archive archive_fn (set_exit_stack [] st)
                    d rest _ _ Hdir Hbase Htmp eq_refl Hl) as [C Hc].
      - destruct Hc as [(_ & _ & e & He)|Hx]; [discriminate|].
        destruct (Hrest fns _ _ _ H2) as [C' X'].
        split; [cbn in C; congruence|]. right. congruence.
      - split; [exact C|]. destruct Hc as [(X & F & _)|Hx]; [|now right].
        left. eauto.
      - split; [exact C|]. destruct Hc as [(_ & _ & e & He)|Hx];
          [discriminate|now right]. }
    destruct Hb as [(h & s1 & H1 & H2)|[(e & H1 & _)|[H1 _]]];
      destruct (Henter _ _ H1) as [C Hc].
    - destruct Hc as [(_ & _ & e & He)|Hx]; [discriminate|].
      destruct (Hbody h _ _ _ H2) as [C' X'].
      split; [congruence|]. right. congruence.
    - split; [exact C|]. destruct Hc as [(X & F & _)|Hx]; auto.
    - split; [exact C|]. destruct Hc as [(_ & _ & e & He)|Hx];
        [discriminate|auto]. }
  destruct Hend as [C Hend].
  assert (Hclean : forall r0 : result A,
             fs (snd (let (_, st'') := for_each (exit_stack stb) rmtree stb in
                      (r0, set_exit_stack (exit_stack st) st''))) !! key = None).
  { intros r0. destruct Hend as [[X F]|X]; rewrite X.
    - cbn. rewrite F. now apply Hfresh.
    - cbn. apply map_lookup_filter_None_2. right. intros x _.
      unfold fs_key. rewrite C. fold (fs_key st d). cbn [fst].
      rewrite Hkey. discriminate. }
  destruct rb as [a|e|]; [apply Hclean|apply Hclean|].
  cbn in Hfin. contradiction.
Qed.

Lemma unpack_removes_extraction_directory_witness :
  under (fs_key archive_state "/tmp/miniwdl_run_zip_1")
        "/tmp/miniwdl_run_zip_1/main.wdl" = true
  /\ fs (snd (unpack "/srv/a.zip" (fun u => ret u) archive_state))
       !! "/tmp/miniwdl_run_zip_1/main.wdl"
     = None.
Proof.
  split; [vm_compute; reflexivity|].
  apply (unpack_removes_extraction_directory "/srv/a.zip" (fun u => ret u)
           archive_state "/tmp/miniwdl_run_zip_1" []).
  - vm_compute. reflexivity.
  - discriminate.
  - reflexivity.
  - intros key Hkey. unfold archive_state, state_of. cbn [fs].
    change (fs_key _ "/tmp/miniwdl_run_zip_1") with "/tmp/miniwdl_run_zip_1" in Hkey.
    rewrite <- not_elem_of_list_to_map. intros Hin.
    cbn in Hin. repeat (apply elem_of_cons in Hin; destruct Hin as [->|Hin];
                        [vm_compute in Hkey; discriminate|]).
    inversion Hin.
  - intros unpacked. apply (preserves_ret _ same_stack_refl).
  - vm_compute. discriminate.
  - vm_compute. reflexivity.
Defined.

(** * Further properties of [rewrite_imports] *)

Lemma working_copy_frame (ds : gmap nat Document.t) (sl n : nat)
    (P : nat -> Prop) (st st' : State) :
  working_copy ds sl n st -> lines_frame sl P st st' -> working_copy ds sl n st'.
Proof.
  intros [Hd (v & Hv & Hn)] (D & _ & _ & _ & _ & _ & _ & S).
  split; [congruence|].
  destruct (S v Hv) as (v' & Hv' & Hlen & _). exists v'. split; [exact Hv'|lia].
Qed.

(** a line that [rewrite_line] gets past exists, and the archive paths of
    both documents are there *)
Lemma rewrite_line_Ok (doc : Document.t) (zip_paths : Dict.t string)
    (sl : nat) (imp : DocImport.t) (found : bool) (lineno : Z)
    (ds : gmap nat Document.t) (n : nat) (st : State) (b : bool) (st' : State) :
  working_copy ds sl n st -> 0 <= lineno ->
  rewrite_line doc zip_paths sl imp found lineno st = (Ok b, st') ->
  working_copy ds sl n st'
  /\ lineno < Z.of_nat n
  /\ (exists d, ds !! DocImport.doc imp = Some d
                /\ is_Some (Dict.get zip_paths (abspath_of d)))
  /\ is_Some (Dict.get zip_paths (abspath_of doc)).
Proof.
  intros Hw Hlo H.
  split.
  { eapply working_copy_frame; [exact Hw|].
    exact (rewrite_line_frame doc zip_paths sl imp found lineno (fun _ => True)
             Hlo I st (Ok b) st' H). }
  destruct Hw as [Hd (v & Hv & Hn)].
  unfold rewrite_line in H.
  unfold bind at 1 in H. rewrite (run_list_getitem _ _ _ _ Hv) in H.
  destruct (index_of (length v) lineno) as [k|] eqn:Hk; [|discriminate].
  apply index_of_nonneg in Hk; [|assumption]. destruct Hk as [-> Hlt].
  destruct (v !! Z.to_nat lineno) as [line|]; [|discriminate].
  unfold bind at 1 in H. rewrite run_deref in H. rewrite Hd in H.
  destruct (ds !! DocImport.doc imp) as [d|]; [|discriminate].
  unfold bind at 1 in H. rewrite run_getitem in H.
  destruct (Dict.get zip_paths (abspath_of d)) as [p1|] eqn:Hp1; [|discriminate].
  unfold bind at 1 in H. rewrite run_getitem in H.
  destruct (Dict.get zip_paths (abspath_of doc)) as [p2|] eqn:Hp2; [|discriminate].
  split; [lia|]. split; [|eauto].
  exists d. split; [reflexivity|]. rewrite Hp1. eauto.
Qed.

Lemma for_fold_rewrite_line_Ok (doc : Document.t) (zip_paths : Dict.t string)
    (sl : nat) (imp : DocImport.t) (ds : gmap nat Document.t) (n : nat)
    (linenos : list Z) :
  (forall l, In l linenos -> 0 <= l) ->
  forall (found : bool) (st : State) (b : bool) (st' : State),
    working_copy ds sl n st ->
    for_fold linenos found (rewrite_line doc zip_paths sl imp) st = (Ok b, st') ->
    working_copy ds sl n st'
    /\ (linenos = [] -> b = found)
    /\ forall l, In l linenos ->
         l < Z.of_nat n
         /\ (exists d, ds !! DocImport.doc imp = Some d
                       /\ is_Some (Dict.get zip_paths (abspath_of d)))
         /\ is_Some (Dict.get zip_paths (abspath_of doc)).
Proof.
  induction linenos as [|lineno linenos IH]; intros Hpos found st b st' Hw H.
  - injection H as <- <-. split; [exact Hw|]. split; [reflexivity|]. intros l [].
  - cbn [for_fold] in H. apply bind_inv in H.
    destruct H as [(b1 & st1 & H1 & H2)|[(e & _ & He)|[_ He]]]; try discriminate.
    destruct (rewrite_line_Ok doc zip_paths sl imp found lineno ds n st b1 st1
                Hw (Hpos lineno (or_introl eq_refl)) H1) as (Hw1 & Hhere).
    destruct (IH (fun l Hl => Hpos l (or_intror Hl)) b1 st1 b st' Hw1 H2)
      as (Hw' & _ & Hrest).
    split; [exact Hw'|]. split; [discriminate|].
    intros l [<-|Hl]; [exact Hhere|exact (Hrest l Hl)].
Qed.

Lemma rewrite_import_Ok (doc : Document.t) (zip_paths : Dict.t string)
    (sl : nat) (imp : DocImport.t) (ds : gmap nat Document.t) (n : nat)
    (st st' : State) :
  working_copy ds sl n st ->
  rewrite_import doc zip_paths sl imp st = (Ok tt, st') ->
  working_copy ds sl n st' /\ rewritable ds zip_paths doc n imp.
Proof.
  intros Hw H. unfold rewrite_import in H. apply bind_inv in H.
  destruct H as [(b & st1 & H1 & H2)|[(e & _ & He)|[_ He]]]; try discriminate.
  set (lo := Z.pos (SourcePosition.line (DocImport.pos imp)) - 1) in *.
  set (hi := Z.pos (SourcePosition.end_line (DocImport.pos imp))) in *.
  destruct (for_fold_rewrite_line_Ok doc zip_paths sl imp ds n (range lo hi))
    with (found := false) (st := st) (b := b) (st' := st1)
    as (Hw1 & Hnil & Hall); [|exact Hw|exact H1|].
  { intros l Hl. apply in_range in Hl. unfold lo in Hl. lia. }
  destruct b; [|discriminate]. injection H2 as <-.
  split; [exact Hw1|].
  assert (Hlt : lo < hi).
  { destruct (Z_lt_ge_dec lo hi) as [Hlt|Hge]; [exact Hlt|].
    assert (E : range lo hi = []).
    { unfold range. replace (Z.to_nat (hi - lo)) with 0%nat by lia. reflexivity. }
    specialize (Hnil E). discriminate. }
  destruct (Hall (hi - 1)) as (Hin & Hkeys); [apply in_range; lia|].
  unfold rewritable. fold hi. split; [unfold lo in Hlt; lia|exact Hkeys].
Qed.

(** X13: [rewrite_imports] returns only for a document each of whose imports
    has a position that is not empty and lies within the lines of the
    document, and only when the imported document and the document itself
    both have an archive path. *)
Theorem rewrite_imports_returns_only_rewritable (doc : Document.t)
    (zip_paths : Dict.t string) (st : State) (original : list string)
    (new : nat) (st' : State) :
  heap st !! Document.source_lines doc = Some original ->
  rewrite_imports doc zip_paths st = (Ok new, st') ->
  forall imp, In imp (Document.imports doc) ->
    rewritable (docs st) zip_paths doc (length original) imp.
Proof.
  intros Horig Hrun.
  destruct (list_copy_spec _ _ _ Horig) as (sl & Hcopy & Hfresh).
  unfold rewrite_imports in Hrun. apply bind_inv in Hrun.
  destruct Hrun as [(a & st0 & H1 & H2)|[(e & _ & He)|[_ He]]]; try discriminate.
  rewrite Hcopy in H1. injection H1 as <- <-.
  apply bind_inv in H2.
  destruct H2 as [([] & st1 & H2 & _)|[(e & _ & He)|[_ He]]]; try discriminate.
  assert (Hw : working_copy (docs st) sl (length original)
                 (set_heap (<[sl := original]> (heap st)) st)).
  { split; [reflexivity|]. exists original. cbn. now rewrite lookup_insert_eq. }
  revert Hw H2. generalize (set_heap (<[sl := original]> (heap st)) st).
  induction (Document.imports doc) as [|imp0 imps IH]; intros s Hw H imp Hin.
  - destruct Hin.
  - cbn [for_each] in H. apply bind_inv in H.
    destruct H as [([] & s1 & Ha & Hb)|[(e & _ & He)|[_ He]]]; try discriminate.
    destruct (rewrite_import_Ok doc zip_paths sl imp0 (docs st) (length original)
                s s1 Hw Ha) as [Hw1 Hok].
    destruct Hin as [<-|Hin]; [exact Hok|].
    exact (IH s1 Hw1 Hb imp Hin).
Qed.

Lemma rewrite_imports_returns_only_rewritable_witness :
  rewritable (docs diamond_state) diamond_zip_paths diamond_main 2
             (DocImport.mk (source_position "/m/main.wdl" 2 2) "right.wdl" 2).
Proof.
  apply (rewrite_imports_returns_only_rewritable diamond_main diamond_zip_paths
           diamond_state
           ["import " ++ PyStr.quoted "left.wdl";
            "import " ++ PyStr.quoted "right.wdl"]
           (match fst (rewrite_imports diamond_main diamond_zip_paths diamond_state)
            with Ok n => n | _ => 0%nat end)
           (snd (rewrite_imports diamond_main diamond_zip_paths diamond_state))).
  - vm_compute. reflexivity.
  - vm_compute. reflexivity.
  - right. left. reflexivity.
Defined.

Lemma line_is_frame (sl k : nat) (x : string) (P : nat -> Prop) (st st' : State) :
  line_is sl k x st -> ~ P k -> lines_frame sl P st st' -> line_is sl k x st'.
Proof.
  intros (v & Hv & Hk) HP (_ & _ & _ & _ & _ & _ & _ & S).
  destruct (S v Hv) as (v' & Hv' & _ & Hsame). exists v'. split; [exact Hv'|].
  rewrite Hsame; assumption.
Qed.

Lemma map_seq_from {A} (f : nat -> A) (s n : nat) :
  List.map f (List.seq s n) = List.map (fun i => f (s + i)%nat) (List.seq 0 n).
Proof.
  revert s. induction n as [|n IH]; intros s.
  - reflexivity.
  - cbn [List.seq List.map]. f_equal; [f_equal; lia|].
    rewrite IH, <- List.seq_shift, List.map_map.
    apply List.map_ext. intros i. f_equal. lia.
Qed.

Lemma range_split (lo hi k : Z) :
  lo <= k < hi -> range lo hi = (range lo k ++ k :: range (k + 1) hi)%list.
Proof.
  intros H. unfold range.
  replace (Z.to_nat (hi - lo))
    with (Z.to_nat (k - lo) + S (Z.to_nat (hi - (k + 1))))%nat by lia.
  rewrite List.seq_app, List.map_app. f_equal.
  cbn [List.seq List.map]. f_equal; [lia|].
  rewrite map_seq_from. apply List.map_ext. intros i. lia.
Qed.

Lemma for_fold_app {A B} (l1 l2 : list A) (body : B -> A -> M B) (acc : B)
    (st : State) :
  for_fold (l1 ++ l2) acc body st
  = bind (for_fold l1 acc body) (fun acc' => for_fold l2 acc' body) st.
Proof.
  revert acc st. induction l1 as [|x l1 IH]; intros acc st.
  - reflexivity.
  - cbn [for_fold app]. unfold bind in *.
    destruct (body acc x st) as [[acc1|e|] st1]; try reflexivity.
    apply IH.
Qed.

Lemma run_logger (lv : level) (msg : string) (st : State) :
  logger lv msg st = (Ok tt, set_log (log st ++ [(lv, msg)])%list st).
Proof. reflexivity. Qed.

Lemma run_list_setitem (sl : nat) (i : Z) (x : string) (st : State)
    (v : list string) (k : nat) :
  heap st !! sl = Some v ->
  index_of (length v) i = Some k ->
  list_setitem sl i x st
  = (Ok tt, set_heap (<[sl := <[k := x]> v]> (heap st)) st).
Proof.
  intros Hv Hk. unfold list_setitem, list_read, bind, get, ret, modify.
  rewrite Hv, Hk. reflexivity.
Qed.

(** the line [rewrite_line] works on: afterwards it is the line with the
    quoted old URI replaced by the quoted new one *)
Lemma rewrite_line_at (doc : Document.t) (zip_paths : Dict.t string)
    (sl : nat) (imp : DocImport.t) (found : bool) (k : nat) (line : string)
    (d : Document.t) (p1 p2 new_uri : string) (st : State) (b : bool)
    (st' : State) :
  line_is sl k line st ->
  docs st !! DocImport.doc imp = Some d ->
  Dict.get zip_paths (abspath_of d) = Some p1 ->
  Dict.get zip_paths (abspath_of doc) = Some p2 ->
  PosixPath.relpath (cwd st) p1 (PosixPath.dirname p2) = Ok new_uri ->
  rewrite_line doc zip_paths sl imp found (Z.of_nat k) st = (Ok b, st') ->
  line_is sl k (PyStr.replace line (PyStr.quoted (DocImport.uri imp))
                              (PyStr.quoted new_uri)) st'.
Proof.
  intros (v & Hv & Hk) Hd Hp1 Hp2 Hrel H.
  unfold rewrite_line in H.
  unfold bind at 1 in H. rewrite (run_list_getitem _ _ _ _ Hv) in H.
  assert (Hlt : (k < length v)%nat) by (apply lookup_lt_is_Some; eauto).
  assert (Hi : index_of (length v) (Z.of_nat k) = Some k).
  { unfold index_of. destruct (Z.of_nat k <? 0) eqn:E; [apply Z.ltb_lt in E; lia|].
    destruct (0 <=? Z.of_nat k) eqn:E1; [|apply Z.leb_gt in E1; lia].
    destruct (Z.of_nat k <? Z.of_nat (length v)) eqn:E2;
      [cbn; f_equal; lia|apply Z.ltb_ge in E2; lia]. }
  rewrite Hi, Hk in H.
  unfold bind at 1 in H. rewrite run_deref, Hd in H.
  unfold bind at 1 in H. rewrite run_getitem, Hp1 in H.
  unfold bind at 1 in H. rewrite run_getitem, Hp2 in H.
  unfold bind at 1 in H. unfold get at 1 in H.
  unfold bind at 1 in H. unfold lift in H. rewrite Hrel in H.
  set (line2 := PyStr.replace line (PyStr.quoted (DocImport.uri imp))
                              (PyStr.quoted new_uri)) in *.
  destruct (String.eqb line line2) eqn:E.
  - apply String.eqb_eq in E. cbn [negb] in H. unfold bind, ret in H.
    injection H as _ <-. exists v. split; [exact Hv|]. now rewrite <- E.
  - cbn [negb] in H.
    unfold bind at 1 in H. unfold bind at 1 in H. rewrite run_logger in H.
    unfold bind at 1 in H. rewrite run_logger in H.
    unfold bind at 1 in H. rewrite run_logger in H.
    erewrite run_list_setitem in H; [|exact Hv|exact Hi].
    unfold ret in H. injection H as _ <-.
    exists (<[k := line2]> v). cbn [heap set_heap set_log].
    rewrite lookup_insert_eq. split; [reflexivity|].
    now apply list_lookup_insert_eq.
Qed.

(** the import that covers a line rewrites it *)
Lemma rewrite_import_at (doc : Document.t) (zip_paths : Dict.t string)
    (sl : nat) (imp : DocImport.t) (k : nat) (line : string)
    (d : Document.t) (p1 p2 new_uri : string) (st st' : State) :
  in_span imp k ->
  line_is sl k line st ->
  docs st !! DocImport.doc imp = Some d ->
  Dict.get zip_paths (abspath_of d) = Some p1 ->
  Dict.get zip_paths (abspath_of doc) = Some p2 ->
  PosixPath.relpath (cwd st) p1 (PosixPath.dirname p2) = Ok new_uri ->
  rewrite_import doc zip_paths sl imp st = (Ok tt, st') ->
  line_is sl k (PyStr.replace line (PyStr.quoted (DocImport.uri imp))
                              (PyStr.quoted new_uri)) st'.
Proof.
  intros Hspan Hline Hd Hp1 Hp2 Hrel H. unfold rewrite_import in H.
  apply bind_inv in H.
  destruct H as [(b & st3 & H1 & H2)|[(e & _ & He)|[_ He]]]; try discriminate.
  destruct b; [|discriminate]. injection H2 as ->.
  unfold in_span in Hspan.
  rewrite (range_split _ _ (Z.of_nat k) Hspan), for_fold_app in H1.
  apply bind_inv in H1.
  destruct H1 as [(b1 & st1 & H1 & H2)|[(e & _ & He)|[_ He]]]; try discriminate.
  cbn [for_fold] in H2. apply bind_inv in H2.
  destruct H2 as [(b2 & st2 & H2 & H3)|[(e & _ & He)|[_ He]]]; try discriminate.
  assert (F1 : lines_frame sl (fun j => (j < k)%nat) st st1).
  { revert H1.
    apply (preserves_for_fold _ (lines_frame_refl sl _) (lines_frame_trans sl _)).
    intros lineno Hin acc. apply in_range in Hin.
    apply rewrite_line_frame; lia. }
  assert (F3 : lines_frame sl (fun j => (k < j)%nat) st2 st').
  { revert H3.
    apply (preserves_for_fold _ (lines_frame_refl sl _) (lines_frame_trans sl _)).
    intros lineno Hin acc. apply in_range in Hin.
    apply rewrite_line_frame; lia. }
  apply (line_is_frame sl k _ (fun j => (k < j)%nat) st2 st');
    [|apply Nat.lt_irrefl|exact F3].
  pose proof F1 as (D1 & C1 & _).
  apply (rewrite_line_at doc zip_paths sl imp b1 k line d p1 p2 new_uri
           st1 b2 st2); try assumption.
  - apply (line_is_frame sl k _ (fun j => (j < k)%nat) st st1 Hline);
      [apply Nat.lt_irrefl|exact F1].
  - congruence.
  - congruence.
Qed.

(** X14: a line within the position of exactly one import of the document
    is, in the list [rewrite_imports] returns, the original line with every
    occurrence of the quoted URI of that import replaced by the quoted path
    of the imported document relative to the directory of the importing one,
    both taken inside the archive. *)
Theorem rewrite_imports_rewrites_line (doc : Document.t)
    (zip_paths : Dict.t string) (st : State) (original : list string)
    (new : nat) (st' : State) (before after : list DocImport.t)
    (imp : DocImport.t) (k : nat) (line : string) (d : Document.t)
    (p1 p2 new_uri : string) :
  heap st !! Document.source_lines doc = Some original ->
  rewrite_imports doc zip_paths st = (Ok new, st') ->
  Document.imports doc = (before ++ imp :: after)%list ->
  in_span imp k ->
  (forall imp', In imp' (before ++ after)%list -> ~ in_span imp' k) ->
  original !! k = Some line ->
  docs st !! DocImport.doc imp = Some d ->
  Dict.get zip_paths (abspath_of d) = Some p1 ->
  Dict.get zip_paths (abspath_of doc) = Some p2 ->
  PosixPath.relpath (cwd st) p1 (PosixPath.dirname p2) = Ok new_uri ->
  exists lines,
    heap st' !! new = Some lines
    /\ lines !! k = Some (PyStr.replace line (PyStr.quoted (DocImport.uri imp))
                                        (PyStr.quoted new_uri)).
Proof.
  intros Horig Hrun Himports Hspan Hothers Hline Hd Hp1 Hp2 Hrel.
  destruct (list_copy_spec _ _ _ Horig) as (sl & Hcopy & Hfresh).
  unfold rewrite_imports in Hrun. apply bind_inv in Hrun.
  destruct Hrun as [(a & st0 & H1 & H2)|[(e & _ & He)|[_ He]]]; try discriminate.
  rewrite Hcopy in H1. injection H1 as <- <-.
  apply bind_inv in H2.
  destruct H2 as [([] & st3 & H2 & H3)|[(e & _ & He)|[_ He]]]; try discriminate.
  injection H3 as <- <-.
  rewrite Himports, for_each_app in H2. apply bind_inv in H2.
  destruct H2 as [([] & st1 & H2 & H3)|[(e & _ & He)|[_ He]]]; try discriminate.
  cbn [for_each] in H3. apply bind_inv in H3.
  destruct H3 as [([] & st2 & H3 & H4)|[(e & _ & He)|[_ He]]]; try discriminate.
  set (st0 := set_heap (<[sl := original]> (heap st)) st) in *.
  assert (Hframe : forall l s s',
             (forall imp', In imp' l -> ~ in_span imp' k) ->
             for_each l (rewrite_import doc zip_paths sl) s = (Ok tt, s') ->
             lines_frame sl (fun j => j <> k) s s').
  { intros l s s' Hl. 
    apply (preserves_for_each _ (lines_frame_refl sl _) (lines_frame_trans sl _)).
    intros imp' Himp'. eapply preserves_weaken; [|apply rewrite_import_frame].
    intros x y. apply lines_frame_weaken. intros j Hj ->.
    exact (Hl imp' Himp' Hj). }
  assert (F1 : lines_frame sl (fun j => j <> k) st0 st1).
  { apply (Hframe before); [|exact H2].
    intros imp' Hin. apply Hothers, in_or_app. now left. }
  assert (F3 : lines_frame sl (fun j => j <> k) st2 st3).
  { apply (Hframe after); [|exact H4].
    intros imp' Hin. apply Hothers, in_or_app. now right. }
  assert (L0 : line_is sl k line st0).
  { exists original. split; [|exact Hline]. unfold st0. cbn.
    apply lookup_insert_eq. }
  assert (L1 : line_is sl k line st1).
  { apply (line_is_frame sl k _ (fun j => j <> k) st0 st1 L0); [auto|exact F1]. }
  pose proof F1 as (D1 & C1 & _).
  assert (L2 : line_is sl k (PyStr.replace line (PyStr.quoted (DocImport.uri imp))
                                           (PyStr.quoted new_uri)) st2).
  { apply (rewrite_import_at doc zip_paths sl imp k line d p1 p2 new_uri st1 st2);
      try assumption.
    - rewrite D1. exact Hd.
    - rewrite C1. exact Hrel. }
  apply (line_is_frame sl k _ (fun j => j <> k) st2 st3 L2); [auto|exact F3].
Qed.

Lemma rewrite_imports_rewrites_line_witness :
  let run := rewrite_imports (Document.mk (source_position "/m/sub/main.wdl" 1 2) 10
                                [DocImport.mk (source_position "/m/sub/main.wdl" 2 2)
                                              "../lib/util.wdl" 1])
               [("/m/sub/main.wdl", "main.wdl");
                ("/m/lib/util.wdl", "__outside_wdl/lib/util.wdl")]
               rewritten_state in
  exists lines,
    heap (snd run) !! match fst run with Ok n => n | _ => 0%nat end = Some lines
    /\ lines !! 1%nat
       = Some ("import " ++ PyStr.quoted "__outside_wdl/lib/util.wdl" ++ " as u").
Proof.
  intros run.
  apply (rewrite_imports_rewrites_line
           (Document.mk (source_position "/m/sub/main.wdl" 1 2) 10
              [DocImport.mk (source_position "/m/sub/main.wdl" 2 2)
                            "../lib/util.wdl" 1])
           [("/m/sub/main.wdl", "main.wdl");
            ("/m/lib/util.wdl", "__outside_wdl/lib/util.wdl")]
           rewritten_state
           ["version 1.0"; "import " ++ PyStr.quoted "../lib/util.wdl" ++ " as u"]
           (match fst run with Ok n => n | _ => 0%nat end) (snd run)
           [] [] (DocImport.mk (source_position "/m/sub/main.wdl" 2 2)
                               "../lib/util.wdl" 1)
           1%nat ("import " ++ PyStr.quoted "../lib/util.wdl" ++ " as u")
           (Document.mk (source_position "/m/lib/util.wdl" 1 1) 11 [])
           "__outside_wdl/lib/util.wdl" "main.wdl" "__outside_wdl/lib/util.wdl").
  - vm_compute. reflexivity.
  - vm_compute. reflexivity.
  - reflexivity.
  - unfold in_span. cbn. lia.
  - intros imp' [].
  - reflexivity.
  - vm_compute. reflexivity.
  - reflexivity.
  - reflexivity.
  - vm_compute. reflexivity.
Defined.

(** * Further properties of [build] *)

Lemma finishes_lift {A} (r : result A) : r <> OutOfFuel -> finishes (lift r).
Proof. intros H st. exact H. Qed.

Lemma finishes_if {A} (b : bool) (m1 m2 : M A) :
  finishes m1 -> finishes m2 -> finishes (if b then m1 else m2).
Proof. destruct b; auto. Qed.

Lemma os_call_finishes (what : string) : finishes (os_call what).
Proof. unfold os_call. finish_with fail. Qed.

Lemma logger_finishes (lv : level) (msg : string) : finishes (logger lv msg).
Proof. apply finishes_modify. Qed.

Lemma makedirs_finishes (p : string) : finishes (makedirs p).
Proof.
  unfold makedirs.
  finish_with ltac:(first [apply os_call_finishes | apply finishes_for_each]).
Qed.

Lemma write_file_finishes (p : string) (c : content) : finishes (write_file p c).
Proof. unfold write_file. finish_with ltac:(apply os_call_finishes). Qed.

Lemma enter_temporary_directory_finishes (prefix : string) :
  finishes (enter_temporary_directory prefix).
Proof.
  unfold enter_temporary_directory, mkdtemp.
  finish_with ltac:(apply os_call_finishes).
Qed.

Lemma make_archive_finishes (base_name format root_dir : string) :
  finishes (make_archive base_name format root_dir).
Proof.
  unfold make_archive.
  finish_with ltac:(first [apply os_call_finishes | apply write_file_finishes]).
Qed.

Lemma rename_finishes (src dst : string) : finishes (rename src dst).
Proof. unfold rename. finish_with ltac:(apply os_call_finishes). Qed.

Lemma build_zip_paths_finishes (main_dir : string) (wdls : Dict.t nat) :
  finishes (build_zip_paths main_dir wdls).
Proof.
  unfold build_zip_paths. apply finishes_bind.
  - apply finishes_for_fold. intros [ans warn] abspath.
    finish_with ltac:(first [ apply finishes_lift, zip_path_finishes
                            | apply logger_finishes ]).
  - intros r. finish_with ltac:(first [apply finishes_if | apply logger_finishes]).
Qed.

(** apart from the loop that collects the documents, every loop of [build]
    runs over a list that is there before the loop starts *)
Lemma finishes_bind_at {A B} (m : M A) (k : A -> M B) (st : State) :
  fst (m st) <> OutOfFuel -> (forall a, finishes (k a)) ->
  fst (bind m k st) <> OutOfFuel.
Proof.
  intros Hm Hk. unfold bind. destruct (m st) as [[a|e|] st1]; cbn [fst] in *.
  - apply Hk.
  - discriminate.
  - congruence.
Qed.

(** X17: on an import graph without a cycle [build] comes to an outcome,
    a result or an exception: the loop that collects the documents is its
    only loop that is not bounded in advance. *)
Theorem build_finishes_on_acyclic_graph (st : State) (rank : nat -> nat)
    (top_doc : nat) (archive : string)
    (inputs meta : option (list (string * json))) (format : string) :
  acyclic rank st = true ->
  exists fuel : nat,
    forall fuel', (fuel <= fuel')%nat ->
      fst (build fuel' top_doc archive inputs meta format st) <> OutOfFuel.
Proof.
  intros Hacyclic.
  set (st0 := set_exit_stack [] st).
  assert (Hbody : forall fuel',
             fst (build_source_dir fuel' top_doc st0) <> OutOfFuel ->
             fst (build fuel' top_doc archive inputs meta format st) <> OutOfFuel).
  { intros fuel' Hsrc. unfold build, with_exit_stack. fold st0.
    match goal with |- context [bind ?m ?k st0] =>
      pose proof (finishes_bind_at m k st0 Hsrc) as Hb;
      destruct (bind m k st0) as [[u|e|] st1]
    end.
    - destruct (for_each (exit_stack st1) rmtree st1). discriminate.
    - destruct (for_each (exit_stack st1) rmtree st1). discriminate.
    - exfalso. apply Hb; [|reflexivity].
      intros dir_to_zip.
      finish_with ltac:(first [ apply write_file_finishes | apply logger_finishes
                              | apply enter_temporary_directory_finishes
                              | apply make_archive_finishes
                              | apply makedirs_finishes | apply rename_finishes
                              | apply finishes_if ]).
      all: unfold deref; finish_with fail. }
  destruct (docs st !! top_doc) as [top|] eqn:Htop.
  - destruct (collect_drain st0 rank Hacyclic (S (rank top_doc)) [top_doc])
      with (q := @nil nat) (w := @nil (string * nat))
      as (k & w' & Hrun & _).
    { intros r [<-|[]]. split; [lia|]. unfold st0. cbn. rewrite Htop. eauto. }
    exists k. intros fuel' Hle. apply Hbody.
    unfold build_source_dir. unfold bind at 1. rewrite run_deref.
    change (docs st0) with (docs st). rewrite Htop.
    apply finishes_bind_at.
    + replace fuel' with (k + (fuel' - k))%nat by lia.
      cbn [app] in Hrun. rewrite Hrun, collect_done. discriminate.
    + intros wdls. unfold Dict.getitem, deref, list_read.
      finish_with ltac:(first [ apply build_zip_paths_finishes
                              | apply enter_temporary_directory_finishes
                              | apply finishes_for_each
                              | apply rewrite_imports_finishes
                              | apply makedirs_finishes
                              | apply write_file_finishes ]).
  - exists 0%nat. intros fuel' _. apply Hbody.
    unfold build_source_dir. unfold bind at 1. rewrite run_deref.
    change (docs st0) with (docs st). rewrite Htop. discriminate.
Qed.

Lemma build_finishes_on_acyclic_graph_witness :
  exists fuel : nat,
    forall fuel', (fuel <= fuel')%nat ->
      fst (build fuel' 0 "out/w.zip" None None "zip" diamond_state) <> OutOfFuel.
Proof.
  apply (build_finishes_on_acyclic_graph diamond_state (fun r => (3 - r)%nat)).
  vm_compute. reflexivity.
Defined.

Section BuildFrame.

Variable cwd0 : string.
Variable docs0 : gmap nat Document.t.
Variable k : string.
Variable o0 : option content.

Let Inv : State -> Prop := build_invariant cwd0 docs0 k o0.

(** the archive is made elsewhere than at [k] *)
Lemma make_archive_frame (d b format root : string) :
  clean_tmp k d = true ->
  PosixPath.has_sep b = false ->
  triple Inv (make_archive (PosixPath.join d b) format root)
         (fun out st => Inv st /\ PosixPath.abspath cwd0 out <> k) Inv.
Proof using Type.
  intros Hd Hb. unfold make_archive.
  destruct (archive_extension format) as [ext|] eqn:Hext;
    [|apply triple_raise; auto].
  pose proof (archive_not_key cwd0 k d b format ext Hd Hb Hext) as Hne.
  eapply triple_bind;
    [apply (triple_same_world cwd0 docs0 k o0), os_call_same_world|].
  intros u. eapply triple_bind; [apply triple_get|].
  intros st0. cbv beta.
  destruct (negb (is_dir (fs st0) (fs_key st0 root))).
  { apply triple_raise. now intros st [_ H]. }
  eapply triple_bind with (Q1 := fun _ => Inv).
  - eapply triple_conseq with (P := Inv) (E := Inv);
      [now intros st [_ H]|intros a st H; exact H|auto|].
    apply (write_file_keeps cwd0 docs0 k o0). exact Hne.
  - intros u'. apply triple_ret. intros st HI. split; [exact HI|exact Hne].
Qed.

(** a rename between two other places leaves what is at [k] *)
Lemma rename_frame (src dst : string) :
  PosixPath.abspath cwd0 src <> k ->
  PosixPath.abspath cwd0 dst <> k ->
  triple Inv (rename src dst) (fun _ => Inv) Inv.
Proof using Type.
  intros Hsrc Hdst. unfold rename.
  eapply triple_bind;
    [apply (triple_same_world cwd0 docs0 k o0), os_call_same_world|].
  intros u st r st' HI H. unfold bind, get in H.
  destruct HI as (C & D & F & T & X).
  unfold fs_key in H. rewrite C in H.
  destruct (fs st !! PosixPath.abspath cwd0 src) as [[c|]|].
  2,3: injection H as <- <-; unfold Inv, build_invariant; auto 6.
  destruct (is_dir (fs st) (PosixPath.abspath cwd0 dst)
            || negb (is_dir (fs st) (PosixPath.dirname (PosixPath.abspath cwd0 dst)))).
  - injection H as <- <-. unfold Inv, build_invariant. auto 6.
  - injection H as <- <-. unfold Inv, build_invariant. cbn.
    repeat (split; [assumption|]). split; [|split; assumption].
    unfold file_at in *.
    rewrite lookup_insert_ne by assumption.
    rewrite lookup_delete_ne by assumption. exact F.
Qed.

Variable top_doc : nat.
Hypothesis Hsafe :
  forall top r d p,
    docs0 !! top_doc = Some top ->
    docs0 !! r = Some d ->
    zip_path cwd0 (main_dir_of top) (abspath_of d) = Ok p ->
    safe_relative p = true.

(** [build] without its exit stack, seen from a place that is not its
    destination *)
Lemma build_frame_steps (fuel : nat) (archive : string)
    (inputs meta : option (list (string * json))) (format : string) :
  PosixPath.abspath cwd0 archive <> k ->
  exists body,
    build fuel top_doc archive inputs meta format = with_exit_stack body
    /\ triple Inv body (fun _ => Inv) Inv.
Proof using Hsafe.
  intros Hk. eexists. split; [reflexivity|].
  eapply triple_bind;
    [apply (build_source_dir_spec cwd0 docs0 k o0 top_doc Hsafe)|].
  intros dir_to_zip. apply triple_pure. intros Hdir.
  eapply triple_bind; [apply triple_deref_inv|].
  intros top. apply triple_pure. intros _.
  eapply triple_bind with (Q1 := fun _ => Inv).
  { destruct inputs as [[|i rest]|]; try (apply triple_ret; auto).
    eapply triple_bind with (Q1 := fun _ => Inv);
      [|intros u; apply triple_ret; auto].
    apply write_file_keeps. apply staged_not_key; [exact Hdir|reflexivity]. }
  intros manifest.
  eapply triple_bind with (Q1 := fun _ => Inv).
  { apply write_file_keeps. apply staged_not_key; [exact Hdir|reflexivity]. }
  intros u1.
  eapply triple_bind; [apply triple_same_world, logger_same_world|].
  intros u2.
  eapply triple_bind; [apply enter_temporary_directory_spec|].
  intros tmp_zip. apply triple_pure. intros Htmp.
  eapply triple_bind; [apply triple_same_world, logger_same_world|].
  intros u3.
  eapply triple_bind;
    [apply make_archive_frame; [exact Htmp|apply basename_no_sep]|].
  intros out. apply triple_pure_r. intros Hout.
  eapply triple_bind; [apply triple_same_world, logger_same_world|].
  intros u4.
  eapply triple_bind with (Q1 := fun _ => Inv).
  { apply triple_same_files. destruct (PyStr.contains "/" archive).
    - apply makedirs_same_files.
    - apply (preserves_ret _ same_files_refl). }
  intros u5. apply rename_frame; assumption.
Qed.

End BuildFrame.

(** X15: [build] changes no regular file but the one at its destination and
    those below its temporary directories, whatever its outcome: what is at
    any other place before the call is there afterwards, and where there was
    no regular file there is none. *)
Theorem build_frame (fuel : nat) (top_doc : nat) (archive : string)
    (inputs meta : option (list (string * json))) (format : string)
    (st : State) (r : result unit) (st' : State) (key : string) :
  key <> fs_key st archive ->
  forallb (clean_tmp key) (tmp_names st) = true ->
  staging_safe top_doc st = true ->
  build fuel top_doc archive inputs meta format st = (r, st') ->
  file_at (fs st') key = file_at (fs st) key.
Proof.
  intros Hkey Htmp Hsafe Hrun.
  assert (Hsafe' : forall top r0 d p,
             docs st !! top_doc = Some top ->
             docs st !! r0 = Some d ->
             zip_path (cwd st) (main_dir_of top) (abspath_of d) = Ok p ->
             safe_relative p = true).
  { intros top r0 d p Htop Hd Hzp. unfold staging_safe in Hsafe.
    rewrite Htop in Hsafe. rewrite forallb_forall in Hsafe.
    assert (Hin : In (r0, d) (map_to_list (docs st))).
    { apply list_elem_of_In. now apply elem_of_map_to_list. }
    specialize (Hsafe _ Hin). cbn [snd] in Hsafe.
    rewrite Hzp in Hsafe. exact Hsafe. }
  destruct (build_frame_steps (cwd st) (docs st) key (file_at (fs st) key)
              top_doc Hsafe' fuel archive inputs meta format)
    as (body & Hbuild & Hbody).
  { intros E. apply Hkey. now rewrite <- E. }
  rewrite Hbuild in Hrun. unfold with_exit_stack in Hrun.
  destruct (body (set_exit_stack [] st)) as [rb stb] eqn:Hb.
  assert (HI : build_invariant (cwd st) (docs st) key (file_at (fs st) key)
                 (set_exit_stack [] st)).
  { unfold build_invariant. cbn.
    repeat (split; [reflexivity|]). split; [|constructor].
    apply List.Forall_forall. intros d Hd.
    rewrite forallb_forall in Htmp. apply Htmp. exact Hd. }
  specialize (Hbody _ rb stb HI Hb).
  assert (Hstb : build_invariant (cwd st) (docs st) key (file_at (fs st) key) stb)
    by (destruct rb; exact Hbody).
  destruct Hstb as (C & D & F & T & X).
  destruct (cleanup_spec (cwd st) key (exit_stack stb) X stb C) as (st2 & H2 & Hf).
  destruct rb as [[]|e|].
  - rewrite H2 in Hrun. injection Hrun as <- <-. cbn. now rewrite Hf.
  - rewrite H2 in Hrun. injection Hrun as <- <-. cbn. now rewrite Hf.
  - injection Hrun as <- <-. exact F.
Qed.

Lemma build_frame_witness :
  let st := set_faults [] overwrite_state in
  file_at (fs (snd (build 10 0 "out/w.zip" None None "zip" st))) "/w/out.zip"
  = file_at (fs st) "/w/out.zip".
Proof.
  intros st.
  apply (build_frame 10 0 "out/w.zip" None None "zip" st
           (fst (build 10 0 "out/w.zip" None None "zip" st))
           (snd (build 10 0 "out/w.zip" None None "zip" st)) "/w/out.zip").
  - vm_compute. discriminate.
  - vm_compute. reflexivity.
  - vm_compute. reflexivity.
  - apply surjective_pairing.
Defined.

(** the place of a file staged under a single name *)
Lemma staged_key (cwd k d p : string) :
  clean_tmp k d = true ->
  safe_relative p = true ->
  PosixPath.abspath cwd (PosixPath.join d p)
  = match List.filter kept (PyStr.split PyStr.slash p) with
    | [] => d
    | f :: fs => d ++ "/" ++ PyStr.join "/" (f :: fs)
    end.
Proof.
  unfold clean_tmp, safe_relative. intros Hd Hp.
  apply andb_true_iff in Hd. destruct Hd as [Hd _].
  apply andb_true_iff in Hd. destruct Hd as [Hd Hend].
  apply andb_true_iff in Hd. destruct Hd as [Hnorm Habs].
  apply negb_true_iff in Hend. apply String.eqb_eq in Hnorm.
  apply andb_true_iff in Hp. destruct Hp as [Hrel Hcomps].
  apply negb_true_iff in Hrel.
  rewrite (join_relative d p Habs Hend Hrel).
  assert (Habs' : PosixPath.isabs (d ++ "/" ++ p) = true).
  { unfold PosixPath.isabs. destruct d as [|c d]; [discriminate|].
    rewrite str_app_cons. change PosixPath.sep with "/".
    cbn [PyStr.startswith] in Habs |- *.
    apply andb_true_iff in Habs. destruct Habs as [-> _].
    now rewrite startswith_nil. }
  unfold PosixPath.abspath. rewrite Habs'.
  set (i := PosixPath.initial_slashes d) in *.
  set (Sd := PosixPath.normpath_comps i (PyStr.split PyStr.slash d) []).
  assert (Hdne : String.eqb d EmptyString = false)
    by (destruct d; [discriminate|reflexivity]).
  assert (Hdform : d = PyStr.repeat PyStr.slash i ++ PyStr.join "/" Sd).
  { unfold PosixPath.normpath in Hnorm. rewrite Hdne in Hnorm.
    fold i in Hnorm. fold Sd in Hnorm. cbv zeta in Hnorm.
    change PosixPath.sep with "/" in Hnorm.
    destruct (String.eqb (PyStr.repeat PyStr.slash i ++ PyStr.join "/" Sd)
                         EmptyString).
    - subst d. discriminate.
    - now symmetry. }
  assert (HSd : Sd <> []).
  { intros E. rewrite E in Hdform. cbn [PyStr.join] in Hdform.
    rewrite str_app_nil_r in Hdform.
    assert (Hi : i = 1%nat \/ i = 2%nat).
    { unfold i, PosixPath.initial_slashes. change PosixPath.sep with "/".
      rewrite Habs.
      match goal with |- context [if ?b then _ else _] => destruct b end; auto. }
    destruct Hi as [Hi|Hi]; rewrite Hi in Hdform; subst d; discriminate. }
  unfold PosixPath.normpath.
  assert (Hxne : String.eqb (d ++ "/" ++ p) EmptyString = false)
    by (destruct d; [discriminate|reflexivity]).
  rewrite Hxne. rewrite (initial_slashes_app d ("/" ++ p) Habs Hend). fold i.
  change ("/" ++ p) with (String PyStr.slash p).
  rewrite split_app_sep, normpath_comps_app. fold Sd.
  rewrite (normpath_comps_no_pardir i _ Sd Hcomps).
  cbv zeta. change PosixPath.sep with "/".
  destruct (List.filter kept (PyStr.split PyStr.slash p)) as [|f fs] eqn:EF.
  - rewrite app_nil_r, <- Hdform, Hdne. reflexivity.
  - rewrite join_app by (auto; discriminate).
    rewrite <- str_app_assoc, <- Hdform.
    assert (Hne2 : String.eqb (d ++ "/" ++ PyStr.join "/" (f :: fs)) EmptyString
                   = false)
      by (destruct d; [discriminate|reflexivity]).
    rewrite Hne2. reflexivity.
Qed.

Lemma drop_app (a b : string) : PyStr.drop (PyStr.len a) (a ++ b) = b.
Proof. induction a as [|c a IH]; [reflexivity|exact IH]. Qed.

(** a regular file directly below the root is a member of the archive *)
Lemma members_of_In (f : gmap string node) (root name : string) (c : content) :
  PyStr.endswith root "/" = false ->
  f !! (root ++ "/" ++ name) = Some (File c) ->
  In (name, c) (members_of f root).
Proof.
  intros Hend Hf. unfold members_of. rewrite Hend.
  apply list_elem_of_In, list_elem_of_omap.
  exists (root ++ "/" ++ name, File c). split.
  - now apply elem_of_map_to_list.
  - cbn [fst snd]. rewrite <- str_app_assoc, startswith_app, drop_app.
    reflexivity.
Qed.

Lemma keeps_files_refl (st : State) : keeps_files st st.
Proof. split; reflexivity. Qed.

Lemma keeps_files_trans (a b c : State) :
  keeps_files a b -> keeps_files b c -> keeps_files a c.
Proof.
  intros [C1 F1] [C2 F2]. split; [congruence|].
  intros key. now rewrite F2, F1.
Qed.

Lemma same_files_keeps (a b : State) : same_files a b -> keeps_files a b.
Proof. intros (_ & C & _ & _ & F). split; assumption. Qed.

Lemma same_world_keeps (a b : State) : same_world a b -> keeps_files a b.
Proof. intros H. apply same_files_keeps, same_world_files, H. Qed.

Lemma enter_temporary_directory_keeps (prefix : string) :
  preserves keeps_files (enter_temporary_directory prefix).
Proof.
  unfold enter_temporary_directory, mkdtemp.
  apply (preserves_bind _ keeps_files_trans).
  - apply (preserves_bind _ keeps_files_trans).
    { eapply preserves_weaken; [apply same_world_keeps|apply os_call_same_world]. }
    intros u st r st' H. unfold bind, get in H.
    destruct (tmp_names st) as [|d rest].
    + injection H as _ <-. apply keeps_files_refl.
    + unfold modify at 1 in H. cbv beta iota in H.
      destruct (fs st !! fs_key st d) eqn:Ef.
      * injection H as _ <-. split; reflexivity.
      * unfold modify, ret in H. injection H as _ <-. split; [reflexivity|].
        intros key. cbn. now apply file_at_insert_dir.
  - intros d st r st' H. unfold bind, modify, ret in H. injection H as _ <-.
    split; reflexivity.
Qed.

Lemma holds_keeps (cwd0 key : string) (c : content) (st st' : State) :
  holds cwd0 key c st -> keeps_files st st' -> holds cwd0 key c st'.
Proof. intros [C F] [C' F']. split; [congruence|]. now rewrite F'. Qed.

Lemma archived_with_keeps (good : list (string * content) -> Prop)
    (key format : string) (st st' : State) :
  archived_with good key format st -> keeps_files st st' ->
  archived_with good key format st'.
Proof. intros (ms & F & G) [_ F']. exists ms. split; [now rewrite F'|exact G]. Qed.

(** two specifications of the same computation hold together *)
Lemma triple_also {A} (P : State -> Prop) (m : M A) (Q : A -> State -> Prop)
    (E : State -> Prop) (G : State -> Prop) (G' : A -> State -> Prop) :
  triple P m Q E ->
  triple G m G' (fun _ => True) ->
  triple (fun st => P st /\ G st) m (fun a st => Q a st /\ G' a st) E.
Proof.
  intros H1 H2 st r st' [HP HG] Hr.
  specialize (H1 st r st' HP Hr). specialize (H2 st r st' HG Hr).
  destruct r; auto.
Qed.

Lemma triple_keeps {A} (G : State -> Prop) (m : M A) :
  preserves keeps_files m ->
  (forall st st', G st -> keeps_files st st' -> G st') ->
  triple G m (fun _ => G) (fun _ => True).
Proof.
  intros Hm HG st r st' H Hr. pose proof (HG _ _ H (Hm _ _ _ Hr)).
  destruct r; auto.
Qed.

(** writing a file elsewhere leaves the file at [key] *)
Lemma write_file_holds (cwd0 key : string) (c' : content) (p : string)
    (c : content) :
  PosixPath.abspath cwd0 p <> key ->
  triple (holds cwd0 key c') (write_file p c) (fun _ => holds cwd0 key c')
         (fun _ => True).
Proof.
  intros Hne st r st' [C F] H. unfold write_file in H. apply bind_inv in H.
  destruct H as [(u & st1 & H1 & H2)|[(e & _ & ->)|[_ ->]]]; try exact I.
  pose proof (os_call_same_world _ _ _ _ H1) as (_ & C1 & F1 & _).
  unfold bind, get in H2. unfold fs_key in H2. rewrite C1, C, F1 in H2.
  destruct (is_dir (fs st) (PosixPath.abspath cwd0 p)
            || negb (is_dir (fs st) (PosixPath.dirname (PosixPath.abspath cwd0 p)))).
  - injection H2 as <- _. exact I.
  - injection H2 as <- <-. split; [cbn; congruence|]. cbn.
    rewrite file_at_insert_file by assumption. exact F.
Qed.

Section BuildManifest.

Variable cwd0 : string.
Variable docs0 : gmap nat Document.t.
Variable k : string.
Variable o0 : option content.

Let Inv : State -> Prop := build_invariant cwd0 docs0 k o0.

Lemma Inv_cwd (st : State) : Inv st -> cwd st = cwd0.
Proof using Type. now intros (C & _). Qed.

(** the file just written is there *)
Lemma write_file_staged (d name : string) (c : content) :
  clean_tmp k d = true ->
  safe_relative name = true ->
  List.filter kept (PyStr.split PyStr.slash name) = [name] ->
  triple Inv (write_file (PosixPath.join d name) c)
         (fun _ st => Inv st /\ holds cwd0 (d ++ "/" ++ name) c st) Inv.
Proof using Type.
  intros Hd Hsafe Hname.
  pose proof (staged_key cwd0 k d name Hd Hsafe) as Hkey.
  rewrite Hname in Hkey. cbn [PyStr.join] in Hkey.
  eapply triple_conseq;
    [| | |apply (write_file_spec cwd0 docs0 k o0 (PosixPath.join d name) c)];
    auto.
  - intros u st [HI Hf]. split; [exact HI|]. split; [now apply Inv_cwd|].
    now rewrite <- Hkey.
  - now apply staged_not_key.
Qed.

(** the archive holds the files that are directly below the root *)
Lemma make_archive_members (d b format root : string)
    (good : list (string * content) -> Prop) :
  clean_tmp k d = true ->
  PosixPath.has_sep b = false ->
  clean_tmp k root = true ->
  forall G : State -> Prop,
  (forall st st', G st -> keeps_files st st' -> G st') ->
  (forall st, G st -> good (members_of (fs st) root)) ->
  triple (fun st => Inv st /\ G st)
         (make_archive (PosixPath.join d b) format root)
         (fun out st =>
            Inv st
            /\ archived_with good (PosixPath.abspath cwd0 out) format st)
         Inv.
Proof using Type.
  intros Hd Hb Hroot G HG Hgood. unfold make_archive.
  destruct (archive_extension format) as [ext|] eqn:Hext;
    [|apply triple_raise; now intros st [H _]].
  pose proof (archive_not_key cwd0 k d b format ext Hd Hb Hext) as Hne.
  eapply triple_bind.
  { apply triple_also;
      [apply (triple_same_world cwd0 docs0 k o0), os_call_same_world|].
    apply triple_keeps; [|exact HG].
    eapply preserves_weaken; [apply same_world_keeps|apply os_call_same_world]. }
  intros u st r st' [HI HGst] H. unfold bind at 1 in H. unfold get at 1 in H.
  unfold fs_key in H. rewrite (Inv_cwd st HI) in H.
  rewrite (clean_tmp_key cwd0 k root Hroot) in H.
  destruct (negb (is_dir (fs st) root)).
  { injection H as <- <-. exact HI. }
  apply bind_inv in H.
  destruct H as [(u' & st1 & H1 & H2)|[(e & H1 & ->)|[H1 ->]]].
  - pose proof (write_file_spec cwd0 docs0 k o0 _ _ Hne st (Ok u') st1 HI H1)
      as [HI1 Hf].
    injection H2 as <- <-. split; [exact HI1|].
    eexists. split; [exact Hf|]. apply Hgood, HGst.
  - exact (write_file_spec cwd0 docs0 k o0 _ _ Hne st (Raise e) st' HI H1).
  - exact (write_file_spec cwd0 docs0 k o0 _ _ Hne st OutOfFuel st' HI H1).
Qed.

(** the rename puts the archive, as it is, at the destination *)
Lemma rename_members (format src dst : string)
    (good : list (string * content) -> Prop) :
  PosixPath.abspath cwd0 dst = k ->
  triple (fun st => Inv st
                    /\ archived_with good (PosixPath.abspath cwd0 src) format st)
         (rename src dst)
         (fun _ st => cwd st = cwd0 /\ archived_with good k format st
                      /\ List.Forall (fun d => clean_tmp k d = true) (exit_stack st))
         (fun _ => True).
Proof using Type.
  intros Hk st r st' [HI Har] H. unfold rename in H. apply bind_inv in H.
  destruct H as [(u & st1 & H1 & H2)|[(e & _ & ->)|[_ ->]]]; try exact I.
  pose proof (os_call_same_world _ _ _ _ H1) as Hw.
  assert (HI1 : Inv st1) by (eapply Inv_same_world; eauto).
  assert (Har1 : archived_with good (PosixPath.abspath cwd0 src) format st1).
  { eapply archived_with_keeps; [exact Har|now apply same_world_keeps]. }
  unfold bind, get in H2. destruct HI1 as (C & D & F & T & X).
  unfold fs_key in H2. rewrite C, Hk in H2.
  destruct Har1 as (ms & Hms & Hgood). unfold file_at in Hms.
  destruct (fs st1 !! PosixPath.abspath cwd0 src) as [[c|]|]; try discriminate.
  injection Hms as ->.
  destruct (is_dir (fs st1) k || negb (is_dir (fs st1) (PosixPath.dirname k))).
  - injection H2 as <- _. exact I.
  - injection H2 as <- <-. cbn. split; [exact C|]. split; [|exact X].
    exists ms. split; [|exact Hgood]. unfold file_at. cbn [fs set_fs].
    now rewrite lookup_insert_eq.
Qed.

Lemma triple_weaken {A} (P : State -> Prop) (m : M A) (Q : A -> State -> Prop)
    (E : State -> Prop) :
  triple P m Q E -> triple P m Q (fun _ => True).
Proof using Type.
  intros H st r st' HP Hr. specialize (H st r st' HP Hr). destruct r; auto.
Qed.

Variable top_doc : nat.
Variable inputs meta : option (list (string * json)).
Hypothesis Hsafe :
  forall top r d p,
    docs0 !! top_doc = Some top ->
    docs0 !! r = Some d ->
    zip_path cwd0 (main_dir_of top) (abspath_of d) = Ok p ->
    safe_relative p = true.

(** the default inputs are in the staging directory [dir] *)
Let staged_inputs (dir : string) (st : State) : Prop :=
  match inputs with
  | Some (i :: rest) =>
      holds cwd0 (dir ++ "/" ++ "default_input.json") (Json (JObject (i :: rest))) st
  | _ => True
  end.

(** ... and so is the manifest *)
Let staged (dir : string) (manifest : list (string * json)) (st : State) : Prop :=
  holds cwd0 (dir ++ "/" ++ "MANIFEST.json") (Json (JObject manifest)) st
  /\ staged_inputs dir st.

Lemma staged_keeps (dir : string) (manifest : list (string * json))
    (st st' : State) :
  staged dir manifest st -> keeps_files st st' -> staged dir manifest st'.
Proof using Type.
  intros [HM HI] Hk. split; [eapply holds_keeps; eauto|].
  unfold staged_inputs in *. destruct inputs as [[|i rest]|]; auto.
  eapply holds_keeps; eauto.
Qed.

Lemma staged_members (dir : string) (manifest : list (string * json))
    (st : State) :
  clean_tmp k dir = true ->
  staged dir manifest st ->
  manifest_members inputs manifest (members_of (fs st) dir).
Proof using Type.
  intros Hdir [[_ HM] HI]. destruct (clean_tmp_shape k dir Hdir) as [_ Hend].
  assert (Hin : forall name c,
             file_at (fs st) (dir ++ "/" ++ name) = Some c ->
             In (name, c) (members_of (fs st) dir)).
  { intros name c Hf. apply members_of_In; [exact Hend|].
    unfold file_at in Hf.
    destruct (fs st !! (dir ++ "/" ++ name)) as [[c'|]|]; try discriminate.
    now injection Hf as ->. }
  split; [now apply Hin|].
  unfold staged_inputs in HI. destruct inputs as [[|i rest]|]; auto.
  destruct HI as [_ HI]. now apply Hin.
Qed.

(** [build] without its exit stack: when it returns, the archive at the
    destination holds the manifest and the default inputs *)
Lemma build_manifest_steps (fuel : nat) (archive : string) (format : string) :
  PosixPath.abspath cwd0 archive = k ->
  exists body,
    build fuel top_doc archive inputs meta format = with_exit_stack body
    /\ triple Inv body
         (fun _ st =>
            cwd st = cwd0
            /\ (exists top manifest,
                  docs0 !! top_doc = Some top
                  /\ manifest_for top inputs meta manifest
                  /\ archived_with (manifest_members inputs manifest) k format st)
            /\ List.Forall (fun d => clean_tmp k d = true) (exit_stack st))
         (fun _ => True).
Proof using Hsafe.
  intros Hk. eexists. split; [reflexivity|].
  eapply triple_bind;
    [eapply triple_weaken, (build_source_dir_spec cwd0 docs0 k o0 top_doc Hsafe)|].
  intros dir. apply triple_pure. intros Hdir.
  eapply triple_bind; [eapply triple_weaken, triple_deref_inv|].
  intros top. apply triple_pure. intros Htop.
  eapply triple_bind with
    (Q1 := fun manifest st =>
             manifest_for top inputs meta manifest
             /\ (Inv st /\ staged_inputs dir st)).
  { unfold staged_inputs, manifest_for.
    destruct inputs as [[|i rest]|].
    1,3: apply triple_ret; intros st HI;
         (split; [destruct meta as [[|m ms]|]; repeat split; reflexivity|auto]).
    eapply triple_bind with
      (Q1 := fun _ st => Inv st
                         /\ holds cwd0 (dir ++ "/" ++ "default_input.json")
                                  (Json (JObject (i :: rest))) st).
    - eapply triple_weaken. apply write_file_staged; [exact Hdir|reflexivity..].
    - intros u. apply triple_ret. intros st H.
      split; [destruct meta as [[|m ms]|]; repeat split; reflexivity|exact H]. }
  intros manifest. apply triple_pure. intros Hmanifest.
  eapply triple_bind with (Q1 := fun _ st => Inv st /\ staged dir manifest st).
  { eapply triple_conseq with
      (Q := fun _ st =>
              (Inv st /\ holds cwd0 (dir ++ "/" ++ "MANIFEST.json")
                               (Json (JObject manifest)) st)
              /\ staged_inputs dir st);
      [intros st H; exact H
      |intros u st [[HI HM] HG]; exact (conj HI (conj HM HG))|auto|].
    apply triple_also.
    - eapply triple_weaken. apply write_file_staged; [exact Hdir|reflexivity..].
    - unfold staged_inputs. destruct inputs as [[|i rest]|];
        try (intros st r st' _ _; destruct r; exact I).
      apply write_file_holds.
      rewrite (staged_key cwd0 k dir "MANIFEST.json" Hdir eq_refl).
      change (List.filter kept (PyStr.split PyStr.slash "MANIFEST.json"))
        with ["MANIFEST.json"].
      cbn [PyStr.join]. intros E.
      apply (f_equal (PyStr.drop (PyStr.len dir))) in E.
      rewrite !drop_app in E. vm_compute in E. discriminate. }
  intros u1.
  assert (Hkeep : forall (A : Type) (m : M A),
             preserves same_world m ->
             triple (fun st => Inv st /\ staged dir manifest st) m
                    (fun _ st => Inv st /\ staged dir manifest st)
                    (fun _ => True)).
  { intros A m Hm. apply triple_also.
    - eapply triple_weaken, (triple_same_world cwd0 docs0 k o0), Hm.
    - apply triple_keeps; [|apply staged_keeps].
      eapply preserves_weaken; [apply same_world_keeps|exact Hm]. }
  eapply triple_bind; [apply Hkeep, logger_same_world|].
  intros u2.
  eapply triple_bind with
    (Q1 := fun tmp_zip st =>
             clean_tmp k tmp_zip = true /\ (Inv st /\ staged dir manifest st)).
  { eapply triple_conseq with
      (Q := fun tmp_zip st =>
              (clean_tmp k tmp_zip = true /\ Inv st) /\ staged dir manifest st);
      [intros st H; exact H
      |intros d st [[Hd HI] HG]; exact (conj Hd (conj HI HG))|auto|].
    apply triple_also.
    - eapply triple_weaken, enter_temporary_directory_spec.
    - apply triple_keeps; [apply enter_temporary_directory_keeps|].
      apply staged_keeps. }
  intros tmp_zip. apply triple_pure. intros Htmp.
  eapply triple_bind; [apply Hkeep, logger_same_world|].
  intros u3.
  set (good := manifest_members inputs manifest).
  eapply triple_bind.
  { eapply triple_weaken.
    apply (make_archive_members tmp_zip _ format dir good Htmp
             (basename_no_sep _) Hdir (staged dir manifest)).
    - apply staged_keeps.
    - intros st. now apply staged_members. }
  intros out.
  assert (Hkeep' : forall (A : Type) (m : M A),
             preserves same_files m ->
             triple (fun st => Inv st
                               /\ archived_with good (PosixPath.abspath cwd0 out)
                                                format st) m
                    (fun _ st => Inv st
                                 /\ archived_with good (PosixPath.abspath cwd0 out)
                                                  format st)
                    (fun _ => True)).
  { intros A m Hm. apply triple_also.
    - eapply triple_weaken, (triple_same_files cwd0 docs0 k o0), Hm.
    - apply triple_keeps; [|apply archived_with_keeps].
      eapply preserves_weaken; [apply same_files_keeps|exact Hm]. }
  eapply triple_bind.
  { apply Hkeep'. eapply preserves_weaken;
      [apply same_world_files|apply logger_same_world]. }
  intros u4.
  eapply triple_bind.
  { apply Hkeep'. destruct (PyStr.contains "/" archive).
    - apply makedirs_same_files.
    - apply (preserves_ret _ same_files_refl). }
  intros u5.
  eapply triple_conseq; [| | |apply (rename_members format out archive good Hk)];
    auto.
  intros u st (C & Har & X). split; [exact C|]. split; [|exact X].
  exists top, manifest. auto.
Qed.

End BuildManifest.

(** X16: the archive a successful [build] leaves at the destination has a
    member [MANIFEST.json] whose [mainWorkflowURL] is the file name of the
    main document, whose [meta] is the metadata given, if any, and whose
    [inputFileURLs] names [default_input.json] exactly when default inputs
    are given; these are then the member [default_input.json]. *)
Theorem build_archive_manifest (fuel : nat) (top_doc : nat) (archive : string)
    (inputs meta : option (list (string * json))) (format : string)
    (st st' : State) :
  tmp_names_clean archive st = true ->
  staging_safe top_doc st = true ->
  build fuel top_doc archive inputs meta format st = (Ok tt, st') ->
  exists top manifest members,
    docs st !! top_doc = Some top
    /\ file_at (fs st') (fs_key st archive) = Some (Packed format members)
    /\ manifest_for top inputs meta manifest
    /\ manifest_members inputs manifest members.
Proof.
  intros Htmp Hsafe Hrun.
  set (k := fs_key st archive).
  assert (Hsafe' : forall top r0 d p,
             docs st !! top_doc = Some top ->
             docs st !! r0 = Some d ->
             zip_path (cwd st) (main_dir_of top) (abspath_of d) = Ok p ->
             safe_relative p = true).
  { intros top r0 d p Htop Hd Hzp. unfold staging_safe in Hsafe.
    rewrite Htop in Hsafe. rewrite forallb_forall in Hsafe.
    assert (Hin : In (r0, d) (map_to_list (docs st))).
    { apply list_elem_of_In. now apply elem_of_map_to_list. }
    specialize (Hsafe _ Hin). cbn [snd] in Hsafe.
    rewrite Hzp in Hsafe. exact Hsafe. }
  destruct (build_manifest_steps (cwd st) (docs st) k (file_at (fs st) k)
              top_doc inputs meta Hsafe' fuel archive format eq_refl)
    as (body & Hbuild & Hbody).
  rewrite Hbuild in Hrun. unfold with_exit_stack in Hrun.
  destruct (body (set_exit_stack [] st)) as [rb stb] eqn:Hb.
  assert (HI : build_invariant (cwd st) (docs st) k (file_at (fs st) k)
                 (set_exit_stack [] st)).
  { unfold build_invariant. cbn.
    repeat (split; [reflexivity|]). split; [|constructor].
    apply List.Forall_forall. intros d Hd.
    unfold tmp_names_clean in Htmp. rewrite forallb_forall in Htmp.
    apply Htmp. exact Hd. }
  specialize (Hbody _ rb stb HI Hb).
  destruct rb as [[]|e|].
  - destruct Hbody as (C & (top & manifest & Htop & Hm & ms & Hms & Hgood) & X).
    destruct (cleanup_spec (cwd st) k (exit_stack stb) X stb C) as (st2 & H2 & Hf).
    rewrite H2 in Hrun. injection Hrun as <-.
    exists top, manifest, ms. split; [exact Htop|]. split; [|auto].
    cbn. now rewrite Hf.
  - destruct (for_each (exit_stack stb) rmtree stb). discriminate.
  - discriminate.
Qed.

Lemma build_archive_manifest_witness :
  let inputs := Some [("w.n", JInt 3)] in
  let meta := Some [("author", JString "me")] in
  let run := build 10 0 "out/w.zip" inputs meta "zip" diamond_state in
  exists top manifest members,
    docs diamond_state !! 0%nat = Some top
    /\ file_at (fs (snd run)) (fs_key diamond_state "out/w.zip")
       = Some (Packed "zip" members)
    /\ manifest_for top inputs meta manifest
    /\ manifest_members inputs manifest members.
Proof.
  intros inputs meta run.
  apply (build_archive_manifest 10 0 "out/w.zip" inputs meta "zip" diamond_state
           (snd run)).
  - vm_compute. reflexivity.
  - vm_compute. reflexivity.
  - assert (E : fst run = Ok tt) by (vm_compute; reflexivity).
    rewrite <- E. apply surjective_pairing.
Defined.
